(** * Cycles texture image manager and render merge: a shallow embedding

    The definitions follow [src/render/image.cpp] and [src/render/merge.cpp].
    Mutable C++ objects become records threaded through the functions;
    an out-parameter becomes part of the returned value; collaborators that
    live outside these files (file system, OpenImageIO, colour management,
    the device allocator) are fields of an environment record. *)

From Stdlib Require Import ZArith String List Lia.
From Stdlib Require Import Floats.SpecFloat.
From Stdlib Require DecimalString.
From stdpp Require Import gmap strings list.

Local Open Scope Z_scope.

(* ================================================================== *)
(** * Scalars *)

(** IEEE 754 binary32, the C++ [float]: precision 24, maximal exponent 128. *)
Module F32.
Definition t : Type := spec_float.
Definition prec : Z := 24.
Definition emax : Z := 128.

Definition zero : t := S754_zero false.
Definition of_Z (n : Z) : t := binary_normalize prec emax n 0 false.
Definition one : t := of_Z 1.
Definition add : t -> t -> t := SFadd prec emax.
Definition sub : t -> t -> t := SFsub prec emax.
Definition mul : t -> t -> t := SFmul prec emax.
Definition div : t -> t -> t := SFdiv prec emax.
Definition eqb : t -> t -> bool := SFeqb.
Definition ltb : t -> t -> bool := SFltb.

(** [std::isfinite]. *)
Definition isfinite (x : t) : bool :=
  match x with
  | S754_zero _ | S754_finite _ _ _ => true
  | S754_infinity _ | S754_nan => false
  end.

(** [(int)x] for a finite [x]: truncation towards zero. *)
Definition to_Z (x : t) : Z :=
  match x with
  | S754_finite s m e =>
      let a := if 0 <=? e then Z.pos m * 2 ^ e else Z.pos m / 2 ^ (- e) in
      if s then - a else a
  | _ => 0
  end.

(** The quotient [n / d] rounded to binary32, as the literals [0.5f] and
    [0.4f] are. *)
Definition of_ratio (n d : Z) : t := div (of_Z n) (of_Z d).
End F32.

Abbreviation float32 := F32.t.

(** Two's complement wrap of a C++ [int]. *)
Definition wrap_int32 (z : Z) : Z := (z + 2 ^ 31) mod 2 ^ 32 - 2 ^ 31.

(** [ustring]: an interned string, compared by content. *)
Abbreviation ustring := string.

(* ================================================================== *)
(** * Enumerations *)

(** The eight device pixel layouts, in enumeration order. *)
Inductive ImageDataType : Type :=
| IMAGE_DATA_TYPE_FLOAT4
| IMAGE_DATA_TYPE_BYTE4
| IMAGE_DATA_TYPE_HALF4
| IMAGE_DATA_TYPE_FLOAT
| IMAGE_DATA_TYPE_BYTE
| IMAGE_DATA_TYPE_HALF
| IMAGE_DATA_TYPE_USHORT4
| IMAGE_DATA_TYPE_USHORT.

#[global] Instance ImageDataType_eq_dec : EqDecision ImageDataType.
Proof. solve_decision. Defined.

Definition IMAGE_DATA_NUM_TYPES : Z := 8.

(** The types in the order of [for (type = 0; type < IMAGE_DATA_NUM_TYPES; type++)]. *)
Definition all_types : list ImageDataType :=
  [ IMAGE_DATA_TYPE_FLOAT4; IMAGE_DATA_TYPE_BYTE4; IMAGE_DATA_TYPE_HALF4;
    IMAGE_DATA_TYPE_FLOAT; IMAGE_DATA_TYPE_BYTE; IMAGE_DATA_TYPE_HALF;
    IMAGE_DATA_TYPE_USHORT4; IMAGE_DATA_TYPE_USHORT ].

Definition type_tag (t : ImageDataType) : Z :=
  match t with
  | IMAGE_DATA_TYPE_FLOAT4 => 0
  | IMAGE_DATA_TYPE_BYTE4 => 1
  | IMAGE_DATA_TYPE_HALF4 => 2
  | IMAGE_DATA_TYPE_FLOAT => 3
  | IMAGE_DATA_TYPE_BYTE => 4
  | IMAGE_DATA_TYPE_HALF => 5
  | IMAGE_DATA_TYPE_USHORT4 => 6
  | IMAGE_DATA_TYPE_USHORT => 7
  end.

(** The cast [(ImageDataType)(n)] for a masked tag. *)
Definition type_of_tag (n : Z) : ImageDataType :=
  match n with
  | 0 => IMAGE_DATA_TYPE_FLOAT4
  | 1 => IMAGE_DATA_TYPE_BYTE4
  | 2 => IMAGE_DATA_TYPE_HALF4
  | 3 => IMAGE_DATA_TYPE_FLOAT
  | 4 => IMAGE_DATA_TYPE_BYTE
  | 5 => IMAGE_DATA_TYPE_HALF
  | 6 => IMAGE_DATA_TYPE_USHORT4
  | _ => IMAGE_DATA_TYPE_USHORT
  end.

(** "The lower three bits of a device texture slot number indicate its type." *)
Definition IMAGE_DATA_TYPE_SHIFT : Z := 3.
Definition IMAGE_DATA_TYPE_MASK : Z := 7.

Inductive InterpolationType : Type :=
| INTERPOLATION_NONE | INTERPOLATION_LINEAR | INTERPOLATION_CLOSEST
| INTERPOLATION_CUBIC | INTERPOLATION_SMART.

Inductive ExtensionType : Type :=
| EXTENSION_REPEAT | EXTENSION_EXTEND | EXTENSION_CLIP.

Inductive ImageAlphaType : Type :=
| IMAGE_ALPHA_UNASSOCIATED | IMAGE_ALPHA_ASSOCIATED | IMAGE_ALPHA_CHANNEL_PACKED
| IMAGE_ALPHA_IGNORE | IMAGE_ALPHA_AUTO.

Inductive ImageGridType : Type :=
| IMAGE_GRID_TYPE_DEFAULT | IMAGE_GRID_TYPE_SPARSE
| IMAGE_GRID_TYPE_SPARSE_PAD | IMAGE_GRID_TYPE_OPENVDB.

#[global] Instance InterpolationType_eq_dec : EqDecision InterpolationType.
Proof. solve_decision. Defined.
#[global] Instance ExtensionType_eq_dec : EqDecision ExtensionType.
Proof. solve_decision. Defined.
#[global] Instance ImageAlphaType_eq_dec : EqDecision ImageAlphaType.
Proof. solve_decision. Defined.
#[global] Instance ImageGridType_eq_dec : EqDecision ImageGridType.
Proof. solve_decision. Defined.

(** OpenImageIO base types, as far as the probe and the loaders tell them apart. *)
Inductive BaseType : Type :=
| TD_UINT8 | TD_INT8 | TD_USHORT | TD_INT16 | TD_UINT32 | TD_INT32
| TD_HALF | TD_FLOAT | TD_DOUBLE.

#[global] Instance BaseType_eq_dec : EqDecision BaseType.
Proof. solve_decision. Defined.

Definition is_floating_point (t : BaseType) : bool :=
  match t with TD_HALF | TD_FLOAT | TD_DOUBLE => true | _ => false end.

(* ================================================================== *)
(** * Flat handles *)

Definition type_index_to_flattened_slot (slot : Z) (type : ImageDataType) : Z :=
  wrap_int32 (Z.lor (Z.shiftl slot IMAGE_DATA_TYPE_SHIFT) (type_tag type)).

(** Returns the slot; the type goes through the out-parameter. *)
Definition flattened_slot_to_type_index (flat_slot : Z) : Z * ImageDataType :=
  (Z.shiftr flat_slot IMAGE_DATA_TYPE_SHIFT,
   type_of_tag (Z.land flat_slot IMAGE_DATA_TYPE_MASK)).

(* ================================================================== *)
(** * Records *)

Record ImageMetaData : Type := mkImageMetaData {
  is_float : bool;
  is_half : bool;
  channels : Z;
  width : Z;
  height : Z;
  depth : Z;
  builtin_free_cache : bool;
  type : ImageDataType;
  colorspace : ustring;
  compress_as_srgb : bool
}.

#[global] Instance ImageMetaData_eq_dec : EqDecision ImageMetaData.
Proof. solve_decision. Defined.

Definition set_md_colorspace (cs : ustring) (md : ImageMetaData) : ImageMetaData :=
  mkImageMetaData (is_float md) (is_half md) (channels md) (width md) (height md)
    (depth md) (builtin_free_cache md) (type md) cs (compress_as_srgb md).

Definition set_md_compress_as_srgb (b : bool) (md : ImageMetaData) : ImageMetaData :=
  mkImageMetaData (is_float md) (is_half md) (channels md) (width md) (height md)
    (depth md) (builtin_free_cache md) (type md) (colorspace md) b.

Definition set_md_type (t : ImageDataType) (md : ImageMetaData) : ImageMetaData :=
  mkImageMetaData (is_float md) (is_half md) (channels md) (width md) (height md)
    (depth md) (builtin_free_cache md) t (colorspace md) (compress_as_srgb md).

(** What a [device_vector<DeviceType>] holds on the host side, as a flat
    array of [StorageType] elements (four per pixel for the 4-wide types). *)
Inductive pixel_data : Type :=
| PixelsFloat (l : list float32)
| PixelsByte (l : list Z)
| PixelsHalf (l : list spec_float)
| PixelsUShort (l : list Z).

Record device_memory : Type := mkDeviceMemory {
  mem_data : pixel_data;
  mem_data_width : Z;
  mem_data_height : Z;
  mem_data_depth : Z;
  mem_dense_width : Z;
  mem_dense_height : Z;
  mem_dense_depth : Z;
  mem_interpolation : InterpolationType;
  mem_extension : ExtensionType;
  mem_grid_type : ImageGridType;
  (** the companion [<name>_info] buffer of a sparse grid *)
  mem_grid_info : option (list Z);
  (** [copy_to_device] was called on the buffer *)
  mem_on_device : bool
}.

(** [ImageManager::Image]. [builtin_data] is a [void *]: [None] is [NULL]. *)
Record Image : Type := mkImage {
  filename : string;
  grid_name : string;
  builtin_data : option positive;
  metadata : ImageMetaData;
  need_load : bool;
  animated : bool;
  frame : float32;
  interpolation : InterpolationType;
  extension : ExtensionType;
  users : Z;
  alpha_type : ImageAlphaType;
  img_colorspace : ustring;
  is_volume : bool;
  isovalue : float32;
  mem : option device_memory;
  mem_name : string
}.

Definition set_filename (v : string) (i : Image) : Image :=
  mkImage v (grid_name i) (builtin_data i) (metadata i) (need_load i) (animated i)
    (frame i) (interpolation i) (extension i) (users i) (alpha_type i)
    (img_colorspace i) (is_volume i) (isovalue i) (mem i) (mem_name i).

Definition set_metadata (v : ImageMetaData) (i : Image) : Image :=
  mkImage (filename i) (grid_name i) (builtin_data i) v (need_load i) (animated i)
    (frame i) (interpolation i) (extension i) (users i) (alpha_type i)
    (img_colorspace i) (is_volume i) (isovalue i) (mem i) (mem_name i).

Definition set_need_load (v : bool) (i : Image) : Image :=
  mkImage (filename i) (grid_name i) (builtin_data i) (metadata i) v (animated i)
    (frame i) (interpolation i) (extension i) (users i) (alpha_type i)
    (img_colorspace i) (is_volume i) (isovalue i) (mem i) (mem_name i).

Definition set_frame (v : float32) (i : Image) : Image :=
  mkImage (filename i) (grid_name i) (builtin_data i) (metadata i) (need_load i)
    (animated i) v (interpolation i) (extension i) (users i) (alpha_type i)
    (img_colorspace i) (is_volume i) (isovalue i) (mem i) (mem_name i).

Definition set_users (v : Z) (i : Image) : Image :=
  mkImage (filename i) (grid_name i) (builtin_data i) (metadata i) (need_load i)
    (animated i) (frame i) (interpolation i) (extension i) v (alpha_type i)
    (img_colorspace i) (is_volume i) (isovalue i) (mem i) (mem_name i).

Definition set_alpha_type (v : ImageAlphaType) (i : Image) : Image :=
  mkImage (filename i) (grid_name i) (builtin_data i) (metadata i) (need_load i)
    (animated i) (frame i) (interpolation i) (extension i) (users i) v
    (img_colorspace i) (is_volume i) (isovalue i) (mem i) (mem_name i).

Definition set_img_colorspace (v : ustring) (i : Image) : Image :=
  mkImage (filename i) (grid_name i) (builtin_data i) (metadata i) (need_load i)
    (animated i) (frame i) (interpolation i) (extension i) (users i) (alpha_type i)
    v (is_volume i) (isovalue i) (mem i) (mem_name i).

Definition set_mem (v : option device_memory) (i : Image) : Image :=
  mkImage (filename i) (grid_name i) (builtin_data i) (metadata i) (need_load i)
    (animated i) (frame i) (interpolation i) (extension i) (users i) (alpha_type i)
    (img_colorspace i) (is_volume i) (isovalue i) v (mem_name i).

Definition set_mem_name (v : string) (i : Image) : Image :=
  mkImage (filename i) (grid_name i) (builtin_data i) (metadata i) (need_load i)
    (animated i) (frame i) (interpolation i) (extension i) (users i) (alpha_type i)
    (img_colorspace i) (is_volume i) (isovalue i) (mem i) v.

(** The manager. [images] is the array of per-type vectors of [Image *];
    a [NULL] entry is [None]. [oiio_texture_system] records whether the
    pointer is set. *)
Record ImageManager : Type := mkImageManager {
  need_update : bool;
  pack_images : bool;
  oiio_texture_system : bool;
  animation_frame : Z;
  max_num_images : Z;
  has_half_images : bool;
  tex_num_images : ImageDataType -> Z;
  images : ImageDataType -> list (option Image)
}.

Definition set_need_update (v : bool) (m : ImageManager) : ImageManager :=
  mkImageManager v (pack_images m) (oiio_texture_system m) (animation_frame m)
    (max_num_images m) (has_half_images m) (tex_num_images m) (images m).

Definition set_tex_num_images (v : ImageDataType -> Z) (m : ImageManager) : ImageManager :=
  mkImageManager (need_update m) (pack_images m) (oiio_texture_system m)
    (animation_frame m) (max_num_images m) (has_half_images m) v (images m).

Definition set_images (v : ImageDataType -> list (option Image)) (m : ImageManager)
  : ImageManager :=
  mkImageManager (need_update m) (pack_images m) (oiio_texture_system m)
    (animation_frame m) (max_num_images m) (has_half_images m) (tex_num_images m) v.

(** Update of one entry of an array indexed by the type enumeration. *)
Definition upd {A : Type} (f : ImageDataType -> A) (t : ImageDataType) (a : A)
  : ImageDataType -> A :=
  fun t' => if decide (t' = t) then a else f t'.

(** [images[type][slot]] for an [int] slot. [None]: the index is outside the
    vector, where the C++ subscript has no defined behaviour. *)
Definition image_at (m : ImageManager) (type : ImageDataType) (slot : Z)
  : option (option Image) :=
  if slot <? 0 then None else images m type !! Z.to_nat slot.

(** [images[type][slot] = v] for a slot inside the vector. *)
Definition set_image_at (m : ImageManager) (type : ImageDataType) (slot : nat)
    (v : option Image) : ImageManager :=
  set_images (upd (images m) type (<[slot := v]> (images m type))) m.

(* ================================================================== *)
(** * Collaborators *)

(** [OIIO::ImageSpec], the part the probe reads. *)
Record ImageSpec : Type := mkImageSpec {
  spec_width : Z;
  spec_height : Z;
  spec_depth : Z;
  spec_nchannels : Z;
  spec_format : BaseType;
  spec_channelformats : list BaseType
}.

(** An opened [OIIO::ImageInput]. [in_read fmt] is what [read_image(fmt, ...)]
    delivers: the samples of the file converted to [fmt], scanline after
    scanline in file order. *)
Record ImageInput : Type := mkImageInput {
  in_spec : ImageSpec;
  in_format_name : string;
  in_read : BaseType -> pixel_data
}.

(** Everything the image manager calls but does not define. *)
Record Env : Type := mkEnv {
  (** [u_colorspace_raw], [u_colorspace_srgb] of [render/colorspace.h] *)
  u_colorspace_raw : ustring;
  u_colorspace_srgb : ustring;
  (** [ColorSpaceManager] *)
  detect_known_colorspace : ustring -> string -> bool -> ustring;
  colorspace_is_data : ustring -> bool;
  to_scene_linear : ustring -> pixel_data -> Z -> Z -> Z -> bool -> pixel_data;
  (** the value built by the constructor [ImageMetaData()] *)
  default_metadata : ImageMetaData;
  (** the callbacks installed by the host application; [None] is an unset one *)
  builtin_image_info_cb :
    option (string -> option positive -> ImageMetaData -> ImageMetaData);
  builtin_image_pixels_cb :
    option (string -> option positive -> Z -> Z -> bool -> bool -> list Z);
  builtin_image_float_pixels_cb :
    string -> option positive -> Z -> Z -> bool -> bool -> list float32;
  (** [util_path] *)
  path_exists : string -> bool;
  path_is_directory : string -> bool;
  path_filename : string -> string;
  (** whether the build defines [WITH_OPENVDB], and [render/openvdb.h] *)
  with_openvdb : bool;
  openvdb_has_grid : string -> string -> bool;
  openvdb_get_resolution : string -> Z * Z * Z;
  openvdb_load_preprocess : string -> string -> float32 -> bool -> list Z * Z;
  openvdb_load_image : string -> string -> list Z -> Z -> bool -> list float32;
  (** [Attribute::standard_name] of the two vector-valued volume attributes *)
  volume_color_name : string;
  volume_velocity_name : string;
  (** [ImageInput::create] succeeded; [open] with or without the
      [oiio:UnassociatedAlpha] request *)
  image_input_create : string -> bool;
  image_input_open : string -> bool -> option ImageInput;
  (** the device allocator: does [alloc(width, height, depth)] return memory *)
  device_alloc : Z -> Z -> Z -> bool;
  (** [util_image_resize_pixels]: scaled pixels and the new dimensions *)
  util_image_resize_pixels :
    pixel_data -> Z -> Z -> Z -> Z -> float32 -> pixel_data * (Z * Z * Z);
  (** [create_sparse_grid_pad], [create_sparse_grid]: [None] when the grid is
      kept dense; else the sparse pixels and offsets (and the padded resolution) *)
  create_sparse_grid_pad :
    pixel_data -> Z -> Z -> Z -> Z -> string -> float32
    -> option (pixel_data * list Z * (Z * Z * Z));
  create_sparse_grid :
    pixel_data -> Z -> Z -> Z -> Z -> string -> float32
    -> option (pixel_data * list Z);
  (** is the device a CUDA device, [device->info.type == DEVICE_CUDA] *)
  device_is_cuda : bool;
  (** [ImageBufAlgo::make_texture] with the attributes of its configuration *)
  make_texture : string -> string -> list (string * string) -> bool;
  path_join : string -> string -> string;
  (** [TextureSystem::get_texture_handle], [None] when the handle is not good *)
  get_texture_handle : string -> option positive;
  (** [device->oiio_memory()] is not [NULL] *)
  device_has_oiio_memory : bool;
  (** the edge of a padded tile, [PADDED_TILE] of [util_sparse_grid.h] *)
  PADDED_TILE : Z
}.

(** [string_endswith]. *)
Definition string_endswith (s suffix : string) : bool :=
  let n := String.length s in
  let k := String.length suffix in
  (k <=? n)%nat && String.eqb (String.substring (n - k) k s) suffix.

(* ================================================================== *)
(** * Metadata probe *)

Section Probe.
Variable E : Env.

(** [ImageManager::get_image_metadata(int flat_slot, ImageMetaData &)].
    The pair is the returned flag and the out-parameter afterwards;
    [None] stands for a subscript outside the slot vector. *)
Definition get_image_metadata (m : ImageManager) (flat_slot : Z)
    (md : ImageMetaData) : option (bool * ImageMetaData) :=
  if flat_slot =? -1 then Some (false, md)
  else
    let '(slot, type) := flattened_slot_to_type_index flat_slot in
    match image_at m type slot with
    | None => None
    | Some (Some img) => Some (true, metadata img)
    | Some None => Some (false, md)
    end.

Definition metadata_detect_colorspace (md : ImageMetaData) (file_format : string)
  : ImageMetaData :=
  (* Convert used specified color spaces to one we know how to handle. *)
  let md :=
    set_md_colorspace
      (detect_known_colorspace E (colorspace md) file_format
         (is_float md || is_half md)) md in
  if String.eqb (colorspace md) (u_colorspace_raw E) then
    (* Nothing to do. *)
    md
  else if String.eqb (colorspace md) (u_colorspace_srgb E) then
    set_md_compress_as_srgb true md
  else
    let md :=
      set_md_compress_as_srgb
        (bool_decide (type md = IMAGE_DATA_TYPE_BYTE)
         || bool_decide (type md = IMAGE_DATA_TYPE_BYTE4)) md in
    if bool_decide (type md = IMAGE_DATA_TYPE_USHORT) then
      set_md_type IMAGE_DATA_TYPE_HALF md
    else if bool_decide (type md = IMAGE_DATA_TYPE_USHORT4) then
      set_md_type IMAGE_DATA_TYPE_HALF4 md
    else md.

(** The type chosen from the channel count: the 4-wide one above one channel. *)
Definition wide_or_single (chans : Z) (t4 t1 : ImageDataType) : ImageDataType :=
  if chans >? 1 then t4 else t1.

(** [ImageManager::get_image_metadata(filename, grid_name, builtin_data,
    colorspace, metadata)]: the returned flag and the out-parameter. *)
Definition get_image_metadata_file (filename grid_name : string)
    (builtin : option positive) (cs : ustring) : bool * ImageMetaData :=
  let md := set_md_colorspace cs (default_metadata E) in
  match builtin with
  | Some _ =>
      match builtin_image_info_cb E with
      | None => (false, md)
      | Some cb =>
          let md := cb filename builtin md in
          let md :=
            if is_float md
            then set_md_type (wide_or_single (channels md)
                                IMAGE_DATA_TYPE_FLOAT4 IMAGE_DATA_TYPE_FLOAT) md
            else set_md_type (wide_or_single (channels md)
                                IMAGE_DATA_TYPE_BYTE4 IMAGE_DATA_TYPE_BYTE) md in
          (true, metadata_detect_colorspace md "")
      end
  | None =>
      (* Perform preliminary checks, with meaningful logging. *)
      if negb (path_exists E filename) then (false, md)
      else if path_is_directory E filename then (false, md)
      else if with_openvdb E && string_endswith filename ".vdb" then
        if negb (openvdb_has_grid E filename grid_name) then (false, md)
        else
          let '(rx, ry, rz) := openvdb_get_resolution E filename in
          let vec :=
            String.eqb grid_name (volume_color_name E)
            || String.eqb grid_name (volume_velocity_name E) in
          (true,
           mkImageMetaData true false (if vec then 4 else 1) rx ry rz
             (builtin_free_cache md)
             (if vec then IMAGE_DATA_TYPE_FLOAT4 else IMAGE_DATA_TYPE_FLOAT)
             (colorspace md) (compress_as_srgb md))
      else if negb (image_input_create E filename) then (false, md)
      else
        match image_input_open E filename false with
        | None => (false, md)
        | Some inp =>
            let spec := in_spec inp in
            (* Check the main format, and channel formats. *)
            let isf :=
              is_float md || is_floating_point (spec_format spec)
              || existsb is_floating_point (spec_channelformats spec) in
            (* check if it's half float *)
            let ish := is_half md || bool_decide (spec_format spec = TD_HALF) in
            (* set type and channels *)
            let chans := spec_nchannels spec in
            let ty :=
              if ish then
                wide_or_single chans IMAGE_DATA_TYPE_HALF4 IMAGE_DATA_TYPE_HALF
              else if isf then
                wide_or_single chans IMAGE_DATA_TYPE_FLOAT4 IMAGE_DATA_TYPE_FLOAT
              else if bool_decide (spec_format spec = TD_USHORT) then
                wide_or_single chans IMAGE_DATA_TYPE_USHORT4 IMAGE_DATA_TYPE_USHORT
              else
                wide_or_single chans IMAGE_DATA_TYPE_BYTE4 IMAGE_DATA_TYPE_BYTE in
            (true,
             metadata_detect_colorspace
               (mkImageMetaData isf ish chans (spec_width spec) (spec_height spec)
                  (spec_depth spec) (builtin_free_cache md) ty (colorspace md) false)
               (in_format_name inp))
        end
  end.
End Probe.

(* ================================================================== *)
(** * Image cache *)

Definition image_equals (image : Image) (fname gname : string)
    (builtin : option positive) (interp : InterpolationType) (ext : ExtensionType)
    (alpha : ImageAlphaType) (cs : ustring) : bool :=
  bool_decide (filename image = fname) && bool_decide (grid_name image = gname)
  && bool_decide (builtin_data image = builtin)
  && bool_decide (interpolation image = interp)
  && bool_decide (extension image = ext)
  && bool_decide (alpha_type image = alpha)
  && bool_decide (img_colorspace image = cs).

(** The first slot at or after [slot] whose record satisfies [p]:
    [for (slot = 0; slot < images[type].size(); slot++) if (img && p(img))]. *)
Fixpoint find_image (p : Image -> bool) (l : list (option Image)) (slot : nat)
  : option (nat * Image) :=
  match l with
  | [] => None
  | Some img :: l' => if p img then Some (slot, img) else find_image p l' (S slot)
  | None :: l' => find_image p l' (S slot)
  end.

(** The first empty slot, or the size of the vector when there is none. *)
Fixpoint find_free_slot (l : list (option Image)) (slot : nat) : nat :=
  match l with
  | [] => slot
  | None :: _ => slot
  | Some _ :: l' => find_free_slot l' (S slot)
  end.

(** [for (type...) tex_count += tex_num_images[type]]. *)
Definition tex_count (m : ImageManager) : Z :=
  fold_left (fun acc t => acc + tex_num_images m t) all_types 0.

Section Cache.
Variable E : Env.

(** [ImageManager::ImageManager]; [TEX_NUM_MAX] comes from a kernel header. *)
Definition ImageManager_new (TEX_NUM_MAX : Z) (info_has_half_images : bool)
  : ImageManager :=
  mkImageManager true false false 0 TEX_NUM_MAX info_has_half_images
    (fun _ => 0) (fun _ => []).

(** No half textures on OpenCL, use full float instead. *)
Definition storage_type_for (m : ImageManager) (t : ImageDataType) : ImageDataType :=
  if negb (has_half_images m) then
    match t with
    | IMAGE_DATA_TYPE_HALF4 => IMAGE_DATA_TYPE_FLOAT4
    | IMAGE_DATA_TYPE_HALF => IMAGE_DATA_TYPE_FLOAT
    | t => t
    end
  else t.

(** The updates of [add_image] on a record that matched. *)
Definition add_image_touch (img : Image) (frm : float32) (alpha : ImageAlphaType)
    (cs : ustring) (md : ImageMetaData) : Image :=
  let img :=
    if negb (F32.eqb (frame img) frm)
    then set_need_load true (set_frame frm img) else img in
  let img :=
    if negb (bool_decide (alpha_type img = alpha))
    then set_need_load true (set_alpha_type alpha img) else img in
  let img :=
    if negb (bool_decide (img_colorspace img = cs))
    then set_need_load true (set_img_colorspace cs img) else img in
  let img :=
    if negb (bool_decide (metadata img = md))
    then set_need_load true (set_metadata md img) else img in
  set_users (users img + 1) img.

(** [ImageManager::add_image]: the returned handle, the [metadata]
    out-parameter and the manager afterwards. *)
Definition add_image (m : ImageManager) (fname gname : string)
    (builtin : option positive) (anim : bool) (frm : float32)
    (interp : InterpolationType) (ext : ExtensionType) (alpha : ImageAlphaType)
    (cs : ustring) (is_vol : bool) (iso : float32)
  : Z * ImageMetaData * ImageManager :=
  let md := snd (get_image_metadata_file E fname gname builtin cs) in
  let type := storage_type_for m (type md) in
  (* Fnd existing image. *)
  match find_image (fun img => image_equals img fname gname builtin interp ext alpha cs)
          (images m type) 0 with
  | Some (slot, img) =>
      let img := add_image_touch img frm alpha cs md in
      (type_index_to_flattened_slot (Z.of_nat slot) type, md,
       set_image_at m type slot (Some img))
  | None =>
      (* Find free slot. *)
      let slot := find_free_slot (images m type) 0 in
      (* Count if we're over the limit. *)
      if tex_count m >? max_num_images m then (-1, md, m)
      else
        let vec :=
          if (slot =? length (images m type))%nat
          then images m type ++ [None] else images m type in
        (* Add new image. *)
        let img :=
          mkImage fname gname builtin md true anim frm interp ext 1 alpha cs
            is_vol iso None "" in
        let m := set_images (upd (images m) type (<[slot := Some img]> vec)) m in
        let m :=
          set_tex_num_images
            (upd (tex_num_images m) type (tex_num_images m type + 1)) m in
        (type_index_to_flattened_slot (Z.of_nat slot) type, md,
         set_need_update true m)
  end.

(** [ImageManager::add_image_user]; [None] where the assertion fails. *)
Definition add_image_user (m : ImageManager) (flat_slot : Z) : option ImageManager :=
  let '(slot, type) := flattened_slot_to_type_index flat_slot in
  match image_at m type slot with
  | Some (Some image) =>
      if 1 <=? users image
      then Some (set_image_at m type (Z.to_nat slot)
                   (Some (set_users (users image + 1) image)))
      else None
  | _ => None
  end.

(** [ImageManager::remove_image(int flat_slot)]; [None] where the assertion fails. *)
Definition remove_image (m : ImageManager) (flat_slot : Z) : option ImageManager :=
  let '(slot, type) := flattened_slot_to_type_index flat_slot in
  match image_at m type slot with
  | Some (Some image) =>
      if 1 <=? users image then
        (* decrement user count *)
        let image := set_users (users image - 1) image in
        let m := set_image_at m type (Z.to_nat slot) (Some image) in
        (* don't remove immediately, rather do it all together later on. *)
        Some (if users image =? 0 then set_need_update true m else m)
      else None
  | _ => None
  end.
(** [ImageManager::remove_image(filename, ...)]: the first record that
    matches, types in order, is handed to [remove_image(int)]. *)
Definition remove_image_by_identity (m : ImageManager) (fname gname : string)
    (builtin : option positive) (interp : InterpolationType) (ext : ExtensionType)
    (alpha : ImageAlphaType) (cs : ustring) : option ImageManager :=
  let hit :=
    foldl (fun found type =>
      match found with
      | Some _ => found
      | None =>
          match find_image (fun img => image_equals img fname gname builtin interp ext
                                          alpha cs) (images m type) 0 with
          | Some (slot, _) => Some (type_index_to_flattened_slot (Z.of_nat slot) type)
          | None => None
          end
      end) None all_types in
  match hit with
  | Some flat_slot => remove_image m flat_slot
  | None => Some m
  end.

(** [ImageManager::tag_reload_image]: in the vector of every type the first
    record that matches gets [need_load]. *)
Definition tag_reload_image (m : ImageManager) (fname gname : string)
    (builtin : option positive) (interp : InterpolationType) (ext : ExtensionType)
    (alpha : ImageAlphaType) (cs : ustring) : ImageManager :=
  foldl (fun m type =>
    match find_image (fun img => image_equals img fname gname builtin interp ext
                                    alpha cs) (images m type) 0 with
    | Some (slot, img) => set_image_at m type slot (Some (set_need_load true img))
    | None => m
    end) m all_types.

(** [ImageManager::set_animation_frame_update]: the returned flag and the
    manager. *)
Definition set_animation_frame_update (m : ImageManager) (frame_ : Z)
  : bool * ImageManager :=
  if negb (frame_ =? animation_frame m) then
    let m :=
      mkImageManager (need_update m) (pack_images m) (oiio_texture_system m) frame_
        (max_num_images m) (has_half_images m) (tex_num_images m) (images m) in
    (existsb (fun type =>
        existsb (fun entry =>
          match entry with Some img => animated img | None => false end)
          (images m type)) all_types,
     m)
  else (false, m).

Definition set_pack_images (m : ImageManager) (pack_images_ : bool) : ImageManager :=
  mkImageManager (need_update m) pack_images_ (oiio_texture_system m) (animation_frame m)
    (max_num_images m) (has_half_images m) (tex_num_images m) (images m).

(** [ImageManager::set_oiio_texture_system]; the flag is whether the pointer
    handed in is not [NULL]. *)
Definition set_oiio_texture_system (m : ImageManager) (texture_system : bool)
  : ImageManager :=
  mkImageManager (need_update m) (pack_images m) texture_system (animation_frame m)
    (max_num_images m) (has_half_images m) (tex_num_images m) (images m).

(** [ImageManager::image_memory]: [img->mem] of the record behind the handle.
    [None] where the subscript is outside the vector or the slot is empty and
    [img->mem] dereferences [NULL]; [Some None] is a [NULL] buffer. *)
Definition image_memory (m : ImageManager) (flat_slot : Z)
  : option (option device_memory) :=
  let '(slot, type) := flattened_slot_to_type_index flat_slot in
  match image_at m type slot with
  | Some (Some img) => Some (mem img)
  | _ => None
  end.
End Cache.

(* ================================================================== *)
(** * Pixel type matrix *)

(** The template arguments [<FileFormat, StorageType>] of the loader together
    with the overloads it resolves for [StorageType]. *)
Record Storage (T : Type) : Type := mkStorage {
  FileFormat : BaseType;
  util_image_cast_from_float : float32 -> T;
  util_image_cast_to_float : T -> float32;
  isfinite : T -> bool;
  (** the literal [0] converted to [StorageType] *)
  storage_zero : T;
  (** a buffer of [StorageType] seen as device data, and back *)
  to_pixel_data : list T -> pixel_data;
  of_pixel_data : pixel_data -> list T
}.

Arguments FileFormat {T} _.
Arguments util_image_cast_from_float {T} _ _.
Arguments util_image_cast_to_float {T} _ _.
Arguments isfinite {T} _ _.
Arguments storage_zero {T} _.
Arguments to_pixel_data {T} _ _.
Arguments of_pixel_data {T} _ _.

(** Modelled from the spec: the integer casts of [util_image_impl.h], which is
    not part of the sources at hand. "Floats clamped to [0,1] before integer
    quantization and multiplied by the storage maximum (255 or 65535) with
    nearest rounding". *)
Definition quantize (maxv : Z) (v : float32) : Z :=
  if F32.ltb v F32.zero then 0
  else if F32.ltb F32.one v then maxv
  else F32.to_Z (F32.add (F32.mul (F32.of_Z maxv) v) (F32.of_ratio 1 2)).

(** Modelled from the spec: the inverse cast, the stored integer over the
    storage maximum. *)
Definition dequantize (maxv : Z) (v : Z) : float32 :=
  F32.div (F32.of_Z v) (F32.of_Z maxv).

(** Modelled from the spec: "half uses IEEE 754 half conversion" (binary16:
    precision 11, maximal exponent 16). *)
Definition float_to_half (v : float32) : spec_float :=
  match v with
  | S754_finite s m e => binary_normalize 11 16 (cond_Zopp s (Z.pos m)) e s
  | _ => v
  end.

Definition half_to_float (h : spec_float) : float32 :=
  match h with
  | S754_finite s m e => binary_normalize F32.prec F32.emax (cond_Zopp s (Z.pos m)) e s
  | _ => h
  end.

Definition Storage_float : Storage float32 :=
  mkStorage float32 TD_FLOAT (fun v => v) (fun v => v) F32.isfinite F32.zero
    PixelsFloat (fun d => match d with PixelsFloat l => l | _ => [] end).

(** [isfinite(uchar)], [isfinite(half)], [isfinite(uint16_t)] return [true]. *)
Definition Storage_uchar : Storage Z :=
  mkStorage Z TD_UINT8 (quantize 255) (dequantize 255) (fun _ => true) 0
    PixelsByte (fun d => match d with PixelsByte l => l | _ => [] end).

Definition Storage_half : Storage spec_float :=
  mkStorage spec_float TD_HALF float_to_half half_to_float (fun _ => true)
    (S754_zero false)
    PixelsHalf (fun d => match d with PixelsHalf l => l | _ => [] end).

Definition Storage_uint16 : Storage Z :=
  mkStorage Z TD_USHORT (quantize 65535) (dequantize 65535) (fun _ => true) 0
    PixelsUShort (fun d => match d with PixelsUShort l => l | _ => [] end).

Definition is_rgba_type (type : ImageDataType) : bool :=
  bool_decide (type = IMAGE_DATA_TYPE_FLOAT4) || bool_decide (type = IMAGE_DATA_TYPE_HALF4)
  || bool_decide (type = IMAGE_DATA_TYPE_BYTE4) || bool_decide (type = IMAGE_DATA_TYPE_USHORT4).

(** The colour of a missing image, [TEX_IMAGE_MISSING_R/G/B/A]: magenta. *)
Definition TEX_IMAGE_MISSING_R : float32 := F32.of_Z 1.
Definition TEX_IMAGE_MISSING_G : float32 := F32.of_Z 0.
Definition TEX_IMAGE_MISSING_B : float32 := F32.of_Z 1.
Definition TEX_IMAGE_MISSING_A : float32 := F32.of_Z 1.

(* ================================================================== *)
(** * Loops over pixel buffers *)

(** [for (size_t i = n - 1, pixel = 0; pixel < n; pixel++, i--) body(i)]:
    the body runs for [i = n-1] down to [0]. *)
Fixpoint loop_down {A : Type} (n : nat) (body : nat -> A -> A) (a : A) : A :=
  match n with
  | O => a
  | S i => loop_down i body (body i a)
  end.

(** [for (size_t i = start; i < n; i += step) body(i)]; [fuel] bounds the
    number of iterations and [n] is always enough of it for [step >= 1]. *)
Fixpoint loop_step {A : Type} (fuel : nat) (step n i : nat) (body : nat -> A -> A)
    (a : A) : A :=
  match fuel with
  | O => a
  | S fuel' =>
      if (i <? n)%nat then loop_step fuel' step n (i + step) body (body i a) else a
  end.

Section PixelStages.
Context {T : Type} (St : Storage T).

(** [pixels[i]] as an rvalue; outside the buffer C++ leaves it undefined. *)
Definition rd (pixels : list T) (i : nat) : T :=
  default (storage_zero St) (pixels !! i).

Definition one : T := util_image_cast_from_float St F32.one.

(** CMYK to RGBA: the loop body for pixel [i], and the loop. *)
Definition cmyk_pixel (i : nat) (pixels : list T) : list T :=
  let c := util_image_cast_to_float St (rd pixels (i * 4 + 0)) in
  let m := util_image_cast_to_float St (rd pixels (i * 4 + 1)) in
  let y := util_image_cast_to_float St (rd pixels (i * 4 + 2)) in
  let k := util_image_cast_to_float St (rd pixels (i * 4 + 3)) in
  let cv v := util_image_cast_from_float St
                (F32.mul (F32.sub F32.one v) (F32.sub F32.one k)) in
  let pixels := <[(i * 4 + 0)%nat := cv c]> pixels in
  let pixels := <[(i * 4 + 1)%nat := cv m]> pixels in
  let pixels := <[(i * 4 + 2)%nat := cv y]> pixels in
  <[(i * 4 + 3)%nat := one]> pixels.

Definition cmyk_to_rgba (num_pixels : nat) (pixels : list T) : list T :=
  loop_down num_pixels cmyk_pixel pixels.

(** Grayscale + alpha to RGBA. *)
Definition gray_alpha_pixel (i : nat) (pixels : list T) : list T :=
  let pixels := <[(i * 4 + 3)%nat := rd pixels (i * 2 + 1)]> pixels in
  let pixels := <[(i * 4 + 2)%nat := rd pixels (i * 2 + 0)]> pixels in
  let pixels := <[(i * 4 + 1)%nat := rd pixels (i * 2 + 0)]> pixels in
  <[(i * 4 + 0)%nat := rd pixels (i * 2 + 0)]> pixels.

Definition gray_alpha_to_rgba (num_pixels : nat) (pixels : list T) : list T :=
  loop_down num_pixels gray_alpha_pixel pixels.

(** RGB to RGBA. *)
Definition rgb_pixel (i : nat) (pixels : list T) : list T :=
  let pixels := <[(i * 4 + 3)%nat := one]> pixels in
  let pixels := <[(i * 4 + 2)%nat := rd pixels (i * 3 + 2)]> pixels in
  let pixels := <[(i * 4 + 1)%nat := rd pixels (i * 3 + 1)]> pixels in
  <[(i * 4 + 0)%nat := rd pixels (i * 3 + 0)]> pixels.

Definition rgb_to_rgba (num_pixels : nat) (pixels : list T) : list T :=
  loop_down num_pixels rgb_pixel pixels.

(** Grayscale to RGBA. *)
Definition gray_pixel (i : nat) (pixels : list T) : list T :=
  let pixels := <[(i * 4 + 3)%nat := one]> pixels in
  let pixels := <[(i * 4 + 2)%nat := rd pixels i]> pixels in
  let pixels := <[(i * 4 + 1)%nat := rd pixels i]> pixels in
  <[(i * 4 + 0)%nat := rd pixels i]> pixels.

Definition gray_to_rgba (num_pixels : nat) (pixels : list T) : list T :=
  loop_down num_pixels gray_pixel pixels.

(** The conversion chain of the loader: "Anything that is not a single
    channel image is converted to RGBA format." *)
Definition convert_to_rgba (cmyk : bool) (components : Z) (num_pixels : nat)
    (pixels : list T) : list T :=
  if cmyk then cmyk_to_rgba num_pixels pixels
  else if components =? 2 then gray_alpha_to_rgba num_pixels pixels
  else if components =? 3 then rgb_to_rgba num_pixels pixels
  else if components =? 1 then gray_to_rgba num_pixels pixels
  else pixels.

(** Disable alpha if requested by the user. *)
Definition opaque_pixel (i : nat) (pixels : list T) : list T :=
  <[(i * 4 + 3)%nat := one]> pixels.

Definition disable_alpha (alpha : ImageAlphaType) (num_pixels : nat)
    (pixels : list T) : list T :=
  if bool_decide (alpha = IMAGE_ALPHA_IGNORE)
  then loop_down num_pixels opaque_pixel pixels
  else pixels.

(** Make sure we don't have buggy values. The body for RGBA buffers,
    [StorageType *pixel = &pixels[i * 4]; if (!isfinite(pixel[0]) || ...)]. *)
Definition zero_rgba_if_not_finite (i : nat) (pixels : list T) : list T :=
  let p := (i * 4)%nat in
  if negb (isfinite St (rd pixels (p + 0))) || negb (isfinite St (rd pixels (p + 1)))
     || negb (isfinite St (rd pixels (p + 2))) || negb (isfinite St (rd pixels (p + 3)))
  then
    let pixels := <[(p + 0)%nat := storage_zero St]> pixels in
    let pixels := <[(p + 1)%nat := storage_zero St]> pixels in
    let pixels := <[(p + 2)%nat := storage_zero St]> pixels in
    <[(p + 3)%nat := storage_zero St]> pixels
  else pixels.

(** [for (size_t i = 0; i < num_pixels; i += 4)] over that body. *)
Definition finite_guard_rgba (num_pixels : nat) (pixels : list T) : list T :=
  loop_step num_pixels 4 num_pixels 0 zero_rgba_if_not_finite pixels.

(** The body for single channel buffers, run by
    [for (size_t i = 0; i < num_pixels; ++i)]. *)
Definition zero_if_not_finite (i : nat) (pixels : list T) : list T :=
  if negb (isfinite St (rd pixels i)) then <[i := storage_zero St]> pixels else pixels.

Definition finite_guard_single (num_pixels : nat) (pixels : list T) : list T :=
  loop_step num_pixels 1 num_pixels 0 zero_if_not_finite pixels.

Definition finite_guard (is_rgba : bool) (num_pixels : nat) (pixels : list T)
  : list T :=
  if bool_decide (FileFormat St = TD_FLOAT) then
    if is_rgba then finite_guard_rgba num_pixels pixels
    else finite_guard_single num_pixels pixels
  else pixels.
End PixelStages.

(* ================================================================== *)
(** * Device buffers *)

(** The empty host array of a [device_vector] of the given pixel type. *)
Definition empty_data (type : ImageDataType) : pixel_data :=
  match type with
  | IMAGE_DATA_TYPE_FLOAT4 | IMAGE_DATA_TYPE_FLOAT => PixelsFloat []
  | IMAGE_DATA_TYPE_BYTE4 | IMAGE_DATA_TYPE_BYTE => PixelsByte []
  | IMAGE_DATA_TYPE_HALF4 | IMAGE_DATA_TYPE_HALF => PixelsHalf []
  | IMAGE_DATA_TYPE_USHORT4 | IMAGE_DATA_TYPE_USHORT => PixelsUShort []
  end.

(** [new device_vector<DeviceType>(device, name, MEM_TEXTURE)]. *)
Definition new_device_vector (type : ImageDataType) : device_memory :=
  mkDeviceMemory (empty_data type) 0 0 0 0 0 0 INTERPOLATION_NONE EXTENSION_REPEAT
    IMAGE_GRID_TYPE_DEFAULT None false.

(** The number of elements behind [alloc(width, height, depth)], where a zero
    height or depth counts as one ([device_memory.h] is not among the sources). *)
Definition device_size (w h d : Z) : Z :=
  w * (if h =? 0 then 1 else h) * (if d =? 0 then 1 else d).

(** [tex_img->alloc(w, h, d)] that succeeded, the host array being [data]. *)
Definition with_alloc (data : pixel_data) (w h d : Z) (t : device_memory)
  : device_memory :=
  mkDeviceMemory data w h d (mem_dense_width t) (mem_dense_height t)
    (mem_dense_depth t) (mem_interpolation t) (mem_extension t) (mem_grid_type t)
    (mem_grid_info t) (mem_on_device t).

Definition with_dense (w h d : Z) (t : device_memory) : device_memory :=
  mkDeviceMemory (mem_data t) (mem_data_width t) (mem_data_height t)
    (mem_data_depth t) w h d (mem_interpolation t) (mem_extension t)
    (mem_grid_type t) (mem_grid_info t) (mem_on_device t).

Definition with_sampling (i : InterpolationType) (e : ExtensionType)
    (t : device_memory) : device_memory :=
  mkDeviceMemory (mem_data t) (mem_data_width t) (mem_data_height t)
    (mem_data_depth t) (mem_dense_width t) (mem_dense_height t) (mem_dense_depth t)
    i e (mem_grid_type t) (mem_grid_info t) (mem_on_device t).

Definition with_grid_type (g : ImageGridType) (t : device_memory) : device_memory :=
  mkDeviceMemory (mem_data t) (mem_data_width t) (mem_data_height t)
    (mem_data_depth t) (mem_dense_width t) (mem_dense_height t) (mem_dense_depth t)
    (mem_interpolation t) (mem_extension t) g (mem_grid_info t) (mem_on_device t).

Definition with_grid_info (g : option (list Z)) (t : device_memory) : device_memory :=
  mkDeviceMemory (mem_data t) (mem_data_width t) (mem_data_height t)
    (mem_data_depth t) (mem_dense_width t) (mem_dense_height t) (mem_dense_depth t)
    (mem_interpolation t) (mem_extension t) (mem_grid_type t) g (mem_on_device t).

(** [tex_img->copy_to_device()]. *)
Definition copy_to_device (t : device_memory) : device_memory :=
  mkDeviceMemory (mem_data t) (mem_data_width t) (mem_data_height t)
    (mem_data_depth t) (mem_dense_width t) (mem_dense_height t) (mem_dense_depth t)
    (mem_interpolation t) (mem_extension t) (mem_grid_type t) (mem_grid_info t) true.

(** The implicit conversion of a [float] to [uchar] or [uint16_t]. *)
Definition float_to_uint (bits : Z) (v : float32) : Z := F32.to_Z v mod 2 ^ bits.

(** The single pixel written by [file_load_failed], by pixel type. *)
Definition missing_pixel (type : ImageDataType) : pixel_data :=
  let scaled (c : float32) (k : Z) := F32.mul c (F32.of_Z k) in
  match type with
  | IMAGE_DATA_TYPE_FLOAT4 =>
      PixelsFloat [TEX_IMAGE_MISSING_R; TEX_IMAGE_MISSING_G;
                   TEX_IMAGE_MISSING_B; TEX_IMAGE_MISSING_A]
  | IMAGE_DATA_TYPE_FLOAT => PixelsFloat [TEX_IMAGE_MISSING_R]
  | IMAGE_DATA_TYPE_BYTE4 =>
      PixelsByte [float_to_uint 8 (scaled TEX_IMAGE_MISSING_R 255);
                  float_to_uint 8 (scaled TEX_IMAGE_MISSING_G 255);
                  float_to_uint 8 (scaled TEX_IMAGE_MISSING_B 255);
                  float_to_uint 8 (scaled TEX_IMAGE_MISSING_A 255)]
  | IMAGE_DATA_TYPE_BYTE => PixelsByte [float_to_uint 8 (scaled TEX_IMAGE_MISSING_R 255)]
  | IMAGE_DATA_TYPE_HALF4 =>
      PixelsHalf [float_to_half TEX_IMAGE_MISSING_R; float_to_half TEX_IMAGE_MISSING_G;
                  float_to_half TEX_IMAGE_MISSING_B; float_to_half TEX_IMAGE_MISSING_A]
  | IMAGE_DATA_TYPE_HALF => PixelsHalf [float_to_half TEX_IMAGE_MISSING_R]
  | IMAGE_DATA_TYPE_USHORT4 =>
      PixelsUShort [float_to_uint 16 (scaled TEX_IMAGE_MISSING_R 65535);
                    float_to_uint 16 (scaled TEX_IMAGE_MISSING_G 65535);
                    float_to_uint 16 (scaled TEX_IMAGE_MISSING_B 65535);
                    float_to_uint 16 (scaled TEX_IMAGE_MISSING_A 65535)]
  | IMAGE_DATA_TYPE_USHORT =>
      PixelsUShort [float_to_uint 16 (scaled TEX_IMAGE_MISSING_R 65535)]
  end.

(** [ImageManager::file_load_failed]: "On failure to load, we set a 1x1
    pixels pink image", store it in the record and upload it. *)
Definition file_load_failed (img : Image) (type : ImageDataType)
    (tex_img : device_memory) : Image :=
  let tex_img := with_alloc (missing_pixel type) 1 1 0 tex_img in
  (* Store image. *)
  let tex_img :=
    with_grid_type IMAGE_GRID_TYPE_DEFAULT
      (with_sampling (interpolation img) (extension img) tex_img) in
  set_mem (Some (copy_to_device tex_img)) img.

(** [in->read_image] with a negative scanline stride writes the scanlines of
    the file bottom-up: [rows] scanlines of [k] samples each, reversed. *)
Fixpoint scanlines {A : Type} (rows k : nat) (l : list A) : list (list A) :=
  match rows with
  | O => []
  | S r => take k l :: scanlines r k (drop k l)
  end.

Definition flip_scanlines {A : Type} (rows k : nat) (l : list A) : list A :=
  concat (rev (scanlines rows k l)).

(** Samples written at the start of a buffer. (Longer data than the buffer
    overruns it in the source.) *)
Definition write_prefix {A : Type} (data buf : list A) : list A :=
  data ++ drop (length data) buf.

(* ================================================================== *)
(** * Loaders *)

Section Loaders.
Variable E : Env.

(** For typical RGBA images we let OIIO convert to associated alpha,
    but some types we want to leave the RGB channels untouched. *)
Definition image_associate_alpha (img : Image) : bool :=
  negb (colorspace_is_data E (img_colorspace img)
        || bool_decide (alpha_type img = IMAGE_ALPHA_IGNORE)
        || bool_decide (alpha_type img = IMAGE_ALPHA_CHANNEL_PACKED)).

(** [ImageManager::allocate_grid_info]: [None] when the allocation fails. *)
Definition allocate_grid_info (tex_img : device_memory) (sparse_index : list Z)
  : option device_memory :=
  if device_alloc E (Z.of_nat (length sparse_index)) 0 0
  then Some (with_grid_info (Some sparse_index) tex_img)
  else None.

(** [ImageManager::file_load_image_generic], called with an [ImageInput]
    to fill. [None] is the result [false]; [Some inp] is [true] with [*in]
    left at [inp] ([None]: not opened). *)
Definition file_load_image_generic (img : Image) : option (option ImageInput) :=
  if String.eqb (filename img) "" then None
  else
    let opened : option (option ImageInput) :=
      match builtin_data img with
      | Some _ =>
          (* load image using builtin images callbacks *)
          match builtin_image_info_cb E, builtin_image_pixels_cb E with
          | Some _, Some _ => Some None
          | _, _ => None
          end
      | None =>
          if with_openvdb E && string_endswith (filename img) ".vdb" then
            if negb (path_exists E (filename img)) || path_is_directory E (filename img)
            then None
            else if negb (openvdb_has_grid E (filename img) (grid_name img)) then None
            else Some None
          else if negb (path_exists E (filename img))
                  || path_is_directory E (filename img) then None
          (* load image from file through OIIO *)
          else if negb (image_input_create E (filename img)) then None
          else
            match image_input_open E (filename img) (negb (image_associate_alpha img)) with
            | None => None
            | Some inp => Some (Some inp)
            end
      end in
    match opened with
    | None => None
    | Some inp =>
        (* we only handle certain number of components *)
        if (1 <=? channels (metadata img)) && (channels (metadata img) <=? 4)
        then Some inp else None
    end.

(** [file_load_image_generic(img, NULL)], the call of [file_load_extern_vdb]:
    the same function run without an [ImageInput] to fill. [Some b] is the
    result [b]. The OpenImageIO branch assigns to [*in] and the rejection of
    the channel count tests [*in]; with [in == NULL] both go through a null
    pointer, and the result is [None]. *)
Definition file_load_image_generic_NULL (img : Image) : option bool :=
  if String.eqb (filename img) "" then Some false
  else
    let opened : option bool :=
      match builtin_data img with
      | Some _ =>
          (* load image using builtin images callbacks *)
          match builtin_image_info_cb E, builtin_image_pixels_cb E with
          | Some _, Some _ => Some true
          | _, _ => Some false
          end
      | None =>
          if with_openvdb E && string_endswith (filename img) ".vdb" then
            if negb (path_exists E (filename img)) || path_is_directory E (filename img)
            then Some false
            else if negb (openvdb_has_grid E (filename img) (grid_name img)) then Some false
            else Some true
          else if negb (path_exists E (filename img))
                  || path_is_directory E (filename img) then Some false
          (* load image from file through OIIO: [*in = ...] *)
          else None
      end in
    match opened with
    | Some true =>
        (* we only handle certain number of components *)
        if (1 <=? channels (metadata img)) && (channels (metadata img) <=? 4)
        then Some true
        else (* the test of [*in] *) None
    | early => early
    end.

(** [ImageManager::file_load_extern_vdb]; only built with OpenVDB. [None]
    where [file_load_image_generic(img, NULL)] goes through the null
    pointer. *)
Definition file_load_extern_vdb (img : Image) (type : ImageDataType) : option Image :=
  let tex_img := new_device_vector type in
  (* Retrieve metadata. *)
  match file_load_image_generic_NULL img with
  | None => None
  | Some false => Some (file_load_failed img type tex_img)
  | Some true =>
      let use_pad := device_is_cuda E in
      let '(sparse_offsets, sparse_size) :=
        openvdb_load_preprocess E (filename img) (grid_name img) (isovalue img) use_pad in
      let md := metadata img in
      (* Allocate space for image. *)
      let '(grid, (w, h, d)) :=
        if use_pad && (-1 <? sparse_size) then
          (IMAGE_GRID_TYPE_SPARSE_PAD,
           (sparse_size / (PADDED_TILE E * PADDED_TILE E
                           * (if bool_decide (type = IMAGE_DATA_TYPE_FLOAT4)
                              then 4 else 1)),
            PADDED_TILE E, PADDED_TILE E))
        else if -1 <? sparse_size then (IMAGE_GRID_TYPE_SPARSE, (sparse_size, 0, 0))
        else (IMAGE_GRID_TYPE_DEFAULT, (width md, height md, depth md)) in
      let tex_img := with_grid_type grid tex_img in
      if negb (device_alloc E w h d) then
        (* Could be that we've run out of memory. *)
        Some (file_load_failed img type tex_img)
      else
        (* Load image. *)
        let pixels :=
          openvdb_load_image E (filename img) (grid_name img) sparse_offsets
            sparse_size use_pad in
        let tex_img := with_alloc (PixelsFloat pixels) w h d tex_img in
        (* Allocate space for sparse_index if it exists. *)
        let with_info :=
          if -1 <? sparse_size then allocate_grid_info tex_img sparse_offsets
          else Some tex_img in
        match with_info with
        | None => Some (file_load_failed img type tex_img)
        | Some tex_img =>
            (* Set metadata and copy. *)
            let tex_img := with_dense (width md) (height md) (depth md) tex_img in
            let tex_img := with_sampling (interpolation img) (extension img) tex_img in
            Some (set_mem (Some (copy_to_device tex_img)) img)
        end
  end.

(** [while (max_size * scale_factor > texture_limit) scale_factor *= 0.5f].
    Halving reaches zero after fewer than 300 steps from any binary32 value. *)
Fixpoint scale_down (fuel : nat) (max_size texture_limit : Z) (scale_factor : float32)
  : float32 :=
  match fuel with
  | O => scale_factor
  | S fuel' =>
      if F32.ltb (F32.of_Z texture_limit) (F32.mul (F32.of_Z max_size) scale_factor)
      then scale_down fuel' max_size texture_limit
             (F32.mul scale_factor (F32.of_ratio 1 2))
      else scale_factor
  end.

Section FileLoadImage.
Context {T : Type} (St : Storage T).

(** The pixels the loader starts from: read through OpenImageIO when the
    input was opened, through the host callbacks otherwise. The flag is
    [cmyk]. *)
Definition read_pixels (img : Image) (inp : option ImageInput)
    (num_pixels : nat) (pixels : list T) : list T * bool :=
  let md := metadata img in
  let components := channels md in
  match inp with
  | Some i =>
      (* Read pixels through OpenImageIO. *)
      let data := of_pixel_data St (in_read i (FileFormat St)) in
      let data :=
        if depth md <=? 1
        then flip_scanlines (Z.to_nat (height md))
               (Z.to_nat (width md) * Z.to_nat components) data
        else data in
      let pixels :=
        if components >? 4 then
          let dimensions := Z.to_nat (width md * height md) in
          let c := Z.to_nat components in
          loop_down dimensions (fun i pixels =>
            let pixels := <[(i * 4 + 3)%nat := rd St data (i * c + 3)]> pixels in
            let pixels := <[(i * 4 + 2)%nat := rd St data (i * c + 2)]> pixels in
            let pixels := <[(i * 4 + 1)%nat := rd St data (i * c + 1)]> pixels in
            <[(i * 4 + 0)%nat := rd St data (i * c + 0)]> pixels) pixels
        else write_prefix data pixels in
      (pixels, String.eqb (in_format_name i) "jpeg" && (components =? 4))
  | None =>
      (* Read pixels through callback. *)
      let count := Z.of_nat num_pixels * components in
      let pixels :=
        if bool_decide (FileFormat St = TD_FLOAT) then
          write_prefix
            (of_pixel_data St
               (PixelsFloat
                  (builtin_image_float_pixels_cb E (filename img) (builtin_data img) 0
                     count (image_associate_alpha img) (builtin_free_cache md))))
            pixels
        else if bool_decide (FileFormat St = TD_UINT8) then
          match builtin_image_pixels_cb E with
          | Some cb =>
              write_prefix
                (of_pixel_data St
                   (PixelsByte
                      (cb (filename img) (builtin_data img) 0 count
                         (image_associate_alpha img) (builtin_free_cache md))))
                pixels
          | None => pixels
          end
        else pixels in
      (pixels, false)
  end.

(** The in-place work of the loader between reading and scaling: RGBA
    conversion, alpha override, colour space, finite guard. *)
Definition process_pixels (img : Image) (type : ImageDataType) (cmyk : bool)
    (num_pixels : nat) (pixels : list T) : list T :=
  let md := metadata img in
  (* The kernel can handle 1 and 4 channel images. *)
  let is_rgba := is_rgba_type type in
  let pixels :=
    if is_rgba then
      let pixels := convert_to_rgba St cmyk (channels md) num_pixels pixels in
      let pixels := disable_alpha St (alpha_type img) num_pixels pixels in
      if negb (String.eqb (colorspace md) (u_colorspace_raw E))
         && negb (String.eqb (colorspace md) (u_colorspace_srgb E))
      then
        (* Convert to scene linear. *)
        of_pixel_data St
          (to_scene_linear E (colorspace md) (to_pixel_data St pixels) (width md)
             (height md) (depth md) (compress_as_srgb md))
      else pixels
    else pixels in
  finite_guard St is_rgba num_pixels pixels.

(** [ImageManager::file_load_image<FileFormat, StorageType, DeviceType>]:
    the returned flag and the record afterwards. [DeviceType] is the
    4-wide vector of [StorageType] exactly for the RGBA pixel types. *)
Definition file_load_image (img : Image) (type : ImageDataType)
    (texture_limit : Z) : bool * Image :=
  match file_load_image_generic img with
  | None => (false, img)
  | Some inp =>
      let tex_img :=
        with_sampling (interpolation img) (extension img)
          (with_grid_type IMAGE_GRID_TYPE_DEFAULT (new_device_vector type)) in
      (* Get metadata. *)
      let md := metadata img in
      let '(width, height, depth) := (width md, height md, depth md) in
      let components := channels md in
      let is_rgba := is_rgba_type type in
      let device_elements : Z := if is_rgba then 4 else 1 in
      (* Read pixels. *)
      let max_size := Z.max (Z.max width height) depth in
      if max_size =? 0 then
        (* Don't bother with empty images. *)
        (false, img)
      else
        let num_pixels := Z.to_nat (width * height * depth) in
        (* Allocate memory as needed, may be smaller to resize down. *)
        let use_storage := (0 <? texture_limit) && (texture_limit <? max_size) in
        let allocated : option (list T) :=
          if use_storage then Some (replicate (num_pixels * 4) (storage_zero St))
          else if device_alloc E width height depth then
            Some (replicate (Z.to_nat (device_size width height depth * device_elements))
                    (storage_zero St))
          else None in
        match allocated with
        | None =>
            (* Could be that we've run out of memory. *)
            (false, img)
        | Some pixels =>
            let '(pixels, cmyk) := read_pixels img inp num_pixels pixels in
            let pixels := process_pixels img type cmyk num_pixels pixels in
            (* Scale image down if needed. *)
            let '(pixels, (width, height, depth)) :=
              if use_storage && (0 <? num_pixels)%nat then
                let scale_factor := scale_down 300 max_size texture_limit F32.one in
                let '(scaled, dims) :=
                  util_image_resize_pixels E (to_pixel_data St pixels) width height
                    depth device_elements scale_factor in
                (of_pixel_data St scaled, dims)
              else (pixels, (width, height, depth)) in
            (* Compress image if needed. *)
            let sparse : option (list T * list Z * ImageGridType * (Z * Z * Z)) :=
              if is_volume img then
                if device_is_cuda E then
                  match create_sparse_grid_pad E (to_pixel_data St pixels) width
                          height depth components (filename img) (isovalue img) with
                  | Some (sp, offsets, res) =>
                      Some (of_pixel_data St sp, offsets, IMAGE_GRID_TYPE_SPARSE_PAD, res)
                  | None => None
                  end
                else
                  match create_sparse_grid E (to_pixel_data St pixels) width height
                          depth components (filename img) (isovalue img) with
                  | Some (sp, offsets) =>
                      let sp := of_pixel_data St sp in
                      Some (sp, offsets, IMAGE_GRID_TYPE_SPARSE,
                            (Z.of_nat (length sp) / components, 1, 1))
                  | None => None
                  end
              else None in
            let stored (tex_img : device_memory) (pixels : list T) (w h d : Z) :=
              (* Store image. *)
              let n := Z.to_nat (device_size w h d * device_elements) in
              let tex_img := with_alloc (to_pixel_data St (take n pixels)) w h d tex_img in
              let tex_img := with_dense width height depth tex_img in
              (true, set_mem (Some (copy_to_device tex_img)) img) in
            match sparse with
            | Some (sp, offsets, grid, (rx, ry, rz)) =>
                match allocate_grid_info tex_img offsets with
                | None =>
                    (* Could be that we've run out of memory. *)
                    (false, file_load_failed img type tex_img)
                | Some tex_img =>
                    let tex_img := with_grid_type grid tex_img in
                    (* For sparse grids, the dimensions of the image do not
                       match the required storage space. *)
                    if -1 <? rx then stored tex_img sp rx ry rz
                    else stored tex_img sp width height depth
                end
            | None => stored tex_img pixels width height depth
            end
        end
  end.
End FileLoadImage.
End Loaders.

(* ================================================================== *)
(** * Device upload coordinator *)

Definition name_from_type (type : ImageDataType) : string :=
  match type with
  | IMAGE_DATA_TYPE_FLOAT4 => "float4"
  | IMAGE_DATA_TYPE_BYTE4 => "byte4"
  | IMAGE_DATA_TYPE_HALF4 => "half4"
  | IMAGE_DATA_TYPE_FLOAT => "float"
  | IMAGE_DATA_TYPE_BYTE => "byte"
  | IMAGE_DATA_TYPE_HALF => "half"
  | IMAGE_DATA_TYPE_USHORT4 => "ushort4"
  | IMAGE_DATA_TYPE_USHORT => "ushort"
  end.

(** [name_from_grid_type], which takes the grid type as an [int]: the
    [default] label covers every other value. *)
Definition name_from_grid_type (type : ImageGridType) : string :=
  match type with
  | IMAGE_GRID_TYPE_SPARSE => "sparse"
  | IMAGE_GRID_TYPE_SPARSE_PAD => "padded sparse"
  | IMAGE_GRID_TYPE_OPENVDB => "OpenVDB"
  | IMAGE_GRID_TYPE_DEFAULT => "dense"
  end.

(** [printf("%03d", n)]: at least three characters, zero padded, sign first. *)
Definition format_03d (n : Z) : string :=
  let digits := DecimalString.NilZero.string_of_uint (N.to_uint (Z.to_N (Z.abs n))) in
  let room := if n <? 0 then 2%nat else 3%nat in
  let zeros := String.concat "" (replicate (room - String.length digits)%nat "0"%string) in
  let sign : string := if n <? 0 then "-" else "" in
  String.append sign (String.append zeros digits).

(** The position of the last ['.'] of a string, [string::rfind('.')]. *)
Fixpoint rfind_dot (s : string) (pos : nat) : option nat :=
  match s with
  | EmptyString => None
  | String c s' =>
      match rfind_dot s' (S pos) with
      | Some p => Some p
      | None => if Ascii.eqb c (Ascii.ascii_of_nat 46) then Some pos else None
      end
  end.

(** [scene->params], the fields the loaders read. *)
Record SceneParams : Type := mkSceneParams {
  texture_limit : Z;
  use_custom_cache_path : bool;
  custom_cache_path : string;
  auto_convert : bool
}.

(** An entry of [OIIOGlobals::textures]. The interpolation and wrap modes of
    [OIIO::TextureOpt] are named by the Cycles modes they are chosen for:
    [InterpSmartBicubic], [InterpBicubic], [InterpBilinear], [InterpClosest]
    and [WrapBlack] (clip), [WrapClamp] (extend), [WrapPeriodic] (repeat). *)
Record OIIOTexture : Type := mkOIIOTexture {
  tex_handle : option positive;
  tex_interpolation : InterpolationType;
  tex_extension : ExtensionType;
  tex_is_linear : bool
}.

Definition empty_texture : OIIOTexture :=
  mkOIIOTexture None INTERPOLATION_NONE EXTENSION_REPEAT false.

Section Coordinator.
Variable E : Env.

(** [ImageManager::make_tx]: the attributes of the [ImageSpec config] handed
    to [make_texture], in the order they are set. *)
Definition make_tx (fname outputfilename : string) (cs : ustring) (ext : ExtensionType)
  : bool :=
  let config : list (string * string) :=
    [ ("maketx:filtername", "lanczos3"); ("maketx:opaque_detect", "1");
      ("maketx:highlightcomp", "1"); ("maketx:oiio_options", "1");
      ("maketx:updatemode", "1") ]%string
    ++ [ ("maketx:wrap"%string,
          match ext with
          | EXTENSION_CLIP => "black"
          | EXTENSION_REPEAT => "periodic"
          | EXTENSION_EXTEND => "clamp"
          end%string) ]
    (* Convert textures to linear color space before mip mapping. *)
    ++ (if negb (String.eqb cs (u_colorspace_raw E)) then
          [ ("maketx:incolorspace"%string,
             if String.eqb cs (u_colorspace_srgb E) || String.eqb cs ""
             then "sRGB"%string else cs);
            ("maketx:outcolorspace", "linear")%string ]
        else []) in
  make_texture E fname outputfilename config.

(** [ImageManager::get_tx]: the flag and the record, whose [filename] may
    have been redirected to the mip-mapped file. *)
Definition get_tx (image : Image) (auto : bool) (cache_path : option string)
  : bool * Image :=
  if negb (path_exists E (filename image)) then (false, image)
  else
    let idx := rfind_dot (filename image) 0 in
    let is_tx :=
      match idx with
      | Some i =>
          let n := String.length (filename image) in
          String.eqb (String.substring (i + 1) (n - (i + 1)) (filename image)) "tx"
      | None => false
      end in
    if is_tx then (true, image)
    else
      let stem :=
        match idx with
        | Some i => String.substring 0 i (filename image)
        | None => filename image
        end in
      let tx_name := (stem ++ ".tx")%string in
      let tx_name :=
        match cache_path with
        | Some dir => path_join E dir (path_filename E tx_name)
        | None => tx_name
        end in
      if path_exists E tx_name then (true, set_filename tx_name image)
      else if auto then
        if make_tx (filename image) tx_name (colorspace (metadata image)) (extension image)
        then (true, set_filename tx_name image)
        else (false, image)
      else (false, image).

(** The entry [device_load_image] writes into [oiio->textures[flat_slot]]. *)
Definition oiio_entry (img : Image) (have_mip : bool) (old : OIIOTexture) : OIIOTexture :=
  match get_texture_handle E (filename img) with
  | Some h =>
      mkOIIOTexture (Some h)
        (match interpolation img with
         | INTERPOLATION_SMART => INTERPOLATION_SMART
         | INTERPOLATION_CUBIC => INTERPOLATION_CUBIC
         | INTERPOLATION_LINEAR => INTERPOLATION_LINEAR
         | _ => INTERPOLATION_CLOSEST
         end)
        (match extension img with
         | EXTENSION_CLIP => EXTENSION_CLIP
         | EXTENSION_EXTEND => EXTENSION_EXTEND
         | EXTENSION_REPEAT => EXTENSION_REPEAT
         end)
        have_mip
  | None =>
      mkOIIOTexture None (tex_interpolation old) (tex_extension old) (tex_is_linear old)
  end.

(** The loader chosen by the [switch (type)] of [device_load_image]; [None]
    where [file_load_extern_vdb] is. *)
Definition load_by_type (img : Image) (type : ImageDataType) (limit : Z) : option Image :=
  let is_extern_vdb := string_endswith (filename img) ".vdb" in
  match type with
  | IMAGE_DATA_TYPE_FLOAT4 =>
      if with_openvdb E && is_extern_vdb then file_load_extern_vdb E img type
      else Some (snd (file_load_image E Storage_float img type limit))
  | IMAGE_DATA_TYPE_FLOAT =>
      if with_openvdb E && is_extern_vdb then file_load_extern_vdb E img type
      else Some (snd (file_load_image E Storage_float img type limit))
  | IMAGE_DATA_TYPE_BYTE4 => Some (snd (file_load_image E Storage_uchar img type limit))
  | IMAGE_DATA_TYPE_BYTE => Some (snd (file_load_image E Storage_uchar img type limit))
  | IMAGE_DATA_TYPE_HALF4 => Some (snd (file_load_image E Storage_half img type limit))
  | IMAGE_DATA_TYPE_HALF => Some (snd (file_load_image E Storage_half img type limit))
  | IMAGE_DATA_TYPE_USHORT4 => Some (snd (file_load_image E Storage_uint16 img type limit))
  | IMAGE_DATA_TYPE_USHORT => Some (snd (file_load_image E Storage_uint16 img type limit))
  end.

(** [ImageManager::device_load_image]. [cancel] is what
    [progress->get_cancel()] answers on entry. Both callers pass a slot
    inside the vector; the manager and the texture table come back, [None]
    where the loader goes through a null pointer. *)
Definition device_load_image (m : ImageManager) (oiio : list OIIOTexture)
    (params : SceneParams) (type : ImageDataType) (slot : nat) (cancel : bool)
  : option (ImageManager * list OIIOTexture) :=
  if cancel then Some (m, oiio)
  else
    match images m type !! slot with
    | None | Some None => Some (m, oiio)
    | Some (Some img) =>
        if oiio_texture_system m && negb (bool_decide (is_Some (builtin_data img))) then
          (* Get or generate a mip mapped tile image file. *)
          let cache_path :=
            if use_custom_cache_path params then Some (custom_cache_path params)
            else None in
          let '(have_mip, img) := get_tx img (auto_convert params) cache_path in
          let oiio :=
            if device_has_oiio_memory E then
              let flat_slot :=
                Z.to_nat (type_index_to_flattened_slot (Z.of_nat slot) type) in
              let oiio :=
                if (length oiio <=? flat_slot)%nat
                then oiio ++ replicate (flat_slot + 1 - length oiio) empty_texture
                else oiio in
              <[flat_slot := oiio_entry img have_mip (default empty_texture (oiio !! flat_slot))]>
                oiio
            else oiio in
          Some (set_image_at m type slot (Some (set_need_load false img)), oiio)
        else
          (* Slot assignment *)
          let flat_slot := type_index_to_flattened_slot (Z.of_nat slot) type in
          let img :=
            set_mem_name
              ("__tex_image_" ++ name_from_type type ++ "_" ++ format_03d flat_slot)%string
              img in
          (* Free previous texture in slot. *)
          let img := set_mem None img in
          (* Create new texture. *)
          img ← load_by_type img type (texture_limit params);
          Some (set_image_at m type slot (Some (set_need_load false img)), oiio)
    end.

(** [ImageManager::device_free_image]. *)
Definition device_free_image (m : ImageManager) (type : ImageDataType) (slot : nat)
  : ImageManager :=
  match images m type !! slot with
  | Some (Some img) =>
      let m := set_image_at m type slot None in
      set_tex_num_images (upd (tex_num_images m) type (tex_num_images m type - 1)) m
  | _ => m
  end.

(** One step of the slot walk of [device_update]. The tasks pushed on the
    pool touch only their own record, so each runs where it is pushed. *)
Definition device_update_step (params : SceneParams)
    (cancel : ImageDataType -> nat -> bool) (type : ImageDataType)
    (st : ImageManager * list OIIOTexture) (slot : nat)
  : option (ImageManager * list OIIOTexture) :=
  let '(m, oiio) := st in
  match images m type !! slot with
  | Some (Some img) =>
      if users img =? 0 then Some (device_free_image m type slot, oiio)
      else if need_load img
      then device_load_image m oiio params type slot (cancel type slot)
      else Some st
  | _ => Some st
  end.

(** The inner loop of [device_update] over the slots of one type. *)
Definition device_update_slots (params : SceneParams)
    (cancel : ImageDataType -> nat -> bool) (st : ImageManager * list OIIOTexture)
    (type : ImageDataType) : option (ImageManager * list OIIOTexture) :=
  fold_left (fun acc slot => st ← acc; device_update_step params cancel type st slot)
    (seq 0 (length (images (fst st) type))) (Some st).

(** [ImageManager::device_update]. [cancel type slot] is the answer of
    [progress.get_cancel()] when the loader of that slot starts. *)
Definition device_update (m : ImageManager) (oiio : list OIIOTexture)
    (params : SceneParams) (cancel : ImageDataType -> nat -> bool)
  : option (ImageManager * list OIIOTexture) :=
  if negb (need_update m) then Some (m, oiio)
  else
    st ← fold_left (fun acc type => st ← acc; device_update_slots params cancel st type)
           all_types (Some (m, oiio));
    (* pool.wait_work(); *)
    Some (set_need_update false (fst st), snd st).

(** [ImageManager::device_update_slot]; [None] where the subscript or the
    assertion fails, and where the loader goes through a null pointer. *)
Definition device_update_slot (m : ImageManager) (oiio : list OIIOTexture)
    (params : SceneParams) (flat_slot : Z) (cancel : bool)
  : option (ImageManager * list OIIOTexture) :=
  let '(slot, type) := flattened_slot_to_type_index flat_slot in
  match image_at m type slot with
  | Some (Some image) =>
      if users image =? 0 then Some (device_free_image m type (Z.to_nat slot), oiio)
      else if need_load image
      then device_load_image m oiio params type (Z.to_nat slot) cancel
      else Some (m, oiio)
  | _ => None
  end.

(** [ImageManager::get_mip_map_path]. *)
Definition get_mip_map_path (fname : string) : string :=
  if negb (path_exists E fname) then ""
  else
    let idx := rfind_dot fname 0 in
    let is_tx :=
      match idx with
      | Some i =>
          String.eqb (String.substring (i + 1) (String.length fname - (i + 1)) fname) "tx"
      | None => false
      end in
    if is_tx then fname
    else
      let stem :=
        match idx with
        | Some i => String.substring 0 i fname
        | None => fname
        end in
      let tx_name := (stem ++ ".tx")%string in
      if path_exists E tx_name then tx_name else "".



(** One step of the slot walk of [device_free_builtin]. *)
Definition device_free_builtin_step (type : ImageDataType) (m : ImageManager)
    (slot : nat) : ImageManager :=
  match images m type !! slot with
  | Some (Some img) =>
      if bool_decide (is_Some (builtin_data img)) then device_free_image m type slot
      else m
  | _ => m
  end.

(** [ImageManager::device_free_builtin]. *)
Definition device_free_builtin (m : ImageManager) : ImageManager :=
  fold_left (fun m type =>
    fold_left (device_free_builtin_step type) (seq 0 (length (images m type))) m)
    all_types m.

(** [ImageManager::device_free]: every slot is handed to [device_free_image],
    then the vector is cleared. *)
Definition device_free (m : ImageManager) : ImageManager :=
  fold_left (fun m type =>
    let m :=
      fold_left (fun m slot => device_free_image m type slot)
        (seq 0 (length (images m type))) m in
    set_images (upd (images m) type []) m) all_types m.

(** [ImageManager::collect_statistics]: the entries added to
    [stats->image.textures], in order. [memory_size] is
    [device_memory::memory_size]. [None]: [image->filename] or
    [image->mem->memory_size()] went through a [NULL] pointer. *)
Definition collect_statistics (memory_size : device_memory -> Z) (m : ImageManager)
  : option (list (string * Z)) :=
  foldl (fun acc type =>
    stats ← acc;
    entries ← mapM (fun entry : option Image =>
                 image ← entry;
                 buf ← mem image;
                 Some (path_filename E (filename image), memory_size buf))
               (images m type);
    Some (stats ++ entries)) (Some []) all_types.
End Coordinator.

(* ================================================================== *)
(** * Merge compositor ([render/merge.cpp]) *)

Module Merge.

Inductive MergeChannelOp : Type :=
| MERGE_CHANNEL_NOP
| MERGE_CHANNEL_COPY
| MERGE_CHANNEL_SUM
| MERGE_CHANNEL_AVERAGE.

#[global] Instance MergeChannelOp_eq_dec : EqDecision MergeChannelOp.
Proof. solve_decision. Defined.

Record MergeImagePass : Type := mkPass {
  (** Full channel name. *)
  channel_name : string;
  (** Channel format in the file. *)
  format : BaseType;
  (** Type of operation to perform when merging. *)
  op : MergeChannelOp;
  (** Offset of layer channels in input image. *)
  offset : Z;
  (** Offset of layer channels in merged image. *)
  merge_offset : Z
}.

Record MergeImageLayer : Type := mkLayer {
  (** Layer name. *)
  name : string;
  (** Passes. *)
  passes : list MergeImagePass;
  (** Sample amount that was used for rendering this layer. *)
  samples : Z
}.

(** [OIIO::ImageSpec] as the compositor reads and writes it. [multiView]
    is the attribute of that name: whether it is a string and its array
    length. Attributes are looked up by name, as strings. *)
Record Spec : Type := mkSpec {
  width : Z;
  height : Z;
  depth : Z;
  nchannels : Z;
  spec_format : BaseType;
  deep : bool;
  channelnames : list string;
  channelformats : list BaseType;
  multiView : option (bool * Z);
  attributes : gmap string string
}.

(** An opened input: its spec and what [read_image(TypeDesc::FLOAT, ...)]
    delivers, [None] when the read fails. *)
Record Input : Type := mkInput {
  spec : Spec;
  read_image : option (list float32)
}.

Record MergeImage : Type := mkMergeImage {
  (** OIIO file handle. *)
  in_ : Input;
  (** Image file path. *)
  filepath : string;
  (** Render layers. *)
  layers : list MergeImageLayer
}.

(** ** Channel parsing *)

Definition string_startswith (s prefix : string) : bool :=
  String.prefix prefix s.

Definition parse_channel_operation (pass_name : string) : MergeChannelOp :=
  if String.eqb pass_name "Depth" || String.eqb pass_name "IndexMA"
     || String.eqb pass_name "IndexOB" || string_startswith pass_name "Crypto"
  then MERGE_CHANNEL_COPY
  else if string_startswith pass_name "Debug BVH"
          || string_startswith pass_name "Debug Ray"
          || string_startswith pass_name "Debug Render Time"
  then MERGE_CHANNEL_SUM
  else MERGE_CHANNEL_AVERAGE.

(** Splits in at its last dot: the part before it and the suffix after it;
    [None] when no dot was found. *)
Definition split_last_dot (s : string) : option (string * string) :=
  match rfind_dot s 0 with
  | None => None
  | Some pos =>
      Some (String.substring 0 pos s,
            String.substring (pos + 1) (String.length s - (pos + 1)) s)
  end.

(** Separate channel names as generated by Blender.
    Multiview format: RenderLayer.Pass.View.Channel
    Otherwise: RenderLayer.Pass.Channel.
    The result is (renderlayer, pass, channel). *)
Definition parse_channel_name (nm : string) (multiview_channels : bool)
  : option (string * string * string) :=
  match split_last_dot nm with
  | None => None
  | Some (nm, channel) =>
      let with_view : option (string * string) :=
        if multiview_channels then split_last_dot nm else Some (nm, ""%string) in
      match with_view with
      | None => None
      | Some (nm, view) =>
          match split_last_dot nm with
          | None => None
          | Some (nm, pass) =>
              let renderlayer :=
                if multiview_channels
                then String.append nm (String.append "." view) else nm in
              Some (renderlayer, pass, channel)
          end
      end
  end.

(** [file_layers[layername].passes.push_back(pass)] on a [std::map], kept
    as a list ordered by key the way the map iterates. *)
Fixpoint layers_push (layername : string) (pass : MergeImagePass)
    (file_layers : list (string * list MergeImagePass))
  : list (string * list MergeImagePass) :=
  match file_layers with
  | [] => [(layername, [pass])]
  | (k, ps) :: rest =>
      match String.compare layername k with
      | Eq => (k, ps ++ [pass]) :: rest
      | Lt => (layername, [pass]) :: file_layers
      | Gt => (k, ps) :: layers_push layername pass rest
      end
  end.

Definition is_space (c : Ascii.ascii) : bool :=
  let n := Ascii.nat_of_ascii c in
  (n =? 32)%nat || ((9 <=? n)%nat && (n <=? 13)%nat).

Fixpoint skip_spaces (s : string) : string :=
  match s with
  | String c s' => if is_space c then skip_spaces s' else s
  | EmptyString => s
  end.

Fixpoint scan_digits (s : string) (acc : option Z) : option Z :=
  match s with
  | String c s' =>
      let n := Ascii.nat_of_ascii c in
      if (48 <=? n)%nat && (n <=? 57)%nat
      then scan_digits s' (Some (default 0 acc * 10 + Z.of_nat (n - 48)))
      else acc
  | EmptyString => acc
  end.

(** The number [strtol] returns for a digit string of value [v]: it stops
    at the bounds of [long], 64 bits wide. *)
Definition strtol_range (v : Z) : Z := Z.max (- 2 ^ 63) (Z.min v (2 ^ 63 - 1)).

(** [sscanf(s, "%d", &value)] with [int value]: the returned count ([-1] at
    end of input before a conversion) and the value stored, if one was. The
    C library converts the digits as [strtol] does and stores the result
    through the [int *], which keeps its low 32 bits. *)
Definition sscanf_d (s : string) : Z * option Z :=
  match skip_spaces s with
  | EmptyString => (-1, None)
  | String c s' as t =>
      let n := Ascii.nat_of_ascii c in
      let '(neg, digits) :=
        if (n =? 45)%nat then (true, s')
        else if (n =? 43)%nat then (false, s') else (false, t) in
      match scan_digits digits None with
      | Some v => (1, Some (wrap_int32 (strtol_range (if neg then - v else v))))
      | None => (0, None)
      end
  end.

Definition get_string_attribute (sp : Spec) (key : string) (dflt : string) : string :=
  default dflt (attributes sp !! key).

Definition layer_samples_key (nm : string) : string :=
  String.append "cycles." (String.append nm ".samples").

(** The second loop of [parse_channels]: the sample count of each layer. *)
Fixpoint finish_layers (in_spec : Spec)
    (file_layers : list (string * list MergeImagePass))
  : string + list MergeImageLayer :=
  match file_layers with
  | [] => inr []
  | (nm, ps) :: rest =>
      (* Determine number of samples from metadata. *)
      let scanned : string + Z :=
        if String.eqb nm "" then inr 1
        else
          let sample_string := get_string_attribute in_spec (layer_samples_key nm) "" in
          if String.eqb sample_string "" then inr 0
          else
            match sscanf_d sample_string with
            | (0, _) =>
                inl (String.append "Failed to parse samples metadata: " sample_string)
            | (_, Some v) => inr v
            | (_, None) => inr 0
            end in
      match scanned with
      | inl e => inl e
      | inr n =>
          if n <? 1 then
            inl (String.append "No sample number specified in the file for layer "
                   (String.append nm " or on the command line"))
          else
            match finish_layers in_spec rest with
            | inl e => inl e
            | inr ls => inr (mkLayer nm ps n :: ls)
            end
      end
  end.

(** [parse_channels]: the layers, or the error message. *)
Definition parse_channels (in_spec : Spec) : string + list MergeImageLayer :=
  let multiview_channels :=
    match multiView in_spec with
    | Some (is_string, arraylen) => is_string && (2 <=? arraylen)
    | None => false
    end in
  (* Loop over all the channels in the file, parse their name and sort them
     by RenderLayer. *)
  let file_layers :=
    foldl (fun file_layers i =>
      let cname := default ""%string (channelnames in_spec !! i) in
      let fmt :=
        if (0 <? length (channelformats in_spec))%nat
        then default (spec_format in_spec) (channelformats in_spec !! i)
        else spec_format in_spec in
      match parse_channel_name cname multiview_channels with
      | Some (layername, passname, _) =>
          (* Channer part of a render layer. *)
          layers_push layername
            (mkPass cname fmt (parse_channel_operation passname)
               (Z.of_nat i) (Z.of_nat i)) file_layers
      | None =>
          (* Other channels are added in unnamed layer. *)
          layers_push ""
            (mkPass cname fmt (parse_channel_operation cname)
               (Z.of_nat i) (Z.of_nat i)) file_layers
      end) [] (seq 0 (Z.to_nat (nchannels in_spec))) in
  finish_layers in_spec file_layers.

(** ** Channel and metadata merge *)

(** [for (x : l) f(state, x)] where [f] also rewrites [x]. *)
Fixpoint map_accum {S A B : Type} (f : S -> A -> S * B) (s : S) (l : list A)
  : S * list B :=
  match l with
  | [] => (s, [])
  | a :: l' =>
      let '(s, b) := f s a in
      let '(s, bs) := map_accum f s l' in
      (s, b :: bs)
  end.

(** The channel list of [out_spec] under construction, with
    [channel_total_samples], a [vector<int>]. [out_spec.nchannels] is the
    length of the names. *)
Record Channels : Type := mkChannels {
  out_names : list string;
  out_formats : list BaseType;
  channel_total_samples : list Z
}.

(** The first [i] with [name == out_spec.channelnames[i]]. *)
Fixpoint find_channel (nm : string) (names : list string) (i : nat) : option nat :=
  match names with
  | [] => None
  | n :: rest => if String.eqb nm n then Some i else find_channel nm rest (S i)
  end.

(** The body of the innermost loop of [merge_channels_metadata].
    [channel_total_samples[i] += layer.samples] adds two [int]s, in 32 bits. *)
Definition merge_pass (layer_samples : Z) (st : Channels) (pass : MergeImagePass)
  : Channels * MergeImagePass :=
  (* Test if matching channel already exists in merged image. *)
  match find_channel (channel_name pass) (out_names st) 0 with
  | Some i =>
      let totals :=
        <[i := wrap_int32 (default 0 (channel_total_samples st !! i) + layer_samples)]>
          (channel_total_samples st) in
      (* First image wins for channels that can't be averaged or summed. *)
      let op' :=
        if bool_decide (op pass = MERGE_CHANNEL_COPY) then MERGE_CHANNEL_NOP
        else op pass in
      (mkChannels (out_names st) (out_formats st) totals,
       mkPass (channel_name pass) (format pass) op' (offset pass) (Z.of_nat i))
  | None =>
      (* Add new channel. *)
      (mkChannels (out_names st ++ [channel_name pass])
         (out_formats st ++ [format pass])
         (channel_total_samples st ++ [layer_samples]),
       mkPass (channel_name pass) (format pass) (op pass) (offset pass)
         (Z.of_nat (length (out_names st))))
  end.

Definition merge_layer (st : Channels) (layer : MergeImageLayer)
  : Channels * MergeImageLayer :=
  let '(st, ps) := map_accum (merge_pass (samples layer)) st (passes layer) in
  (st, mkLayer (name layer) ps (samples layer)).

Definition merge_image (st : Channels) (image : MergeImage) : Channels * MergeImage :=
  let '(st, ls) := map_accum merge_layer st (layers image) in
  (st, mkMergeImage (in_ image) (filepath image) ls).

(** "Merge channels and compute offsets": the first half of
    [merge_channels_metadata], from the vector [channel_total_samples] the
    caller passes in. *)
Definition merge_channels (images : list MergeImage) (totals : list Z)
  : Channels * list MergeImage :=
  map_accum merge_image (mkChannels [] [] totals) images.

(** IEEE 754 binary64, the C++ [double] of the render times. *)
Definition f64_add : spec_float -> spec_float -> spec_float := SFadd 53 1024.
Definition f64_div : spec_float -> spec_float -> spec_float := SFdiv 53 1024.
Definition f64_of_Z (n : Z) : spec_float := binary_normalize 53 1024 n 0 false.

(** [printf("%d", n)]. *)
Definition format_d (n : Z) : string :=
  String.append (if n <? 0 then "-" else "")
    (DecimalString.NilZero.string_of_uint (N.to_uint (Z.to_N (Z.abs n)))).

Section Collaborators.
(** [util_time] *)
Variable time_human_readable_to_seconds : string -> spec_float.
Variable time_human_readable_from_seconds : spec_float -> string.
(** [ImageInput::open] *)
Variable open_input : string -> option Input.

(** [merge_render_time] and, with the key built by the caller,
    [merge_layer_render_time]. *)
Definition merge_render_time (sp : Spec) (images : list MergeImage) (key : string)
    (average : bool) : Spec :=
  let time :=
    foldl (fun time image =>
      f64_add time
        (time_human_readable_to_seconds
           (get_string_attribute (spec (in_ image)) key "")))
      (S754_zero false) images in
  let time :=
    if average then f64_div time (f64_of_Z (Z.of_nat (length images))) else time in
  mkSpec (width sp) (height sp) (depth sp) (nchannels sp) (spec_format sp) (deep sp)
    (channelnames sp) (channelformats sp) (multiView sp)
    (<[key := time_human_readable_from_seconds time]> (attributes sp)).

Definition merge_layer_render_time (sp : Spec) (images : list MergeImage)
    (layer_name time_name : string) (average : bool) : Spec :=
  merge_render_time sp images
    (String.append "cycles." (String.append layer_name (String.append "." time_name)))
    average.

(** [layer_num_samples[layer.name] += layer.samples] over all named layers,
    in key order; the map holds [int]s. *)
Fixpoint count_samples (nm : string) (n : Z) (acc : list (string * Z))
  : list (string * Z) :=
  match acc with
  | [] => [(nm, n)]
  | (k, v) :: rest =>
      match String.compare nm k with
      | Eq => (k, wrap_int32 (v + n)) :: rest
      | Lt => (nm, n) :: acc
      | Gt => (k, v) :: count_samples nm n rest
      end
  end.

(** [merge_channels_metadata]: the rewritten images, [out_spec] and
    [channel_total_samples]. An empty [images] has no first spec to copy. *)
Definition merge_channels_metadata (images : list MergeImage) (totals : list Z)
  : option (list MergeImage * Spec * list Z) :=
  match images with
  | [] => None
  | first :: _ =>
      (* Based on first image. *)
      let base := spec (in_ first) in
      let '(st, images) := merge_channels images totals in
      let out_spec :=
        mkSpec (width base) (height base) (depth base)
          (Z.of_nat (length (out_names st))) (spec_format base) (deep base)
          (out_names st) (out_formats st) (multiView base) (attributes base) in
      (* Merge metadata. *)
      let out_spec := merge_render_time out_spec images "RenderTime" false in
      let layer_num_samples :=
        foldl (fun acc image =>
          foldl (fun acc layer =>
            if String.eqb (name layer) "" then acc
            else count_samples (name layer) (samples layer) acc) acc (layers image))
          [] images in
      let out_spec :=
        foldl (fun sp '(nm, n) =>
          let sp :=
            mkSpec (width sp) (height sp) (depth sp) (nchannels sp) (spec_format sp)
              (deep sp) (channelnames sp) (channelformats sp) (multiView sp)
              (<[layer_samples_key nm := format_d n]> (attributes sp)) in
          let sp := merge_layer_render_time sp images nm "total_time" false in
          let sp := merge_layer_render_time sp images nm "render_time" false in
          merge_layer_render_time sp images nm "synchronization_time" true)
          out_spec layer_num_samples in
      Some (images, out_spec, channel_total_samples st)
  end.

(** ** Pixel merge *)

Inductive merge_result : Type :=
| MergeOk (out_pixels : list float32)
| MergeError (error : string)
(** a subscript outside its array, or a loop that does not advance *)
| MergeUndefined.

(** [alloc_pixels]: the size of the buffer. *)
Definition alloc_pixels (sp : Spec) : nat :=
  (Z.to_nat (width sp) * Z.to_nat (height sp) * Z.to_nat (nchannels sp))%nat.

(** [for (i = 0; i < num_pixels; i += stride) out_pixels[i + merge_offset]
    = f(out_pixels[i + merge_offset], pixels[i + offset])]. *)
Definition pixel_loop (num_pixels stride : nat) (off merge_off : nat)
    (f : float32 -> float32 -> float32) (pixels : list float32)
    (out_pixels : list float32) : option (list float32) :=
  if (stride =? 0)%nat && (0 <? num_pixels)%nat then None
  else
    loop_step num_pixels stride num_pixels 0 (fun i acc =>
      out ← acc;
      o ← out !! (i + merge_off)%nat;
      p ← pixels !! (i + off)%nat;
      Some (<[(i + merge_off)%nat := f o p]> out)) (Some out_pixels).

(** The [switch (pass.op)] of [merge_pixels] for one pass. *)
Definition merge_pass_pixels (out_spec : Spec) (totals : list Z)
    (layer : MergeImageLayer) (pixels : list float32) (num_pixels : nat)
    (out_pixels : list float32) (pass : MergeImagePass)
  : option (list float32) :=
  let stride := Z.to_nat (nchannels out_spec) in
  let off := Z.to_nat (offset pass) in
  let merge_off := Z.to_nat (merge_offset pass) in
  match op pass with
  | MERGE_CHANNEL_NOP => Some out_pixels
  | MERGE_CHANNEL_COPY =>
      pixel_loop num_pixels stride off merge_off (fun _ p => p) pixels out_pixels
  | MERGE_CHANNEL_SUM =>
      pixel_loop num_pixels stride off merge_off F32.add pixels out_pixels
  | MERGE_CHANNEL_AVERAGE =>
      (* Weights based on sample metadata. Per channel since not
         all files are guaranteed to have the same channels. *)
      total_samples ← totals !! off;
      let t := F32.div (F32.of_Z (samples layer)) (F32.of_Z total_samples) in
      pixel_loop num_pixels stride off merge_off
        (fun o p => F32.add o (F32.mul t p)) pixels out_pixels
  end.

(** The passes of all layers of one image, in order. *)
Definition merge_image_pixels (out_spec : Spec) (totals : list Z)
    (image : MergeImage) (pixels : list float32) (out_pixels : list float32)
  : option (list float32) :=
  let num_pixels := alloc_pixels (spec (in_ image)) in
  foldl (fun acc layer =>
    foldl (fun acc pass =>
      out ← acc;
      merge_pass_pixels out_spec totals layer pixels num_pixels out pass)
      acc (passes layer))
    (Some out_pixels) (layers image).

Fixpoint merge_images_pixels (out_spec : Spec) (totals : list Z)
    (images : list MergeImage) (out_pixels : list float32) : merge_result :=
  match images with
  | [] => MergeOk out_pixels
  | image :: rest =>
      (* Read all channels into buffer. *)
      match read_image (in_ image) with
      | None => MergeError (String.append "Failed to read image: " (filepath image))
      | Some pixels =>
          match merge_image_pixels out_spec totals image pixels out_pixels with
          | None => MergeUndefined
          | Some out_pixels => merge_images_pixels out_spec totals rest out_pixels
          end
      end
  end.

Definition merge_pixels (images : list MergeImage) (out_spec : Spec)
    (totals : list Z) : merge_result :=
  merge_images_pixels out_spec totals images
    (replicate (alloc_pixels out_spec) F32.zero).

(** ** Opening the inputs *)

(** [open_images], appending to [images]: the images or the error. *)
Fixpoint open_images (filepaths : list string) (images : list MergeImage)
  : string + list MergeImage :=
  match filepaths with
  | [] => inr images
  | path :: rest =>
      match open_input path with
      | None => inl (String.append "Couldn't open file: " path)
      | Some inp =>
          match parse_channels (spec inp) with
          | inl e => inl e
          | inr ls =>
              if (length ls =? 0)%nat then
                inl "Could not find a render layer for merging"%string
              else if deep (spec inp) then
                inl "Merging deep images not supported."%string
              else
                let mismatch :=
                  match images with
                  | [] => false
                  | base :: _ =>
                      let base_spec := spec (in_ base) in
                      negb (width base_spec =? width (spec inp))
                      || negb (height base_spec =? height (spec inp))
                      || negb (depth base_spec =? depth (spec inp))
                      || negb (bool_decide (spec_format base_spec = spec_format (spec inp)))
                      || negb (bool_decide (deep base_spec = deep (spec inp)))
                  end in
                if mismatch then
                  inl "Images do not have matching size and data layout."%string
                else open_images rest (images ++ [mkMergeImage inp path ls])
          end
      end
  end.

(** ** Saving the output *)

(** A file on disk: a finished image, or one that was opened for writing
    and never finished. *)
Inductive File : Type :=
| FileComplete (sp : Spec) (pixels : list float32)
| FilePartial.

(** The calls [save_output] makes on the output and the file system. *)
Inductive FsCall : Type :=
| CallCreate (path : string)
| CallOpen (path : string)
| CallWrite (path : string)
| CallClose (path : string)
| CallRename (src dst : string)
| CallRemove (path : string).

#[global] Instance FsCall_eq_dec : EqDecision FsCall.
Proof. solve_decision. Defined.

(** How [ImageOutput] and [Filesystem] answer during one [save_output].
    [open_leaves_file]: a failed [open] has created the file all the same. *)
Record OutputAnswers : Type := mkOutputAnswers {
  create_ok : bool;
  open_ok : bool;
  open_leaves_file : bool;
  write_ok : bool;
  close_ok : bool;
  rename_ok : bool;
  geterror : string;
  rename_error : string
}.

(** [OIIO::Filesystem::extension] and [OIIO::Filesystem::unique_path]. *)
Variable extension : string -> string.
Variable unique_path : string.

Definition tmp_filepath (path : string) : string :=
  let unique_name := String.append ".merge-tmp-" unique_path in
  String.append path (String.append unique_name (extension path)).

Record SaveResult : Type := mkSaveResult {
  save_ok : bool;
  (** [error], when [save_output] assigned it *)
  save_error : option string;
  save_fs : gmap string File;
  save_calls : list FsCall
}.

(** [save_output] on the file system [fs]. *)
Definition save_output (a : OutputAnswers) (fs : gmap string File)
    (path : string) (sp : Spec) (pixels : list float32) : SaveResult :=
  (* Write to temporary file path, so we merge images in place and don't
     risk destroying files when something goes wrong in file saving. *)
  let tmp := tmp_filepath path in
  if negb (create_ok a) then
    mkSaveResult false
      (Some (String.append "Failed to open temporary file "
               (String.append tmp " for writing")))
      fs [CallCreate tmp]
  (* Open temporary file and write image buffers. *)
  else if negb (open_ok a) then
    mkSaveResult false
      (Some (String.append "Failed to open file "
               (String.append tmp (String.append " for writing: " (geterror a)))))
      (if open_leaves_file a then <[tmp := FilePartial]> fs else fs)
      [CallCreate tmp; CallOpen tmp]
  else
    let fs := <[tmp := FilePartial]> fs in
    let error : option string :=
      if negb (write_ok a) then
        Some (String.append "Failed to write to file "
                (String.append tmp (String.append ": " (geterror a))))
      else None in
    let ok := write_ok a in
    let error :=
      if negb (close_ok a) then
        Some (String.append "Failed to save to file "
                (String.append tmp (String.append ": " (geterror a))))
      else error in
    let fs :=
      if write_ok a && close_ok a then <[tmp := FileComplete sp pixels]> fs else fs in
    let ok := ok && close_ok a in
    let calls := [CallCreate tmp; CallOpen tmp; CallWrite tmp; CallClose tmp] in
    (* Copy temporary file to outputput filepath. *)
    let '(ok, error, fs, calls) :=
      if ok then
        if rename_ok a then
          (true, error,
           match fs !! tmp with
           | Some f => <[path := f]> (delete tmp fs)
           | None => fs
           end,
           calls ++ [CallRename tmp path])
        else
          (false,
           Some (String.append "Failed to move merged image to "
                   (String.append path (String.append ": " (rename_error a)))),
           fs, calls ++ [CallRename tmp path])
      else (false, error, fs, calls) in
    if negb ok then mkSaveResult false error (delete tmp fs) (calls ++ [CallRemove tmp])
    else mkSaveResult true error fs calls.

(** [ImageMerger::run]: the result of [save_output], or the error that
    stopped the merge before it; [None] is an undefined pixel merge. *)
Definition run (a : OutputAnswers) (fs : gmap string File) (input : list string)
    (output : string) : option (string + SaveResult) :=
  if (length input =? 0)%nat then Some (inl "No input file paths specified."%string)
  else if String.eqb output "" then Some (inl "No output file path specified."%string)
  else
    (* Open images and verify they have matching layout. *)
    match open_images input [] with
    | inl e => Some (inl e)
    | inr images =>
        (* Merge metadata and setup channels and offsets. *)
        match merge_channels_metadata images [] with
        | None => None
        | Some (images, out_spec, totals) =>
            (* Merge pixels. *)
            match merge_pixels images out_spec totals with
            | MergeUndefined => None
            | MergeError e => Some (inl e)
            | MergeOk out_pixels =>
                (* Save output file. *)
                Some (inr (save_output a fs output out_spec out_pixels))
            end
        end
    end.
End Collaborators.
End Merge.

(* ================================================================== *)
(** * Vocabulary of the statements *)

(** The deduplication key: the arguments of [add_image] that [image_equals]
    compares. *)
Record ImageIdentity : Type := mkImageIdentity {
  id_filename : string;
  id_grid_name : string;
  id_builtin_data : option positive;
  id_interpolation : InterpolationType;
  id_extension : ExtensionType;
  id_alpha_type : ImageAlphaType;
  id_colorspace : ustring
}.

Definition identity_matches (i : ImageIdentity) (img : Image) : bool :=
  image_equals img (id_filename i) (id_grid_name i) (id_builtin_data i)
    (id_interpolation i) (id_extension i) (id_alpha_type i) (id_colorspace i).

(** [add_image] called for the identity [i]. *)
Definition add_image_id (E : Env) (m : ImageManager) (i : ImageIdentity) (anim : bool)
    (frm : float32) (is_vol : bool) (iso : float32) : Z * ImageMetaData * ImageManager :=
  add_image E m (id_filename i) (id_grid_name i) (id_builtin_data i) anim frm
    (id_interpolation i) (id_extension i) (id_alpha_type i) (id_colorspace i) is_vol iso.

(** The metadata the probe reports for [i] and the vector [add_image] files
    it under. *)
Definition probed_metadata (E : Env) (i : ImageIdentity) : ImageMetaData :=
  snd (get_image_metadata_file E (id_filename i) (id_grid_name i) (id_builtin_data i)
         (id_colorspace i)).

Definition slot_type (E : Env) (m : ImageManager) (i : ImageIdentity) : ImageDataType :=
  storage_type_for m (type (probed_metadata E i)).

(** The record [add_image] creates for a new identity. *)
Definition new_image (E : Env) (i : ImageIdentity) (anim : bool) (frm : float32)
    (is_vol : bool) (iso : float32) : Image :=
  mkImage (id_filename i) (id_grid_name i) (id_builtin_data i) (probed_metadata E i) true
    anim frm (id_interpolation i) (id_extension i) 1 (id_alpha_type i) (id_colorspace i)
    is_vol iso None "".

(** The users of the record of [i], zero when there is none. *)
Definition users_of (E : Env) (m : ImageManager) (i : ImageIdentity) : Z :=
  match find_image (identity_matches i) (images m (slot_type E m i)) 0 with
  | Some (_, img) => users img
  | None => 0
  end.

(** What the specification says of two calls [add_image(i)] in a row: they
    return the same handle, the second allocates nothing, and the record
    behind the handle is the one of [i] with two users more than before. *)
Definition add_twice_shares_record (E : Env) (m : ImageManager) (i : ImageIdentity)
    (anim : bool) (frm : float32) (is_vol : bool) (iso : float32) : Prop :=
  let r1 := add_image_id E m i anim frm is_vol iso in
  let r2 := add_image_id E r1.2 i anim frm is_vol iso in
  let t := slot_type E m i in
  r2.1.1 = r1.1.1
  /\ exists slot img,
       r1.1.1 = type_index_to_flattened_slot (Z.of_nat slot) t
       /\ images r2.2 t !! slot = Some (Some img)
       /\ identity_matches i img = true
       /\ users img = users_of E m i + 2
       /\ tex_num_images r2.2 = tex_num_images r1.2
       /\ (forall t', length (images r2.2 t') = length (images r1.2 t')).

Section AlphaVocabulary.
Context {T : Type} (St : Storage T).







End AlphaVocabulary.

(** The loader of a record gives up before a device buffer is attached:
    the file cannot be opened or decoded, the image is empty, or the device
    allocation returns no memory. *)
Definition fails_early (E : Env) (img : Image) (limit : Z) : Prop :=
  let md := metadata img in
  let max_size := Z.max (Z.max (width md) (height md)) (depth md) in
  file_load_image_generic E img = None
  \/ max_size = 0
  \/ (((0 <? limit) && (limit <? max_size) = false)
      /\ device_alloc E (width md) (height md) (depth md) = false).




(** What the specification says of a failed [save_output]: the temporary
    file was removed and none is left. *)
Definition temp_always_removed (extension : string -> string) (unique_path : string)
    (a : Merge.OutputAnswers) (fs : gmap string Merge.File) (path : string)
    (sp : Merge.Spec) (pixels : list float32) : Prop :=
  let r := Merge.save_output extension unique_path a fs path sp pixels in
  let tmp := Merge.tmp_filepath extension unique_path path in
  Merge.save_ok r = false ->
  Merge.CallRemove tmp ∈ Merge.save_calls r /\ Merge.save_fs r !! tmp = None.

(** No record before position [j] satisfies [p]. *)
Definition no_match (p : Image -> bool) (l : list (option Image)) (j : nat) : Prop :=
  forall j' i, (j' < j)%nat -> l !! j' = Some (Some i) -> p i = false.

(** The identity of a record: the fields [image_equals] compares. *)
Definition image_identity (img : Image) : ImageIdentity :=
  mkImageIdentity (filename img) (grid_name img) (builtin_data img)
    (interpolation img) (extension img) (alpha_type img) (img_colorspace img).

(** No two records of a vector have the same identity. *)
Definition no_duplicates (l : list (option Image)) : Prop :=
  forall s1 s2 i1 i2,
    l !! s1 = Some (Some i1) -> l !! s2 = Some (Some i2) ->
    image_identity i1 = image_identity i2 -> s1 = s2.

(** The number of records in a vector, empty slots left out. *)
Fixpoint count_records (l : list (option Image)) : Z :=
  match l with
  | [] => 0
  | Some _ :: l' => 1 + count_records l'
  | None :: l' => count_records l'
  end.

(** [tex_num_images[type]] is the number of records in [images[type]]. *)
Definition counters_ok (m : ImageManager) : Prop :=
  forall t, tex_num_images m t = count_records (images m t).

(** The buffer [file_load_failed] installs: one pixel of the missing-image
    colour in the layout of [type], uploaded, with the sampling modes of the
    record. *)
Definition is_placeholder (img : Image) (type : ImageDataType) (buf : device_memory)
  : Prop :=
  mem_data buf = missing_pixel type
  /\ (mem_data_width buf, mem_data_height buf, mem_data_depth buf) = (1, 1, 0)
  /\ mem_grid_type buf = IMAGE_GRID_TYPE_DEFAULT
  /\ mem_interpolation buf = interpolation img
  /\ mem_extension buf = extension img
  /\ mem_on_device buf = true.



(** How [device_free_builtin] leaves a slot. *)
Definition slot_freed_builtin (before after : option Image) : Prop :=
  match before with
  | None => after = None
  | Some img =>
      if bool_decide (is_Some (builtin_data img)) then after = None else after = Some img
  end.

Section PixelVocabulary.
Context {T : Type} (St : Storage T).

(** The four samples the RGBA conversion is to leave in pixel [p], read off
    the buffer as it was filled by the file: grey replicated, grey with its
    alpha, RGB with unit alpha, RGBA as it is, and for a CMYK JPEG the three
    inks against black, [(1 - ink) * (1 - k)], with unit alpha. *)
Definition expanded_pixel (cmyk : bool) (components : Z) (pixels : list T) (p : nat)
  : list T :=
  if cmyk then
    let k := util_image_cast_to_float St (rd St pixels (p * 4 + 3)) in
    let cv (i : nat) :=
      util_image_cast_from_float St
        (F32.mul (F32.sub F32.one (util_image_cast_to_float St (rd St pixels i)))
           (F32.sub F32.one k)) in
    [cv (p * 4)%nat; cv (p * 4 + 1)%nat; cv (p * 4 + 2)%nat; one St]
  else if components =? 1 then
    [rd St pixels p; rd St pixels p; rd St pixels p; one St]
  else if components =? 2 then
    [rd St pixels (p * 2); rd St pixels (p * 2); rd St pixels (p * 2);
     rd St pixels (p * 2 + 1)]
  else if components =? 3 then
    [rd St pixels (p * 3); rd St pixels (p * 3 + 1); rd St pixels (p * 3 + 2); one St]
  else
    [rd St pixels (p * 4); rd St pixels (p * 4 + 1); rd St pixels (p * 4 + 2);
     rd St pixels (p * 4 + 3)].
End PixelVocabulary.

(** The string holds no ['.']. *)
Fixpoint no_dot (s : string) : bool :=
  match s with
  | EmptyString => true
  | String c s' => negb (Ascii.eqb c (Ascii.ascii_of_nat 46)) && no_dot s'
  end.

(** [a], a dot, [b]. *)
Definition dotted (a b : string) : string := String.append a (String.append "." b).

(** The passes of all layers of all images in the order the merge walks
    them, each with the sample count of its layer. *)
Definition all_passes (images : list Merge.MergeImage)
  : list (Z * Merge.MergeImagePass) :=
  flat_map (fun image =>
    flat_map (fun layer => map (pair (Merge.samples layer)) (Merge.passes layer))
      (Merge.layers image)) images.

(** [merge_pass] on a pass that carries the sample count of its layer. *)
Definition merge_counted_pass (st : Merge.Channels) (np : Z * Merge.MergeImagePass)
  : Merge.Channels * (Z * Merge.MergeImagePass) :=
  let r := Merge.merge_pass np.1 st np.2 in (r.1, (np.1, r.2)).

(** The samples of the passes that are merged into output channel [k]. *)
Definition samples_merged_into (k : nat) (l : list (Z * Merge.MergeImagePass)) : Z :=
  foldr (fun np acc =>
    if decide (Merge.merge_offset np.2 = Z.of_nat k) then np.1 + acc else acc) 0 l.

(** The three channel arrays of the merged image have one entry per
    channel. *)
Definition channels_aligned (st : Merge.Channels) : Prop :=
  length (Merge.out_formats st) = length (Merge.out_names st)
  /\ length (Merge.channel_total_samples st) = length (Merge.out_names st).

(** What [merge_channels] may change of a pass: the offset in the merged
    image, and Copy into Nop. *)
Definition pass_rewritten (p p' : Merge.MergeImagePass) : Prop :=
  Merge.channel_name p' = Merge.channel_name p
  /\ Merge.format p' = Merge.format p
  /\ Merge.offset p' = Merge.offset p
  /\ (Merge.op p' = Merge.op p
      \/ (Merge.op p = Merge.MERGE_CHANNEL_COPY /\ Merge.op p' = Merge.MERGE_CHANNEL_NOP)).

(** The file stores views: its [multiView] attribute is a string array of
    at least two entries. *)
Definition has_views (sp : Merge.Spec) : bool :=
  match Merge.multiView sp with
  | Some (is_string, arraylen) => is_string && (2 <=? arraylen)
  | None => false
  end.

(** The layer a channel name belongs to: the render layer it parses to, or
    the unnamed layer. *)
Definition layer_of_channel (sp : Merge.Spec) (cname : string) : string :=
  match Merge.parse_channel_name cname (has_views sp) with
  | Some (layername, _, _) => layername
  | None => ""
  end.

(** What [parse_channels] makes of a pass: its offsets are the position of
    the channel in the file, its name is the channel name there, and it sits
    in the layer [layername] its name belongs to. *)
Definition pass_of_file (sp : Merge.Spec) (layername : string) (p : Merge.MergeImagePass)
  : Prop :=
  Merge.merge_offset p = Merge.offset p
  /\ Merge.channel_name p
     = default ""%string (Merge.channelnames sp !! Z.to_nat (Merge.offset p))
  /\ layername = layer_of_channel sp (Merge.channel_name p).

(** What [parse_channels] makes of the sample count of a layer: one for
    the unnamed layer, else the [int] that [sscanf] stored for
    [cycles.<layer>.samples], which is at least one. *)
Definition layer_samples_read (sp : Merge.Spec) (layer : Merge.MergeImageLayer) : Prop :=
  1 <= Merge.samples layer < 2 ^ 31
  /\ (Merge.name layer = ""%string -> Merge.samples layer = 1)
  /\ (Merge.name layer <> ""%string ->
      exists s, Merge.attributes sp !! Merge.layer_samples_key (Merge.name layer) = Some s
                /\ (Merge.sscanf_d s).2 = Some (Merge.samples layer)).

(** The size and data layout [open_images] compares between inputs. *)
Definition layout (sp : Merge.Spec) : Z * Z * Z * BaseType * bool :=
  (Merge.width sp, Merge.height sp, Merge.depth sp, Merge.spec_format sp, Merge.deep sp).

(** An image as [open_images] opens it from [path]: its input is what
    [open_input] answers, its layers are what [parse_channels] finds there,
    at least one, and it is not a deep image. *)
Definition opened_from (open_input : string -> option Merge.Input) (path : string)
    (image : Merge.MergeImage) : Prop :=
  Merge.filepath image = path
  /\ open_input path = Some (Merge.in_ image)
  /\ Merge.parse_channels (Merge.spec (Merge.in_ image)) = inr (Merge.layers image)
  /\ Merge.layers image <> []
  /\ Merge.deep (Merge.spec (Merge.in_ image)) = false.

(** The samples the loop of a pass works on: [merge_offset] plus a
    multiple of the stride, below [num_pixels]. *)
Definition visited (num_pixels stride merge_off x : nat) : bool :=
  (merge_off <=? x)%nat && (x - merge_off <? num_pixels)%nat
  && ((x - merge_off) mod stride =? 0)%nat.

(** The slot holds a record that has a device buffer. *)
Definition has_buffer (entry : option Image) : Prop :=
  exists img buf, entry = Some img /\ mem img = Some buf.

(* ================================================================== *)
(** * Concrete collaborators for the examples *)

Module Examples.

(** The image file stored under a path. *)
Fixpoint find_file (files : list (string * ImageInput)) (p : string)
  : option ImageInput :=
  match files with
  | [] => None
  | (k, f) :: rest => if String.eqb k p then Some f else find_file rest p
  end.

(** A file system holding the given image files and nothing else; colour
    spaces are taken as declared, the device never runs out of memory, no
    host callbacks, no OpenVDB, no sparse encoding or resizing. *)
Definition env_of_files (files : list (string * ImageInput)) : Env :=
  let find := find_file files in
  mkEnv "__builtin_raw" "__builtin_srgb"
    (fun cs _ _ => cs)
    (fun cs => String.eqb cs "__builtin_raw")
    (fun _ px _ _ _ _ => px)
    (mkImageMetaData false false 0 0 0 0 false IMAGE_DATA_TYPE_FLOAT4 "__builtin_raw" false)
    None None (fun _ _ _ _ _ _ => [])
    (fun p => bool_decide (is_Some (find p)))
    (fun _ => false)
    (fun p => p)
    false (fun _ _ => false) (fun _ => (0, 0, 0)) (fun _ _ _ _ => ([], -1))
    (fun _ _ _ _ _ => [])
    "color" "velocity"
    (fun p => bool_decide (is_Some (find p)))
    (fun p _ => find p)
    (fun _ _ _ => true)
    (fun px w h d _ _ => (px, (w, h, d)))
    (fun _ _ _ _ _ _ _ => None)
    (fun _ _ _ _ _ _ _ => None)
    false
    (fun _ _ _ => false)
    (fun d f => String.append d (String.append "/" f))
    (fun _ => None)
    false
    10.

Definition no_params : SceneParams := mkSceneParams 0 false "" false.

(** A record as [add_image] creates it, with one user. *)
Definition fresh_image (fname : string) (md : ImageMetaData) (alpha : ImageAlphaType)
  : Image :=
  mkImage fname "" None md true false F32.zero INTERPOLATION_LINEAR EXTENSION_REPEAT 1
    alpha (colorspace md) false F32.zero None "".

(** An identity with the given file name and default sampling. *)
Definition identity (fname : string) : ImageIdentity :=
  mkImageIdentity fname "" None INTERPOLATION_LINEAR EXTENSION_REPEAT IMAGE_ALPHA_AUTO
    "__builtin_raw".

(** A 2x1 float RGBA image whose two pixels both have a NaN red channel. *)
Definition nan_file : ImageInput :=
  mkImageInput (mkImageSpec 2 1 1 4 TD_FLOAT []) "openexr"
    (fun _ => PixelsFloat [S754_nan; F32.of_ratio 1 2; F32.of_ratio 1 2; F32.one;
                           S754_nan; F32.of_ratio 1 4; F32.of_ratio 1 4; F32.one]).

Definition nan_metadata : ImageMetaData :=
  mkImageMetaData true false 4 2 1 1 false IMAGE_DATA_TYPE_FLOAT4 "__builtin_raw" false.

(** A manager holding [img] alone, in slot 0 of the vector of [t]. *)
Definition manager_with (t : ImageDataType) (img : Image) : ImageManager :=
  mkImageManager true false false 0 100 true (upd (fun _ => 0) t 1)
    (upd (fun _ => []) t [Some img]).

(** A 1x1 8-bit RGBA image. *)
Definition byte_file : ImageInput :=
  mkImageInput (mkImageSpec 1 1 1 4 TD_UINT8 []) "png"
    (fun _ => PixelsByte [10; 20; 30; 255]).

Definition byte_metadata : ImageMetaData :=
  mkImageMetaData false false 4 1 1 1 false IMAGE_DATA_TYPE_BYTE4 "__builtin_srgb" false.

(** One render of a 1x1 image with the pass [A.Combined.R] of layer [A]
    and a channel [Z] outside any layer, in the name order of an EXR file. *)
Definition render (layer_samples : string) (combined : float32) : Merge.Input :=
  Merge.mkInput
    (Merge.mkSpec 1 1 1 2 TD_FLOAT false ["A.Combined.R"; "Z"]%string [] None
       {[ "cycles.A.samples"%string := layer_samples ]})
    (Some [combined; F32.one]).

(** Two such renders: 10 samples with value 0.4, 30 samples with value 0.8. *)
Definition open_render (path : string) : option Merge.Input :=
  if String.eqb path "a.exr" then Some (render "10" (F32.of_ratio 4 10))
  else if String.eqb path "b.exr" then Some (render "30" (F32.of_ratio 8 10))
  else None.

(** The render-time collaborators, constant for the examples. *)
Definition no_time (_ : string) : spec_float := S754_zero false.
Definition print_time (_ : spec_float) : string := "00:00.00".
Definition exr_extension (_ : string) : string := ".exr".

(** The same two renders with the pass [A.Combined.R] alone. *)
Definition render_single (layer_samples : string) (combined : float32) : Merge.Input :=
  Merge.mkInput
    (Merge.mkSpec 1 1 1 1 TD_FLOAT false ["A.Combined.R"]%string [] None
       {[ "cycles.A.samples"%string := layer_samples ]})
    (Some [combined]).

Definition open_render_single (path : string) : option Merge.Input :=
  if String.eqb path "a.exr" then Some (render_single "10" (F32.of_ratio 4 10))
  else if String.eqb path "b.exr" then Some (render_single "30" (F32.of_ratio 8 10))
  else None.

Definition byte4_metadata : ImageMetaData :=
  mkImageMetaData false false 4 8 8 1 false IMAGE_DATA_TYPE_BYTE4 "__builtin_srgb" false.

(** An opened render with one layer [A] of [layer_samples] samples whose
    only pass is the Copy pass [A.Depth.Z]. *)
Definition depth_image (path : string) (layer_samples : Z) : Merge.MergeImage :=
  Merge.mkMergeImage
    (Merge.mkInput
       (Merge.mkSpec 1 1 1 1 TD_FLOAT false ["A.Depth.Z"]%string [] None ∅)
       (Some [F32.one]))
    path
    [Merge.mkLayer "A"
       [Merge.mkPass "A.Depth.Z" TD_FLOAT Merge.MERGE_CHANNEL_COPY 0 0] layer_samples].

(** A 1x1 half-float RGBA image. *)
Definition half_file : ImageInput :=
  mkImageInput (mkImageSpec 1 1 1 4 TD_HALF []) "openexr"
    (fun _ => PixelsHalf [S754_zero false; S754_zero false; S754_zero false;
                          S754_zero false]).
End Examples.

(* ================================================================== *)
(** * Proof automation *)

(** Split a goal into its conjuncts, without touching the conjuncts. *)
Ltac conjuncts := repeat match goal with |- _ /\ _ => split end.

(** [bool_decide (x = x)] is [true]. *)
Ltac decide_refl :=
  repeat match goal with
         | |- context [bool_decide (?x = ?x)] =>
             rewrite (bool_decide_eq_true_2 (x = x) eq_refl)
         end.

(** A loop body made of stores into pixel [i] leaves the other pixels and
    the length of the buffer alone. *)
Ltac frame_of body :=
  intros i b0 j Hj; unfold body; cbv zeta;
  rewrite !list_lookup_insert_ne by lia; reflexivity.

Ltac length_of body :=
  intros i b0; unfold body; cbv zeta; rewrite !length_insert; reflexivity.

(** Case analysis on every match of the goal, innermost scrutinee first. *)
Ltac destruct_matches :=
  repeat match goal with
         | |- context [match ?x with _ => _ end] =>
             lazymatch x with
             | context [match _ with _ => _ end] => fail
             | _ => destruct x
             end
         end.

(** A call that is not in an explicit list of calls. *)
Ltac not_in_calls := rewrite ?elem_of_cons, ?elem_of_nil; intuition discriminate.

(* ================================================================== *)
(** * Theorems: metadata probe *)

(** C9. In [metadata_detect_colorspace], when the detected colour space is
    neither raw nor sRGB, [compress_as_srgb] ends up set exactly for the two
    8-bit types, [USHORT] becomes [HALF], [USHORT4] becomes [HALF4], and
    every other type stays as it was. *)
Theorem detect_colorspace_promotes_ushort (E : Env) (md : ImageMetaData)
    (file_format : string) :
  let cs :=
    detect_known_colorspace E (colorspace md) file_format (is_float md || is_half md) in
  cs <> u_colorspace_raw E ->
  cs <> u_colorspace_srgb E ->
  let md' := metadata_detect_colorspace E md file_format in
  (compress_as_srgb md' = true
   <-> type md = IMAGE_DATA_TYPE_BYTE \/ type md = IMAGE_DATA_TYPE_BYTE4)
  /\ type md' =
     match type md with
     | IMAGE_DATA_TYPE_USHORT => IMAGE_DATA_TYPE_HALF
     | IMAGE_DATA_TYPE_USHORT4 => IMAGE_DATA_TYPE_HALF4
     | t => t
     end
  /\ colorspace md' = cs.
Proof.
  intros cs Hraw Hsrgb md'. subst md'. unfold metadata_detect_colorspace.
  cbn [colorspace set_md_colorspace]. fold cs.
  apply String.eqb_neq in Hraw, Hsrgb. rewrite Hraw, Hsrgb.
  destruct md as [f h c w hh d b t csp s]. cbn in *.
  destruct t; cbn; repeat split; try tauto; try discriminate;
    intros [H | H]; discriminate.
Qed.

Lemma detect_colorspace_promotes_ushort_witness :
  let md :=
    mkImageMetaData false false 4 8 8 1 false IMAGE_DATA_TYPE_USHORT4 "Filmic" false in
  let md' := metadata_detect_colorspace (Examples.env_of_files []) md "png" in
  type md' = IMAGE_DATA_TYPE_HALF4 /\ compress_as_srgb md' = false.
Proof.
  intros md md'.
  destruct (detect_colorspace_promotes_ushort (Examples.env_of_files []) md "png")
    as (Hc & Ht & _); [discriminate | discriminate |].
  split; [exact Ht |].
  destruct (compress_as_srgb md') eqn:Hs; [| reflexivity].
  fold md' in Hc. apply Hc in Hs. destruct Hs; discriminate.
Defined.

(** C10. [get_image_metadata(flat_slot, metadata)] answers [false] and
    leaves [metadata] as it was for the handle [-1] and for a handle whose
    slot holds no record; for a slot that holds a record it answers [true]
    and [metadata] becomes the record's metadata. *)
Theorem get_image_metadata_by_handle (m : ImageManager) (md : ImageMetaData) :
  get_image_metadata m (-1) md = Some (false, md)
  /\ (forall flat_slot slot type,
        flattened_slot_to_type_index flat_slot = (slot, type) ->
        image_at m type slot = Some None ->
        get_image_metadata m flat_slot md = Some (false, md))
  /\ (forall flat_slot slot type img,
        flat_slot <> -1 ->
        flattened_slot_to_type_index flat_slot = (slot, type) ->
        image_at m type slot = Some (Some img) ->
        get_image_metadata m flat_slot md = Some (true, metadata img)).
Proof.
  split; [reflexivity |]. split.
  - intros flat_slot slot type Hdec Hat. unfold get_image_metadata.
    destruct (flat_slot =? -1); [reflexivity |]. rewrite Hdec, Hat. reflexivity.
  - intros flat_slot slot type img Hne Hdec Hat. unfold get_image_metadata.
    apply Z.eqb_neq in Hne. rewrite Hne, Hdec, Hat. reflexivity.
Qed.

Lemma get_image_metadata_by_handle_witness :
  let img :=
    Examples.fresh_image "a.png"
      (mkImageMetaData false false 4 8 8 1 false IMAGE_DATA_TYPE_BYTE4 "__builtin_srgb" false)
      IMAGE_ALPHA_AUTO in
  let m :=
    set_images (upd (fun _ => []) IMAGE_DATA_TYPE_BYTE4 [None; Some img])
      (ImageManager_new 100 true) in
  let md := default_metadata (Examples.env_of_files []) in
  get_image_metadata m 1 md = Some (false, md)
  /\ get_image_metadata m 9 md = Some (true, metadata img).
Proof.
  intros img m md.
  destruct (get_image_metadata_by_handle m md) as (_ & Hempty & Hrec).
  split.
  - apply (Hempty 1 0 IMAGE_DATA_TYPE_BYTE4); reflexivity.
  - apply (Hrec 9 1 IMAGE_DATA_TYPE_BYTE4 img); [discriminate | reflexivity | reflexivity].
Defined.

(* ================================================================== *)
(** * Theorems: image cache *)

Section SlotSearch.
Variable p : Image -> bool.

Lemma find_image_found (l : list (option Image)) (k j : nat) (img : Image) :
  l !! j = Some (Some img) -> p img = true -> no_match p l j ->
  find_image p l k = Some ((k + j)%nat, img).
Proof.
  revert k j. induction l as [| x l IH]; intros k j Hj Hp Hno; [discriminate |].
  destruct j as [| j].
  - cbn in Hj. injection Hj as ->. cbn. rewrite Hp. do 2 f_equal. lia.
  - cbn in Hj.
    assert (Hrest : find_image p l (S k) = Some ((S k + j)%nat, img)).
    { apply IH; [exact Hj | exact Hp |].
      intros j' i Hlt Hl. apply (Hno (S j') i); [lia | exact Hl]. }
    replace (k + S j)%nat with (S k + j)%nat by lia.
    destruct x as [i |]; cbn; [| exact Hrest].
    rewrite (Hno 0%nat i); [exact Hrest | lia | reflexivity].
Qed.

Lemma find_image_Some (l : list (option Image)) (k s : nat) (img : Image) :
  find_image p l k = Some (s, img) ->
  exists j, s = (k + j)%nat /\ l !! j = Some (Some img) /\ p img = true /\ no_match p l j.
Proof.
  revert k. induction l as [| x l IH]; intros k H; [discriminate |].
  assert (Hrest : find_image p l (S k) = Some (s, img) ->
                  (forall i, x = Some i -> p i = false) ->
                  exists j, s = (k + j)%nat /\ (x :: l) !! j = Some (Some img)
                            /\ p img = true /\ no_match p (x :: l) j).
  { intros Hf Hx. destruct (IH _ Hf) as (j & -> & Hj & Hp & Hno).
    exists (S j). conjuncts; [lia | exact Hj | exact Hp |].
    intros [| j'] i Hlt Hl; cbn in Hl.
    - apply Hx. congruence.
    - apply (Hno j' i); [lia | exact Hl]. }
  destruct x as [i |]; cbn in H.
  - destruct (p i) eqn:Hpi.
    + injection H as <- <-. exists 0%nat. conjuncts; [lia | reflexivity | exact Hpi |].
      intros j' i' Hlt. lia.
    + apply Hrest; [exact H |]. intros i' [= <-]. exact Hpi.
  - apply Hrest; [exact H |]. intros i' [=].
Qed.

Lemma find_image_None (l : list (option Image)) (k : nat) :
  find_image p l k = None -> no_match p l (length l).
Proof.
  revert k. induction l as [| x l IH]; intros k H j' i Hlt Hl; [discriminate |].
  destruct x as [i0 |]; cbn in H.
  - destruct (p i0) eqn:Hpi; [discriminate |].
    destruct j' as [| j']; cbn in Hl; [congruence |].
    apply (IH _ H j' i); [cbn in Hlt; lia | exact Hl].
  - destruct j' as [| j']; cbn in Hl; [discriminate |].
    apply (IH _ H j' i); [cbn in Hlt; lia | exact Hl].
Qed.

(** The free slot is inside the vector or just behind it, and no slot
    before it is empty. *)
Lemma find_free_slot_spec (l : list (option Image)) (k : nat) :
  exists j, find_free_slot l k = (k + j)%nat /\ (j <= length l)%nat
            /\ (j < length l -> l !! j = Some None)%nat.
Proof.
  revert k. induction l as [| x l IH]; intros k.
  - exists 0%nat. cbn. conjuncts; lia.
  - destruct x as [i |]; cbn.
    + destruct (IH (S k)) as (j & -> & Hle & Hj). exists (S j).
      conjuncts; [lia | lia |]. intros Hlt. cbn. apply Hj. lia.
    + exists 0%nat. conjuncts; [lia | lia | reflexivity].
Qed.
End SlotSearch.

Lemma images_set_image_at (m : ImageManager) (t : ImageDataType) (s : nat)
    (v : option Image) (t' : ImageDataType) :
  images (set_image_at m t s v) t'
  = if decide (t' = t) then <[s := v]> (images m t) else images m t'.
Proof. reflexivity. Qed.

Lemma tex_count_incr (m : ImageManager) (t : ImageDataType) (d : Z) :
  tex_count (set_tex_num_images (upd (tex_num_images m) t (tex_num_images m t + d)) m)
  = tex_count m + d.
Proof.
  unfold tex_count, upd. destruct t; cbn;
    repeat case_decide; try congruence; lia.
Qed.

Lemma wrap_int32_small (z : Z) : 0 <= z < 2 ^ 31 -> wrap_int32 z = z.
Proof. intros H. unfold wrap_int32. rewrite Z.mod_small; lia. Qed.

(** Below 2^28 slots the flat handle is the slot times eight plus the tag,
    up to the bits they share (none), and is not negative. *)
Lemma flattened_slot_nonneg (slot : Z) (t : ImageDataType) :
  0 <= slot < 2 ^ 28 -> 0 <= type_index_to_flattened_slot slot t.
Proof.
  intros H. unfold type_index_to_flattened_slot, IMAGE_DATA_TYPE_SHIFT.
  assert (Htag : 0 <= type_tag t <= 7) by (destruct t; cbn; lia).
  rewrite Z.shiftl_mul_pow2 by lia.
  pose proof (Z.add_lor_land (slot * 2 ^ 3) (type_tag t)) as Hsum.
  assert (0 <= Z.land (slot * 2 ^ 3) (type_tag t)) by (apply Z.land_nonneg; lia).
  assert (0 <= Z.lor (slot * 2 ^ 3) (type_tag t)) by (apply Z.lor_nonneg; lia).
  rewrite wrap_int32_small; lia.
Qed.

(** The flat handle of a slot below 2^28, and its decoding. *)
Lemma flat_slot_bounds (slot : Z) (t : ImageDataType) :
  0 <= slot < 2 ^ 28 ->
  Z.lor (Z.shiftl slot IMAGE_DATA_TYPE_SHIFT) (type_tag t) = slot * 8 + type_tag t
  /\ 0 <= type_tag t < 8.
Proof.
  intros H. unfold IMAGE_DATA_TYPE_SHIFT.
  assert (Htag : 0 <= type_tag t < 8) by (destruct t; cbn; lia).
  split; [| exact Htag].
  rewrite Z.shiftl_mul_pow2 by lia. change (2 ^ 3) with 8.
  pose proof (Z.add_lor_land (slot * 8) (type_tag t)) as Hsum.
  assert (Hland : Z.land (slot * 8) (type_tag t) = 0).
  { apply Z.bits_inj'. intros n Hn. rewrite Z.land_spec, Z.bits_0.
    destruct (Z.ltb_spec n 3).
    - change 8 with (2 ^ 3). rewrite Z.mul_pow2_bits_low by lia. reflexivity.
    - assert (Z.testbit (type_tag t) n = false) as ->; [| apply andb_false_r].
      destruct (Z.eq_dec (type_tag t) 0) as [-> | Hne]; [apply Z.bits_0 |].
      apply Z.bits_above_log2; [lia |].
      apply Z.lt_le_trans with 3; [| exact H0].
      apply Z.log2_lt_pow2; lia. }
  lia.
Qed.

Lemma decode_encode (slot : Z) (t : ImageDataType) :
  0 <= slot < 2 ^ 28 ->
  flattened_slot_to_type_index (type_index_to_flattened_slot slot t) = (slot, t).
Proof.
  intros H. destruct (flat_slot_bounds slot t H) as [Hlor Htag].
  unfold flattened_slot_to_type_index, type_index_to_flattened_slot.
  rewrite Hlor, wrap_int32_small by lia.
  unfold IMAGE_DATA_TYPE_SHIFT, IMAGE_DATA_TYPE_MASK.
  rewrite Z.shiftr_div_pow2 by lia. change 7 with (Z.ones 3).
  rewrite Z.land_ones by lia. change (2 ^ 3) with 8.
  replace ((slot * 8 + type_tag t) / 8) with slot
    by (symmetry; rewrite Z.add_comm, Z.div_add by lia; rewrite Z.div_small by lia; lia).
  replace ((slot * 8 + type_tag t) mod 8) with (type_tag t)
    by (symmetry; rewrite Z.add_comm, Z.mod_add by lia; apply Z.mod_small; lia).
  destruct t; reflexivity.
Qed.

(** The limit is the [TEX_NUM_MAX] handed to the constructor; [add_image]
    never changes it. *)
Lemma add_image_keeps_limit (E : Env) (m : ImageManager) (i : ImageIdentity)
    (anim : bool) (frm : float32) (is_vol : bool) (iso : float32) :
  max_num_images (add_image_id E m i anim frm is_vol iso).2 = max_num_images m.
Proof.
  unfold add_image_id, add_image.
  destruct (find_image _ _ _) as [[slot img] |]; [reflexivity |].
  destruct (tex_count m >? max_num_images m); reflexivity.
Qed.

(** C4. With a new identity, [add_image] still accepts when the records
    counted over all pixel types are exactly [max_num_images] (the member the
    constructor sets to [TEX_NUM_MAX]): the record is stored in the first free
    slot with one user and its handle is returned. With one record more it
    returns [-1] and the manager is left exactly as it was. *)
Theorem add_image_at_limit (E : Env) (m : ImageManager) (i : ImageIdentity)
    (anim : bool) (frm : float32) (is_vol : bool) (iso : float32) :
  let t := slot_type E m i in
  let slot := find_free_slot (images m t) 0 in
  find_image (identity_matches i) (images m t) 0 = None ->
  (tex_count m = max_num_images m ->
   exists m',
     add_image_id E m i anim frm is_vol iso
     = (type_index_to_flattened_slot (Z.of_nat slot) t, probed_metadata E i, m')
     /\ images m' t !! slot = Some (Some (new_image E i anim frm is_vol iso))
     /\ tex_count m' = tex_count m + 1
     /\ (forall t' s img, images m t' !! s = Some (Some img) ->
                          images m' t' !! s = Some (Some img))
     /\ (Z.of_nat slot < 2 ^ 28 -> type_index_to_flattened_slot (Z.of_nat slot) t <> -1))
  /\ (tex_count m = max_num_images m + 1 ->
      add_image_id E m i anim frm is_vol iso = (-1, probed_metadata E i, m)).
Proof.
  intros t slot Hfresh. unfold add_image_id, add_image.
  fold (probed_metadata E i). fold (slot_type E m i). fold t.
  change (find_image _ (images m t) 0) with (find_image (identity_matches i) (images m t) 0).
  rewrite Hfresh. fold slot. split.
  - intros Hcount.
    assert (Hgt : (tex_count m >? max_num_images m) = false)
      by (rewrite Z.gtb_ltb; apply Z.ltb_ge; lia).
    rewrite Hgt.
    eexists. split; [reflexivity |].
    destruct (find_free_slot_spec (images m t) 0) as (j & Hj & Hle & Hnone).
    fold slot in Hj. cbn in Hj. subst j.
    conjuncts.
    + cbn [images set_need_update set_tex_num_images set_images]. unfold upd at 1.
      rewrite decide_True by reflexivity.
      destruct (slot =? length (images m t))%nat eqn:Hlen.
      * apply Nat.eqb_eq in Hlen. apply list_lookup_insert_eq.
        rewrite length_app. cbn. lia.
      * apply Nat.eqb_neq in Hlen. apply list_lookup_insert_eq. lia.
    + cbn [set_need_update tex_count]. 
      change (tex_count (set_need_update true ?x)) with (tex_count x).
      apply (tex_count_incr (set_images _ m) t 1).
    + intros t' s img Hs.
      cbn [images set_need_update set_tex_num_images set_images]. unfold upd.
      destruct (decide (t' = t)) as [-> | Hne]; [| exact Hs].
      assert (Hlt : (s < length (images m t))%nat) by (eapply lookup_lt_Some; exact Hs).
      assert (Hss : s <> slot).
      { intros ->. rewrite Hnone in Hs by exact Hlt. discriminate. }
      rewrite list_lookup_insert_ne by congruence.
      destruct (slot =? length (images m t))%nat; [| exact Hs].
      rewrite lookup_app_l by exact Hlt. exact Hs.
    + intros Hsmall Heq.
      pose proof (flattened_slot_nonneg (Z.of_nat slot) t) as Hnn. lia.
  - intros Hcount.
    assert (Hgt : (tex_count m >? max_num_images m) = true)
      by (rewrite Z.gtb_ltb; apply Z.ltb_lt; lia).
    rewrite Hgt.
    reflexivity.
Qed.

Lemma add_image_at_limit_witness :
  let E := Examples.env_of_files [] in
  let m1 :=
    (add_image_id E (ImageManager_new 1 true) (Examples.identity "a.png")
       false F32.zero false F32.zero).2 in
  let r := add_image_id E m1 (Examples.identity "b.png") false F32.zero false F32.zero in
  let r' := add_image_id E r.2 (Examples.identity "c.png") false F32.zero false F32.zero in
  tex_count m1 = 1 /\ r.1.1 = 8 /\ tex_count r.2 = 2 /\ r'.1.1 = -1 /\ r'.2 = r.2.
Proof.
  intros E m1 r r'.
  destruct (add_image_at_limit E m1 (Examples.identity "b.png") false F32.zero false F32.zero)
    as [Hacc _]; [reflexivity |].
  destruct (Hacc eq_refl) as (m' & Hr & _).
  fold r in Hr.
  destruct (add_image_at_limit E r.2 (Examples.identity "c.png") false F32.zero false F32.zero)
    as [_ Hrej]; [reflexivity |].
  fold r' in Hrej.
  conjuncts.
  - reflexivity.
  - rewrite Hr. reflexivity.
  - reflexivity.
  - rewrite Hrej by reflexivity. reflexivity.
  - rewrite Hrej by reflexivity. reflexivity.
Defined.

Lemma identity_matches_touch (i : ImageIdentity) (img : Image) (frm : float32)
    (md : ImageMetaData) :
  identity_matches i img = true ->
  identity_matches i (add_image_touch img frm (id_alpha_type i) (id_colorspace i) md) = true.
Proof.
  unfold identity_matches, image_equals, add_image_touch. intros H.
  repeat (apply andb_prop in H; destruct H as [H ?]).
  repeat match goal with
         | H : bool_decide _ = true |- _ => apply bool_decide_eq_true_1 in H
         end.
  destruct img as [f g b m nl an fr ip ex us al c iv io me mn]. cbn in *. subst.
  destruct (F32.eqb fr frm); repeat first [progress cbn | progress decide_refl];
    destruct (bool_decide (m = md)); repeat first [progress cbn | progress decide_refl];
    reflexivity.
Qed.

Lemma users_touch (img : Image) (frm : float32) (alpha : ImageAlphaType) (cs : ustring)
    (md : ImageMetaData) :
  users (add_image_touch img frm alpha cs md) = users img + 1.
Proof.
  unfold add_image_touch. cbn.
  repeat match goal with |- context [if ?c then _ else _] => destruct c end; reflexivity.
Qed.

Lemma identity_matches_new (E : Env) (i : ImageIdentity) (anim : bool) (frm : float32)
    (is_vol : bool) (iso : float32) :
  identity_matches i (new_image E i anim frm is_vol iso) = true.
Proof.
  unfold identity_matches, image_equals, new_image. cbn. decide_refl. reflexivity.
Qed.

(** Rewriting the record in a slot where [find_image] stopped keeps
    [find_image] stopping there. *)
Lemma find_image_insert (p : Image -> bool) (l : list (option Image)) (j : nat)
    (img : Image) :
  (j < length l)%nat -> no_match p l j -> p img = true ->
  find_image p (<[j := Some img]> l) 0 = Some (j, img).
Proof.
  intros Hlt Hno Hp.
  apply (find_image_found p (<[j := Some img]> l) 0 j img).
  - apply list_lookup_insert_eq. exact Hlt.
  - exact Hp.
  - intros j' i' Hj' Hl. rewrite list_lookup_insert_ne in Hl by lia.
    apply (Hno j' i'); assumption.
Qed.

(** The manager after [add_image] has stored a new record in [slot]. *)
Lemma add_image_hit (E : Env) (m : ImageManager) (i : ImageIdentity) (anim : bool)
    (frm : float32) (is_vol : bool) (iso : float32) (slot : nat) (img : Image) :
  find_image (identity_matches i) (images m (slot_type E m i)) 0 = Some (slot, img) ->
  add_image_id E m i anim frm is_vol iso
  = (type_index_to_flattened_slot (Z.of_nat slot) (slot_type E m i), probed_metadata E i,
     set_image_at m (slot_type E m i) slot
       (Some (add_image_touch img frm (id_alpha_type i) (id_colorspace i)
                (probed_metadata E i)))).
Proof.
  intros H. unfold add_image_id, add_image.
  fold (probed_metadata E i). fold (slot_type E m i).
  unfold identity_matches in H. rewrite H. reflexivity.
Qed.

Lemma add_image_miss (E : Env) (m : ImageManager) (i : ImageIdentity) (anim : bool)
    (frm : float32) (is_vol : bool) (iso : float32) :
  find_image (identity_matches i) (images m (slot_type E m i)) 0 = None ->
  let t := slot_type E m i in
  let slot := find_free_slot (images m t) 0 in
  let vec :=
    if (slot =? length (images m t))%nat then images m t ++ [None] else images m t in
  add_image_id E m i anim frm is_vol iso
  = if tex_count m >? max_num_images m then (-1, probed_metadata E i, m)
    else
      (type_index_to_flattened_slot (Z.of_nat slot) t, probed_metadata E i,
       set_need_update true
         (set_tex_num_images (upd (tex_num_images m) t (tex_num_images m t + 1))
            (set_images
               (upd (images m) t (<[slot := Some (new_image E i anim frm is_vol iso)]> vec))
               m))).
Proof.
  intros H t slot vec. unfold add_image_id, add_image.
  fold (probed_metadata E i). fold (slot_type E m i).
  unfold identity_matches in H. rewrite H. reflexivity.
Qed.

(** C5, as amended. Whenever the first [add_image] of an identity returns
    a valid handle (it has not run into the image limit), a second
    [add_image] of the same identity returns the same handle, allocates
    nothing, and the record of the identity has two users more than before
    the first call. *)
Theorem add_image_twice (E : Env) (m : ImageManager) (i : ImageIdentity)
    (anim : bool) (frm : float32) (is_vol : bool) (iso : float32) :
  (add_image_id E m i anim frm is_vol iso).1.1 <> -1 ->
  add_twice_shares_record E m i anim frm is_vol iso.
Proof.
  unfold add_twice_shares_record, users_of.
  set (t := slot_type E m i).
  assert (Htype : forall m', has_half_images m' = has_half_images m ->
                             slot_type E m' i = t).
  { intros m' Hh. unfold t, slot_type, storage_type_for. rewrite Hh. reflexivity. }
  destruct (find_image (identity_matches i) (images m t) 0) as [[slot img] |] eqn:Hfind.
  - (* the identity is already there *)
    intros _. rewrite (add_image_hit E m i anim frm is_vol iso slot img Hfind).
    fold t. cbn [fst snd].
    destruct (find_image_Some _ _ _ _ _ Hfind) as (j & Hj & Hl & Hp & Hno).
    cbn in Hj. subst j.
    assert (Hlt : (slot < length (images m t))%nat) by (eapply lookup_lt_Some; exact Hl).
    set (img1 := add_image_touch img frm (id_alpha_type i) (id_colorspace i)
                   (probed_metadata E i)).
    set (m1 := set_image_at m t slot (Some img1)).
    assert (Himg1 : images m1 t = <[slot := Some img1]> (images m t)).
    { unfold m1. rewrite images_set_image_at, decide_True by reflexivity. reflexivity. }
    assert (Hfind1 : find_image (identity_matches i) (images m1 (slot_type E m1 i)) 0
                     = Some (slot, img1)).
    { rewrite (Htype m1) by reflexivity. rewrite Himg1.
      apply find_image_insert; [exact Hlt | exact Hno |].
      apply identity_matches_touch. exact Hp. }
    rewrite (add_image_hit E m1 i anim frm is_vol iso slot img1 Hfind1).
    rewrite (Htype m1) by reflexivity. cbn [fst snd]. split; [reflexivity |].
    eexists slot, _. conjuncts.
    + reflexivity.
    + rewrite images_set_image_at, decide_True by reflexivity.
      apply list_lookup_insert_eq. rewrite Himg1, length_insert. exact Hlt.
    + apply identity_matches_touch, identity_matches_touch, Hp.
    + unfold img1. rewrite !users_touch. lia.
    + reflexivity.
    + intros t'. rewrite images_set_image_at. case_decide; [subst t' | reflexivity].
      apply length_insert.
  - (* a new identity *)
    rewrite (add_image_miss E m i anim frm is_vol iso Hfind). cbv zeta. fold t.
    destruct (tex_count m >? max_num_images m) eqn:Hlimit.
    + intros Hvalid. exfalso. apply Hvalid. reflexivity.
    + intros _. cbn [fst snd].
      set (slot := find_free_slot (images m t) 0).
      set (vec := if (slot =? length (images m t))%nat
                  then images m t ++ [None] else images m t).
      set (img1 := new_image E i anim frm is_vol iso).
      set (m1 := set_need_update true _).
      assert (Himg1 : images m1 t = <[slot := Some img1]> vec).
      { unfold m1. cbn [images set_need_update set_tex_num_images set_images].
        unfold upd. rewrite decide_True by reflexivity. reflexivity. }
      destruct (find_free_slot_spec (images m t) 0) as (j & Hj & Hle & _).
      fold slot in Hj. cbn in Hj. subst j.
      assert (Hlt : (slot < length vec)%nat).
      { unfold vec. destruct (slot =? length (images m t))%nat eqn:Hs.
        - rewrite length_app. cbn. lia.
        - apply Nat.eqb_neq in Hs. lia. }
      assert (Hno : no_match (identity_matches i) vec slot).
      { intros j' i' Hj' Hl'. apply (find_image_None _ _ _ Hfind j' i'); [lia |].
        unfold vec in Hl'. destruct (slot =? length (images m t))%nat; [| exact Hl'].
        rewrite lookup_app_l in Hl' by lia. exact Hl'. }
      assert (Hfind1 : find_image (identity_matches i) (images m1 (slot_type E m1 i)) 0
                       = Some (slot, img1)).
      { rewrite (Htype m1) by reflexivity. rewrite Himg1.
        apply find_image_insert; [exact Hlt | exact Hno |].
        apply identity_matches_new. }
      rewrite (add_image_hit E m1 i anim frm is_vol iso slot img1 Hfind1).
      rewrite (Htype m1) by reflexivity. cbn [fst snd]. split; [reflexivity |].
      eexists slot, _. conjuncts.
      * reflexivity.
      * rewrite images_set_image_at, decide_True by reflexivity.
        apply list_lookup_insert_eq. rewrite Himg1, length_insert. exact Hlt.
      * apply identity_matches_touch, identity_matches_new.
      * rewrite users_touch. reflexivity.
      * reflexivity.
      * intros t'. rewrite images_set_image_at. case_decide; [subst t' | reflexivity].
        apply length_insert.
Qed.

Lemma add_image_twice_witness :
  add_twice_shares_record (Examples.env_of_files []) (ImageManager_new 1 true)
    (Examples.identity "a.png") false F32.zero false F32.zero.
Proof. apply add_image_twice. vm_compute. lia. Defined.

(** C5 as the specification states it fails once the image limit is
    exceeded: with [TEX_NUM_MAX = 1] and two images added, both calls for a
    third identity return [-1] and no record of that identity exists. *)
Lemma add_image_twice_over_limit :
  let E := Examples.env_of_files [] in
  let m1 :=
    (add_image_id E (ImageManager_new 1 true) (Examples.identity "a.png")
       false F32.zero false F32.zero).2 in
  let m2 :=
    (add_image_id E m1 (Examples.identity "b.png") false F32.zero false F32.zero).2 in
  (add_image_id E m2 (Examples.identity "c.png") false F32.zero false F32.zero).1.1 = -1
  /\ ~ add_twice_shares_record E m2 (Examples.identity "c.png") false F32.zero false F32.zero.
Proof.
  intros E m1 m2. split; [reflexivity |].
  intros (_ & slot & img & _ & Hlook & Hmatch & _).
  destruct slot as [| [| slot]]; vm_compute in Hlook; [| | discriminate];
    injection Hlook as <-; vm_compute in Hmatch; discriminate.
Qed.

(* ================================================================== *)
(** * Theorems: pixel pipeline *)

Section LoopDown.
Context {T : Type} (body : nat -> list T -> list T).
(** The body of iteration [i] writes inside pixel [i] only. *)
Hypothesis body_frame :
  forall i b j, (j < 4 * i \/ 4 * i + 4 <= j)%nat -> body i b !! j = b !! j.
Hypothesis body_length : forall i b, length (body i b) = length b.


Lemma loop_down_above (n : nat) (b : list T) (j : nat) :
  (4 * n <= j)%nat -> loop_down n body b !! j = b !! j.
Proof.
  revert b. induction n as [| n IH]; intros b Hj; [reflexivity |].
  cbn. rewrite IH by lia. apply body_frame. lia.
Qed.

(** What ends up in pixel [p] was written by iteration [p], which ran on a
    buffer that still agreed with the initial one up to pixel [p]. *)
Lemma loop_down_at (n : nat) (b : list T) (p j : nat) :
  (p < n)%nat -> (4 * p <= j < 4 * p + 4)%nat ->
  exists b', length b' = length b
             /\ (forall k, (k < 4 * p + 4)%nat -> b' !! k = b !! k)
             /\ loop_down n body b !! j = body p b' !! j.
Proof.
  revert b. induction n as [| n IH]; intros b Hp Hj; [lia |].
  cbn. destruct (decide (p = n)) as [-> | Hne].
  - exists b. conjuncts; [reflexivity | reflexivity |].
    apply loop_down_above. lia.
  - destruct (IH (body n b)) as (b' & Hlen & Hagree & Hres); [lia | lia |].
    exists b'. conjuncts.
    + rewrite Hlen. apply body_length.
    + intros k Hk. rewrite Hagree by exact Hk. apply body_frame. lia.
    + exact Hres.
Qed.
End LoopDown.

Section AlphaChannel.
Context {T : Type} (St : Storage T).

Lemma rd_agree (b b' : list T) (k : nat) : b' !! k = b !! k -> rd St b' k = rd St b k.
Proof. unfold rd. intros ->. reflexivity. Qed.









End AlphaChannel.


(** C1. A 2x1 float image loaded into [FLOAT4], both pixels with a NaN red
    channel: [file_load_image] succeeds, the first pixel is zeroed in all
    four channels, the second reaches the device as it was read, NaN
    included. *)
Theorem finite_guard_misses_second_pixel :
  let E := Examples.env_of_files [("a.exr"%string, Examples.nan_file)] in
  let img := Examples.fresh_image "a.exr" Examples.nan_metadata IMAGE_ALPHA_AUTO in
  let r := file_load_image E Storage_float img IMAGE_DATA_TYPE_FLOAT4 0 in
  r.1 = true
  /\ mem_data <$> mem r.2
     = Some (PixelsFloat [F32.zero; F32.zero; F32.zero; F32.zero;
                          S754_nan; F32.of_ratio 1 4; F32.of_ratio 1 4; F32.one]).
Proof. vm_compute. split; reflexivity. Qed.





Section StoredAlpha.
Context {T : Type} (St : Storage T).






End StoredAlpha.




Lemma file_load_image_generic_mem (E : Env) (img : Image) (s : string) :
  file_load_image_generic E (set_mem None (set_mem_name s img))
  = file_load_image_generic E img.
Proof. reflexivity. Qed.

Lemma file_load_image_fails_early {T : Type} (E : Env) (St : Storage T) (img : Image)
    (t : ImageDataType) (limit : Z) :
  fails_early E img limit -> file_load_image E St img t limit = (false, img).
Proof.
  unfold fails_early, file_load_image. intros [H | [H | [Hs H]]].
  - rewrite H. reflexivity.
  - destruct (file_load_image_generic E img); [| reflexivity].
    apply Z.eqb_eq in H. rewrite H. reflexivity.
  - destruct (file_load_image_generic E img); [| reflexivity].
    destruct (_ =? 0); [reflexivity |]. rewrite Hs, H. reflexivity.
Qed.

(** C2. When [file_load_image] gives up early on a record (the file
    cannot be opened or decoded, the image is empty, or the device allocation
    fails), [device_load_image] still clears [need_load] and the record keeps
    its users but has no device buffer: no placeholder is installed. *)
Theorem failed_load_leaves_no_buffer (E : Env) (m : ImageManager)
    (oiio : list OIIOTexture) (params : SceneParams) (t : ImageDataType) (slot : nat)
    (img : Image) :
  images m t !! slot = Some (Some img) ->
  oiio_texture_system m = false ->
  with_openvdb E && string_endswith (filename img) ".vdb" = false ->
  fails_early E img (texture_limit params) ->
  exists st img',
    device_load_image E m oiio params t slot false = Some st
    /\ images st.1 t !! slot = Some (Some img')
    /\ users img' = users img /\ need_load img' = false /\ mem img' = None.
Proof.
  intros Hslot Hoiio Hvdb Hfail. unfold device_load_image.
  rewrite Hslot, Hoiio. cbn [andb].
  set (img0 := set_mem None (set_mem_name _ img)).
  assert (Hfail0 : fails_early E img0 (texture_limit params)) by exact Hfail.
  assert (Hload : load_by_type E img0 t (texture_limit params) = Some img0).
  { unfold load_by_type.
    change (filename img0) with (filename img). rewrite Hvdb.
    destruct t; rewrite file_load_image_fails_early by exact Hfail0; reflexivity. }
  rewrite Hload. cbn [mbind option_bind]. eexists _, _. split; [reflexivity |]. split.
  - cbn [fst]. rewrite images_set_image_at, decide_True by reflexivity.
    apply list_lookup_insert_eq. eapply lookup_lt_Some. exact Hslot.
  - conjuncts; reflexivity.
Qed.

Lemma failed_load_leaves_no_buffer_witness :
  let E := Examples.env_of_files [] in
  let img := Examples.fresh_image "missing.png" Examples.byte4_metadata IMAGE_ALPHA_AUTO in
  let m := Examples.manager_with IMAGE_DATA_TYPE_BYTE4 img in
  exists st img',
    device_load_image E m [] Examples.no_params IMAGE_DATA_TYPE_BYTE4 0 false = Some st
    /\ images st.1 IMAGE_DATA_TYPE_BYTE4 !! 0%nat = Some (Some img')
    /\ users img' = 1 /\ need_load img' = false /\ mem img' = None.
Proof.
  intros E img m.
  apply (failed_load_leaves_no_buffer E m [] Examples.no_params IMAGE_DATA_TYPE_BYTE4 0 img);
    [reflexivity | reflexivity | reflexivity | left; reflexivity].
Defined.

(* ================================================================== *)
(** * Theorems: device upload coordinator *)

Lemma all_types_complete (t : ImageDataType) : NoDup all_types /\ t ∈ all_types.
Proof.
  split.
  - unfold all_types.
    repeat (apply NoDup_cons; split;
            [rewrite ?elem_of_cons, ?elem_of_nil; intuition discriminate |]).
    apply NoDup_nil_2.
  - destruct t; unfold all_types; rewrite !elem_of_cons; intuition reflexivity.
Qed.

(** A walk over the slots of every type for a step that works on its own
    slot only and that may be undefined. [imgs] reads the vectors out of the
    state of the walk; [Inv] is kept by every step. *)
Section PartialSlotWalk.
Context {State : Type} (imgs : State -> ImageDataType -> list (option Image)).
Context (step : ImageDataType -> State -> nat -> option State).
Context (Inv : State -> Prop).
Hypothesis step_inv : forall t s st st', Inv st -> step t st s = Some st' -> Inv st'.
Hypothesis step_other :
  forall t' s' st st' t s,
    step t' st s' = Some st' -> (t', s') <> (t, s) -> imgs st' t !! s = imgs st t !! s.
Hypothesis step_length :
  forall t' s' st st' t,
    step t' st s' = Some st' -> length (imgs st' t) = length (imgs st t).

Local Abbreviation slots_walk t := (fold_left (fun acc s => st ← acc; step t st s)).
Local Abbreviation types_walk :=
  (fold_left (fun acc t =>
     st ← acc; slots_walk t (seq 0 (length (imgs st t))) (Some st))).





Section At.
Variables (t : ImageDataType) (s : nat) (v0 : option Image) (P : option Image -> Prop).
(** The step of the slot itself, run on any state in which the slot still
    holds [v0], leaves something that satisfies [P]. *)
Hypothesis step_at :
  forall st st', Inv st -> step t st s = Some st' -> imgs st t !! s = Some v0 ->
                 exists v1, imgs st' t !! s = Some v1 /\ P v1.


End At.

Section Defined.
Variable D : option Image -> Prop.
(** The step of a slot is defined when what the slot holds satisfies [D]. *)
Hypothesis step_defined :
  forall t s st v, Inv st -> imgs st t !! s = Some v -> D v -> is_Some (step t st s).


End Defined.
End PartialSlotWalk.





(** [file_load_extern_vdb] is defined for a record with one to four
    channels whose name sends it there. *)
Lemma file_load_extern_vdb_defined (E : Env) (img : Image) (type : ImageDataType) :
  with_openvdb E && string_endswith (filename img) ".vdb" = true ->
  (1 <=? channels (metadata img)) && (channels (metadata img) <=? 4) = true ->
  is_Some (file_load_extern_vdb E img type).
Proof.
  intros Hvdb Hc. unfold file_load_extern_vdb, file_load_image_generic_NULL, allocate_grid_info.
  rewrite Hvdb, Hc. destruct_matches; eauto.
Qed.


Section DeviceLoad.
Variables (E : Env) (params : SceneParams).









End DeviceLoad.

Lemma device_free_image_other (m : ImageManager) (t' : ImageDataType) (s' : nat)
    (t : ImageDataType) (s : nat) :
  (t', s') <> (t, s) ->
  images (device_free_image m t' s') t !! s = images m t !! s.
Proof.
  intros Hne. unfold device_free_image.
  destruct (images m t' !! s') as [[img |] |]; [| reflexivity | reflexivity].
  cbn [images set_tex_num_images]. rewrite images_set_image_at.
  case_decide; [subst t' | reflexivity].
  apply list_lookup_insert_ne. congruence.
Qed.

Lemma device_free_image_length (m : ImageManager) (t : ImageDataType) (s : nat)
    (t' : ImageDataType) :
  length (images (device_free_image m t s) t') = length (images m t').
Proof.
  unfold device_free_image.
  destruct (images m t !! s) as [[img |] |]; [| reflexivity | reflexivity].
  cbn [images set_tex_num_images]. rewrite images_set_image_at.
  case_decide; [subst t' | reflexivity]. apply length_insert.
Qed.

Lemma device_free_image_at (m : ImageManager) (t : ImageDataType) (s : nat) (img : Image) :
  images m t !! s = Some (Some img) ->
  images (device_free_image m t s) t !! s = Some None.
Proof.
  intros Hs. unfold device_free_image. rewrite Hs.
  cbn [images set_tex_num_images]. rewrite images_set_image_at, decide_True by reflexivity.
  apply list_lookup_insert_eq. eapply lookup_lt_Some. exact Hs.
Qed.


Section DeviceUpdate.
Variables (E : Env) (params : SceneParams) (cancel : ImageDataType -> nat -> bool).











End DeviceUpdate.






(* ================================================================== *)
(** * Theorems: merge compositor *)

(** C3. Two renders of the same 1x1 layout, 10 samples with the value 0.4
    and 30 samples with the value 0.8 in the pass [A.Combined.R], next to a
    channel [Z] outside any layer. The merged list has [Z] first, with 2
    accumulated samples, then [A.Combined.R] with 40. The pass is classified
    Average, yet its weights are looked up at its offset in the input, which
    is the entry of [Z]: 10/2 and 30/2. The merged value is 14, where the
    sample-weighted mean is 0.7. *)
Theorem average_weight_from_input_offset :
  exists images0 images out_spec,
    Merge.open_images Examples.open_render ["a.exr"; "b.exr"]%string [] = inr images0
    /\ Merge.merge_channels_metadata Examples.no_time Examples.print_time images0 []
       = Some (images, out_spec, [2; 40])
    /\ Merge.channelnames out_spec = ["Z"; "A.Combined.R"]%string
    /\ (forall image layer pass,
          image ∈ images -> layer ∈ Merge.layers image -> pass ∈ Merge.passes layer ->
          Merge.op pass = Merge.MERGE_CHANNEL_AVERAGE)
    /\ Merge.merge_pixels images out_spec [2; 40]
       = Merge.MergeOk
           [F32.add (F32.mul (F32.of_ratio 1 40) F32.one) (F32.mul (F32.of_ratio 1 40) F32.one);
            F32.add (F32.mul (F32.of_ratio 10 2) (F32.of_ratio 4 10))
              (F32.mul (F32.of_ratio 30 2) (F32.of_ratio 8 10))]
    /\ F32.add (F32.mul (F32.of_ratio 10 2) (F32.of_ratio 4 10))
         (F32.mul (F32.of_ratio 30 2) (F32.of_ratio 8 10)) = F32.of_Z 14.
Proof.
  eexists _, _, _. split; [vm_compute; reflexivity |].
  split; [vm_compute; reflexivity |].
  split; [reflexivity |].
  split.
  - intros image layer pass Hi Hl Hp.
    repeat (apply elem_of_cons in Hi; destruct Hi as [-> | Hi]);
      [| | apply elem_of_nil in Hi; contradiction];
      cbn in Hl;
      repeat (apply elem_of_cons in Hl; destruct Hl as [-> | Hl]);
      try (apply elem_of_nil in Hl; contradiction);
      cbn in Hp;
      repeat (apply elem_of_cons in Hp; destruct Hp as [-> | Hp]);
      try (apply elem_of_nil in Hp; contradiction); reflexivity.
  - split; vm_compute; reflexivity.
Qed.

(** Where the pass sits at the same position in the inputs and in the merged
    list the weights are the samples over the accumulated total: with the
    pass alone in both files the merged value is 10/40 * 0.4 + 30/40 * 0.8
    in binary32, one unit in the last place above the binary32 value of 0.7. *)
Lemma average_weight_same_position :
  exists images0 images out_spec,
    Merge.open_images Examples.open_render_single ["a.exr"; "b.exr"]%string [] = inr images0
    /\ Merge.merge_channels_metadata Examples.no_time Examples.print_time images0 []
       = Some (images, out_spec, [40])
    /\ Merge.merge_pixels images out_spec [40]
       = Merge.MergeOk
           [F32.add (F32.mul (F32.of_ratio 10 40) (F32.of_ratio 4 10))
              (F32.mul (F32.of_ratio 30 40) (F32.of_ratio 8 10))]
    /\ F32.add (F32.mul (F32.of_ratio 10 40) (F32.of_ratio 4 10))
         (F32.mul (F32.of_ratio 30 40) (F32.of_ratio 8 10))
       = S754_finite false 11744052 (-24)
    /\ F32.of_ratio 7 10 = S754_finite false 11744051 (-24).
Proof.
  eexists _, _, _. repeat (split; [vm_compute; reflexivity |]). vm_compute. reflexivity.
Qed.

Lemma length_append (s1 s2 : string) :
  String.length (String.append s1 s2) = (String.length s1 + String.length s2)%nat.
Proof.
  induction s1 as [| c s1 IH]; [reflexivity |].
  change (String.append (String c s1) s2) with (String c (String.append s1 s2)).
  cbn [String.length Nat.add]. rewrite IH. reflexivity.
Qed.

(** The temporary path is never the output path: it is strictly longer. *)
Lemma tmp_filepath_fresh (extension : string -> string) (unique_path path : string) :
  Merge.tmp_filepath extension unique_path path <> path.
Proof.
  unfold Merge.tmp_filepath. intros H. apply (f_equal String.length) in H.
  rewrite !length_append in H. cbn in H. lia.
Qed.

(** C6, as amended. [save_output] writes to
    [<output>.merge-tmp-<uniq><ext>] and calls [rename] exactly when create,
    open, write and close all succeeded; it reports success exactly when the
    rename succeeded too, and then the output is the finished image and no
    temporary file is left. On every failure the output path holds what it
    held before. When write, close or rename fails the last call removes the
    temporary file; when create or open fails nothing is removed. *)
Theorem save_output_atomic (extension : string -> string) (unique_path : string)
    (a : Merge.OutputAnswers) (fs : gmap string Merge.File) (path : string)
    (sp : Merge.Spec) (pixels : list float32) :
  let r := Merge.save_output extension unique_path a fs path sp pixels in
  let tmp := Merge.tmp_filepath extension unique_path path in
  tmp = String.append path
          (String.append (String.append ".merge-tmp-" unique_path) (extension path))
  /\ (Merge.CallRename tmp path ∈ Merge.save_calls r
      <-> Merge.create_ok a && Merge.open_ok a && Merge.write_ok a && Merge.close_ok a
          = true)
  /\ (Merge.save_ok r = true
      <-> Merge.create_ok a && Merge.open_ok a && Merge.write_ok a && Merge.close_ok a
          && Merge.rename_ok a = true)
  /\ (Merge.save_ok r = true ->
      Merge.save_fs r !! path = Some (Merge.FileComplete sp pixels)
      /\ Merge.save_fs r !! tmp = None)
  /\ (Merge.save_ok r = false -> Merge.save_fs r !! path = fs !! path)
  /\ (Merge.save_ok r = false ->
      Merge.create_ok a && Merge.open_ok a = true ->
      last (Merge.save_calls r) = Some (Merge.CallRemove tmp)
      /\ Merge.save_fs r !! tmp = None)
  /\ (Merge.create_ok a && Merge.open_ok a = false ->
      Merge.save_ok r = false /\ Merge.CallRemove tmp ∉ Merge.save_calls r).
Proof.
  intros r tmp. subst r. unfold Merge.save_output. fold tmp.
  pose proof (tmp_filepath_fresh extension unique_path path) as Hfresh. fold tmp in Hfresh.
  split; [reflexivity |].
  destruct a as [c o ol w cl rn ge re]. cbn [Merge.create_ok Merge.open_ok Merge.write_ok
    Merge.close_ok Merge.rename_ok Merge.open_leaves_file Merge.geterror Merge.rename_error].
  destruct c, o, w, cl, rn; cbn [negb andb app Merge.save_ok Merge.save_calls Merge.save_fs];
    rewrite ?lookup_insert_eq; cbn [negb andb app Merge.save_ok Merge.save_calls Merge.save_fs];
    conjuncts;
    try (intros; discriminate);
    try (split; [intros; reflexivity | intros; not_in_calls]);
    try (split; [intros H; exfalso; revert H; not_in_calls | intros; discriminate]);
    try (intros; split; [reflexivity | not_in_calls]);
    try (intros; split; [| apply lookup_delete_eq]; reflexivity);
    try (intros; split;
         [ rewrite lookup_insert_eq; reflexivity
         | rewrite lookup_insert_ne by congruence; apply lookup_delete_eq ]);
    try (intros; rewrite lookup_delete_ne by exact Hfresh;
         rewrite ?lookup_insert_ne by exact Hfresh; reflexivity);
    try (intros; destruct ol; rewrite ?lookup_insert_ne by exact Hfresh; reflexivity);
    try (intros; split;
         [reflexivity | rewrite lookup_insert_ne by congruence; apply lookup_delete_eq]);
    try tauto.
Qed.

Lemma save_output_atomic_witness :
  let a := Merge.mkOutputAnswers true true false false true true "disk full" "" in
  let old := Merge.FileComplete (Merge.spec (Examples.render "10" F32.one)) [F32.one] in
  let fs : gmap string Merge.File := {[ "out.exr"%string := old ]} in
  let r := Merge.save_output Examples.exr_extension "0000" a fs "out.exr"
             (Merge.spec (Examples.render "10" F32.one)) [F32.zero] in
  Merge.save_ok r = false
  /\ Merge.save_fs r !! "out.exr"%string = Some old
  /\ Merge.save_fs r !! "out.exr.merge-tmp-0000.exr"%string = None.
Proof.
  intros a old fs r.
  destruct (save_output_atomic Examples.exr_extension "0000" a fs "out.exr"
              (Merge.spec (Examples.render "10" F32.one)) [F32.zero])
    as (_ & _ & _ & _ & Hkeep & Hremove & _).
  subst r. split; [reflexivity |]. split.
  - rewrite (Hkeep eq_refl). apply lookup_singleton_eq.
  - apply (Hremove eq_refl eq_refl).
Defined.

(** C6 as the specification states it fails when opening the temporary
    output fails after the file was created: [save_output] returns [false]
    without calling [remove], and the temporary file stays. *)
Lemma failed_open_leaves_temp :
  let a := Merge.mkOutputAnswers true false true true true true "disk full" "" in
  let r := Merge.save_output Examples.exr_extension "0000" a ∅ "out.exr"
             (Merge.spec (Examples.render "10" F32.one)) [F32.zero] in
  Merge.save_ok r = false
  /\ Merge.save_calls r = [Merge.CallCreate "out.exr.merge-tmp-0000.exr";
                           Merge.CallOpen "out.exr.merge-tmp-0000.exr"]
  /\ Merge.save_fs r !! "out.exr.merge-tmp-0000.exr"%string = Some Merge.FilePartial
  /\ ~ temp_always_removed Examples.exr_extension "0000" a ∅ "out.exr"
         (Merge.spec (Examples.render "10" F32.one)) [F32.zero].
Proof.
  intros a r. split; [reflexivity |]. split; [reflexivity |]. split; [reflexivity |].
  intros H. destruct (H eq_refl) as [Hremoved _]. revert Hremoved.
  change (Merge.save_calls _) with (Merge.save_calls r).
  change (Merge.save_calls r)
    with [Merge.CallCreate "out.exr.merge-tmp-0000.exr";
          Merge.CallOpen "out.exr.merge-tmp-0000.exr"].
  not_in_calls.
Qed.

(* ================================================================== *)
(** * Theorems: flat handles *)

(** X1. Below 2^28 slots a flat handle is eight times the slot plus the
    tag of the type, is never negative (so never the "no image" handle -1),
    and decodes to the slot and the type it was made from. *)
Theorem flat_handle_round_trip (slot : Z) (t : ImageDataType) :
  0 <= slot < 2 ^ 28 ->
  type_index_to_flattened_slot slot t = slot * 8 + type_tag t
  /\ 0 <= type_index_to_flattened_slot slot t < 2 ^ 31
  /\ flattened_slot_to_type_index (type_index_to_flattened_slot slot t) = (slot, t).
Proof.
  intros H. destruct (flat_slot_bounds slot t H) as [Hlor Htag].
  assert (Hflat : type_index_to_flattened_slot slot t = slot * 8 + type_tag t).
  { unfold type_index_to_flattened_slot. rewrite Hlor. apply wrap_int32_small. lia. }
  split; [exact Hflat |]. split; [lia |]. apply decode_encode. exact H.
Qed.

Lemma flat_handle_round_trip_witness :
  type_index_to_flattened_slot 5 IMAGE_DATA_TYPE_HALF4 = 42
  /\ flattened_slot_to_type_index 42 = (5, IMAGE_DATA_TYPE_HALF4).
Proof.
  destruct (flat_handle_round_trip 5 IMAGE_DATA_TYPE_HALF4) as (H1 & _ & H2); [lia |].
  split; [exact H1 | rewrite H1 in H2; exact H2].
Defined.

(** X2. Every [int] is the flat handle of the slot and type it decodes
    to. *)
Theorem flat_handle_decode_encode (flat_slot : Z) :
  - 2 ^ 31 <= flat_slot < 2 ^ 31 ->
  type_index_to_flattened_slot (flattened_slot_to_type_index flat_slot).1
    (flattened_slot_to_type_index flat_slot).2 = flat_slot.
Proof.
  intros H. unfold flattened_slot_to_type_index, type_index_to_flattened_slot.
  cbn [fst snd]. unfold IMAGE_DATA_TYPE_SHIFT, IMAGE_DATA_TYPE_MASK.
  assert (Htag : type_tag (type_of_tag (Z.land flat_slot 7)) = Z.land flat_slot 7).
  { change 7 with (Z.ones 3). rewrite Z.land_ones by lia.
    pose proof (Z.mod_pos_bound flat_slot (2 ^ 3) ltac:(lia)) as Hb.
    remember (flat_slot mod 2 ^ 3) as x eqn:Hx. clear Hx.
    assert (Hcases : x = 0 \/ x = 1 \/ x = 2 \/ x = 3 \/ x = 4 \/ x = 5 \/ x = 6 \/ x = 7)
      by lia.
    repeat (destruct Hcases as [-> | Hcases]; [reflexivity |]). subst x. reflexivity. }
  rewrite Htag. rewrite <- Z.ldiff_ones_r by lia. change 7 with (Z.ones 3).
  rewrite Z.lor_ldiff_and. unfold wrap_int32. rewrite Z.mod_small; lia.
Qed.

Lemma flat_handle_decode_encode_witness :
  flattened_slot_to_type_index (-6) = (-1, IMAGE_DATA_TYPE_HALF4)
  /\ type_index_to_flattened_slot (-1) IMAGE_DATA_TYPE_HALF4 = -6.
Proof.
  split; [reflexivity |].
  apply (flat_handle_decode_encode (-6)). lia.
Defined.

(* ================================================================== *)
(** * Theorems: image cache, further properties *)

Lemma metadata_touch (img : Image) (frm : float32) (alpha : ImageAlphaType) (cs : ustring)
    (md : ImageMetaData) :
  metadata (add_image_touch img frm alpha cs md) = md.
Proof.
  unfold add_image_touch. cbn [metadata set_users].
  match goal with |- context [bool_decide (metadata ?x = md)] => set (img3 := x) end.
  destruct (bool_decide (metadata img3 = md)) eqn:Hmd; cbn [negb].
  - apply bool_decide_eq_true_1 in Hmd. exact Hmd.
  - reflexivity.
Qed.

Lemma identity_matches_iff (i : ImageIdentity) (img : Image) :
  identity_matches i img = true <-> image_identity img = i.
Proof.
  unfold identity_matches, image_equals, image_identity. destruct i as [f g b ip ex al c].
  cbn. rewrite !andb_true_iff, !bool_decide_eq_true. split.
  - intros [[[[[[-> ->] ->] ->] ->] ->] ->]. reflexivity.
  - intros [= -> -> -> -> -> -> ->]. repeat split.
Qed.

Lemma image_identity_touch (i : ImageIdentity) (img : Image) (frm : float32)
    (md : ImageMetaData) :
  image_identity img = i ->
  image_identity (add_image_touch img frm (id_alpha_type i) (id_colorspace i) md) = i.
Proof.
  intros H. apply identity_matches_iff, identity_matches_touch, identity_matches_iff, H.
Qed.

(** X3. The handle [add_image] returns, when it is not [-1], resolves in
    the manager it leaves behind: [get_image_metadata] on it answers [true]
    with the metadata [add_image] reported. *)
Theorem add_image_handle_resolves (E : Env) (m : ImageManager) (i : ImageIdentity)
    (anim : bool) (frm : float32) (is_vol : bool) (iso : float32) (md0 : ImageMetaData) :
  Z.of_nat (length (images m (slot_type E m i))) < 2 ^ 28 ->
  (add_image_id E m i anim frm is_vol iso).1.1 <> -1 ->
  (add_image_id E m i anim frm is_vol iso).1.2 = probed_metadata E i
  /\ get_image_metadata (add_image_id E m i anim frm is_vol iso).2
       (add_image_id E m i anim frm is_vol iso).1.1 md0
     = Some (true, probed_metadata E i).
Proof.
  intros Hsize. set (t := slot_type E m i) in *.
  assert (Hget : forall slot m' img,
            (slot <= length (images m t))%nat ->
            images m' t !! slot = Some (Some img) ->
            metadata img = probed_metadata E i ->
            get_image_metadata m' (type_index_to_flattened_slot (Z.of_nat slot) t) md0
            = Some (true, probed_metadata E i)).
  { intros slot m' img Hle Hl Hmd. unfold get_image_metadata.
    assert (Hs : 0 <= Z.of_nat slot < 2 ^ 28) by lia.
    pose proof (flattened_slot_nonneg _ t Hs) as Hnn.
    replace (_ =? -1) with false by (symmetry; apply Z.eqb_neq; lia).
    rewrite decode_encode by exact Hs. unfold image_at.
    replace (Z.of_nat slot <? 0) with false by (symmetry; apply Z.ltb_ge; lia).
    rewrite Nat2Z.id, Hl, Hmd. reflexivity. }
  destruct (find_image (identity_matches i) (images m t) 0) as [[slot img] |] eqn:Hfind.
  - intros _. rewrite (add_image_hit E m i anim frm is_vol iso slot img Hfind).
    fold t. cbn [fst snd]. split; [reflexivity |].
    destruct (find_image_Some _ _ _ _ _ Hfind) as (j & Hj & Hl & _). cbn in Hj. subst j.
    assert (Hlt : (slot < length (images m t))%nat) by (eapply lookup_lt_Some; exact Hl).
    eapply Hget; [lia | | apply metadata_touch].
    rewrite images_set_image_at, decide_True by reflexivity.
    apply list_lookup_insert_eq. exact Hlt.
  - rewrite (add_image_miss E m i anim frm is_vol iso Hfind). cbv zeta. fold t.
    destruct (tex_count m >? max_num_images m).
    + intros Hvalid. exfalso. apply Hvalid. reflexivity.
    + intros _. cbn [fst snd]. split; [reflexivity |].
      destruct (find_free_slot_spec (images m t) 0) as (j & Hj & Hle & _).
      cbn in Hj. subst j.
      eapply (Hget _ _ (new_image E i anim frm is_vol iso)); [exact Hle | | reflexivity].
      cbn [images set_need_update set_tex_num_images set_images]. unfold upd.
      rewrite decide_True by reflexivity.
      apply list_lookup_insert_eq.
      destruct (_ =? _)%nat eqn:Hs.
      * rewrite length_app. cbn. lia.
      * apply Nat.eqb_neq in Hs. lia.
Qed.

Lemma add_image_handle_resolves_witness :
  let E := Examples.env_of_files [("a.png"%string, Examples.byte_file)] in
  let r := add_image_id E (ImageManager_new 100 true) (Examples.identity "a.png")
             false F32.zero false F32.zero in
  r.1.1 = 1
  /\ get_image_metadata r.2 r.1.1 (default_metadata E)
     = Some (true, probed_metadata E (Examples.identity "a.png")).
Proof.
  intros E r. split; [reflexivity |].
  apply (add_image_handle_resolves E (ImageManager_new 100 true) (Examples.identity "a.png")
           false F32.zero false F32.zero (default_metadata E)).
  - cbn. lia.
  - vm_compute. discriminate.
Defined.

Lemma no_duplicates_replace (l : list (option Image)) (s : nat) (img img' : Image) :
  l !! s = Some (Some img) -> image_identity img' = image_identity img ->
  no_duplicates l -> no_duplicates (<[s := Some img']> l).
Proof.
  intros Hs Hid Hnd s1 s2 i1 i2 H1 H2 Heq.
  assert (Hlt : (s < length l)%nat) by (eapply lookup_lt_Some; exact Hs).
  assert (Hold : forall s0 i0, <[s := Some img']> l !! s0 = Some (Some i0) ->
                   exists i0', l !! s0 = Some (Some i0')
                               /\ image_identity i0' = image_identity i0).
  { intros s0 i0 H0. destruct (decide (s0 = s)) as [-> | Hne].
    - rewrite list_lookup_insert_eq in H0 by exact Hlt. injection H0 as <-.
      exists img. split; [exact Hs | symmetry; exact Hid].
    - rewrite list_lookup_insert_ne in H0 by congruence. exists i0. split; [exact H0 | reflexivity]. }
  destruct (Hold _ _ H1) as (i1' & H1' & E1). destruct (Hold _ _ H2) as (i2' & H2' & E2).
  apply (Hnd s1 s2 i1' i2' H1' H2'). congruence.
Qed.

Lemma no_duplicates_new (l : list (option Image)) (s : nat) (img' : Image) :
  no_duplicates l ->
  (forall s' i', l !! s' = Some (Some i') -> image_identity i' <> image_identity img') ->
  no_duplicates (<[s := Some img']> l).
Proof.
  intros Hnd Hnew s1 s2 i1 i2 H1 H2 Heq.
  destruct (decide (s1 = s)) as [-> | Hne1]; destruct (decide (s2 = s)) as [-> | Hne2];
    [reflexivity | | |].
  - apply list_lookup_insert_Some in H1. destruct H1 as [(_ & [= <-] & _) | [? _]]; [| congruence].
    rewrite list_lookup_insert_ne in H2 by congruence.
    exfalso. apply (Hnew _ _ H2). symmetry. exact Heq.
  - apply list_lookup_insert_Some in H2. destruct H2 as [(_ & [= <-] & _) | [? _]]; [| congruence].
    rewrite list_lookup_insert_ne in H1 by congruence.
    exfalso. apply (Hnew _ _ H1). exact Heq.
  - rewrite list_lookup_insert_ne in H1, H2 by congruence.
    apply (Hnd s1 s2 i1 i2); assumption.
Qed.

Lemma lookup_app_None (l : list (option Image)) (s : nat) (img : Image) :
  (l ++ [None]) !! s = Some (Some img) -> l !! s = Some (Some img).
Proof.
  intros H. destruct (decide (s < length l)%nat) as [Hlt | Hge].
  - rewrite lookup_app_l in H by exact Hlt. exact H.
  - rewrite lookup_app_r in H by lia.
    destruct (s - length l)%nat; cbn in H; discriminate.
Qed.

(** The vector [add_image] stores a new record into: the vector of the
    type, grown by one empty slot when no slot was free. *)
Lemma grown_vector_lookup (l : list (option Image)) (slot s : nat) (img : Image) :
  (if (slot =? length l)%nat then l ++ [None] else l) !! s = Some (Some img) ->
  l !! s = Some (Some img).
Proof.
  destruct (slot =? length l)%nat; [apply lookup_app_None | exact id].
Qed.

(** X4. [add_image] keeps the records of every vector distinct: when no
    two records of a vector share an identity before the call, none do
    after it. *)
Theorem add_image_keeps_records_distinct (E : Env) (m : ImageManager)
    (i : ImageIdentity) (anim : bool) (frm : float32) (is_vol : bool) (iso : float32) :
  (forall t, no_duplicates (images m t)) ->
  forall t, no_duplicates (images (add_image_id E m i anim frm is_vol iso).2 t).
Proof.
  intros Hnd t'. set (t := slot_type E m i).
  destruct (find_image (identity_matches i) (images m t) 0) as [[slot img] |] eqn:Hfind.
  - rewrite (add_image_hit E m i anim frm is_vol iso slot img Hfind).
    fold t. cbn [snd]. rewrite images_set_image_at.
    case_decide; [subst t' | apply Hnd].
    destruct (find_image_Some _ _ _ _ _ Hfind) as (j & Hj & Hl & Hp & _). cbn in Hj. subst j.
    apply identity_matches_iff in Hp.
    apply (no_duplicates_replace _ _ img); [exact Hl | | apply Hnd].
    rewrite Hp. apply image_identity_touch. exact Hp.
  - rewrite (add_image_miss E m i anim frm is_vol iso Hfind). cbv zeta. fold t.
    destruct (tex_count m >? max_num_images m); cbn [snd]; [apply Hnd |].
    cbn [images set_need_update set_tex_num_images set_images]. unfold upd.
    case_decide; [subst t' | apply Hnd].
    apply no_duplicates_new.
    + intros s1 s2 i1 i2 H1 H2. apply grown_vector_lookup in H1, H2.
      apply (Hnd t s1 s2 i1 i2); assumption.
    + intros s' i' Hs' Heq. apply grown_vector_lookup in Hs'.
      assert (Hm : identity_matches i i' = true).
      { apply identity_matches_iff. rewrite Heq. destruct i; reflexivity. }
      rewrite (find_image_None _ _ _ Hfind s' i') in Hm; [discriminate | | exact Hs'].
      eapply lookup_lt_Some. exact Hs'.
Qed.

Lemma add_image_keeps_records_distinct_witness :
  let E := Examples.env_of_files [] in
  let m1 :=
    (add_image_id E (ImageManager_new 100 true) (Examples.identity "a.png")
       false F32.zero false F32.zero).2 in
  no_duplicates
    (images (add_image_id E m1 (Examples.identity "b.png") false F32.zero false F32.zero).2
       IMAGE_DATA_TYPE_FLOAT4).
Proof.
  intros E m1.
  apply (add_image_keeps_records_distinct E m1 (Examples.identity "b.png") false F32.zero
           false F32.zero).
  intros t s1 s2 i1 i2 H1 H2 _.
  destruct t; destruct s1 as [| [| s1]]; try discriminate H1;
    destruct s2 as [| [| s2]]; try discriminate H2; reflexivity.
Defined.

Lemma count_records_insert (l : list (option Image)) (s : nat) (v : option Image) :
  (s < length l)%nat ->
  count_records (<[s := v]> l)
  = count_records l
    - (match l !! s with Some (Some _) => 1 | _ => 0 end)
    + (match v with Some _ => 1 | None => 0 end).
Proof.
  revert s. induction l as [| x l IH]; intros s Hs; [cbn in Hs; lia |].
  destruct s as [| s].
  - cbn. destruct x, v; lia.
  - cbn in Hs.
    change (<[S s := v]> (x :: l)) with (x :: <[s := v]> l).
    change ((x :: l) !! S s) with (l !! s).
    specialize (IH s ltac:(lia)).
    destruct x; cbn [count_records]; rewrite IH; lia.
Qed.

Lemma count_records_app_None (l : list (option Image)) :
  count_records (l ++ [None]) = count_records l.
Proof.
  induction l as [| x l IH]; [reflexivity |]. destruct x; cbn; rewrite IH; reflexivity.
Qed.

(** X5. [add_image] keeps the counters right: when every
    [tex_num_images[type]] is the number of records of [images[type]] before
    the call, it is so after it. *)
Theorem add_image_keeps_counters (E : Env) (m : ImageManager) (i : ImageIdentity)
    (anim : bool) (frm : float32) (is_vol : bool) (iso : float32) :
  counters_ok m -> counters_ok (add_image_id E m i anim frm is_vol iso).2.
Proof.
  intros Hok t'. set (t := slot_type E m i).
  destruct (find_image (identity_matches i) (images m t) 0) as [[slot img] |] eqn:Hfind.
  - rewrite (add_image_hit E m i anim frm is_vol iso slot img Hfind).
    fold t. cbn [snd]. rewrite images_set_image_at.
    change (tex_num_images (set_image_at m t slot _)) with (tex_num_images m).
    case_decide; [subst t' | apply Hok].
    destruct (find_image_Some _ _ _ _ _ Hfind) as (j & Hj & Hl & _). cbn in Hj. subst j.
    rewrite count_records_insert by (eapply lookup_lt_Some; exact Hl).
    rewrite Hl, Hok. lia.
  - rewrite (add_image_miss E m i anim frm is_vol iso Hfind). cbv zeta. fold t.
    destruct (tex_count m >? max_num_images m); cbn [snd]; [apply Hok |].
    cbn [images tex_num_images set_need_update set_tex_num_images set_images]. unfold upd.
    case_decide; [subst t' | apply Hok].
    destruct (find_free_slot_spec (images m t) 0) as (j & Hj & Hle & Hnone).
    cbn in Hj. rewrite Hj. rewrite Hok.
    destruct (j =? length (images m t))%nat eqn:Hs.
    + apply Nat.eqb_eq in Hs. rewrite count_records_insert by (rewrite length_app; cbn; lia).
      rewrite lookup_app_r by lia. rewrite Hs, Nat.sub_diag. cbn [lookup list_lookup].
      rewrite count_records_app_None. lia.
    + apply Nat.eqb_neq in Hs. rewrite count_records_insert by lia.
      rewrite Hnone by lia. lia.
Qed.

Lemma add_image_keeps_counters_witness :
  let E := Examples.env_of_files [] in
  counters_ok (add_image_id E (ImageManager_new 100 true) (Examples.identity "a.png")
                 false F32.zero false F32.zero).2.
Proof.
  intros E.
  apply (add_image_keeps_counters E (ImageManager_new 100 true) (Examples.identity "a.png")
           false F32.zero false F32.zero).
  intros t. reflexivity.
Defined.

(** X6. [add_image] never moves or drops a record: whatever sits in a slot
    before the call sits in the same slot after it, with the same identity;
    its users are as before, or one more when it is the record of the
    identity that was asked for. *)
Theorem add_image_keeps_slots (E : Env) (m : ImageManager) (i : ImageIdentity)
    (anim : bool) (frm : float32) (is_vol : bool) (iso : float32)
    (t : ImageDataType) (s : nat) (img : Image) :
  images m t !! s = Some (Some img) ->
  exists img',
    images (add_image_id E m i anim frm is_vol iso).2 t !! s = Some (Some img')
    /\ image_identity img' = image_identity img
    /\ (users img' = users img
        \/ (users img' = users img + 1 /\ image_identity img = i)).
Proof.
  intros Hs. set (t0 := slot_type E m i).
  assert (Hlt : (s < length (images m t))%nat) by (eapply lookup_lt_Some; exact Hs).
  destruct (find_image (identity_matches i) (images m t0) 0) as [[slot img0] |] eqn:Hfind.
  - rewrite (add_image_hit E m i anim frm is_vol iso slot img0 Hfind).
    fold t0. cbn [snd]. rewrite images_set_image_at.
    destruct (find_image_Some _ _ _ _ _ Hfind) as (j & Hj & Hl & Hp & _). cbn in Hj. subst j.
    apply identity_matches_iff in Hp.
    case_decide; [subst t | exists img; auto].
    destruct (decide (s = slot)) as [-> | Hne].
    + rewrite list_lookup_insert_eq by exact Hlt.
      rewrite Hl in Hs. injection Hs as ->.
      eexists. split; [reflexivity |]. split.
      * rewrite Hp. apply image_identity_touch. exact Hp.
      * right. split; [apply users_touch | exact Hp].
    + rewrite list_lookup_insert_ne by congruence. exists img. auto.
  - rewrite (add_image_miss E m i anim frm is_vol iso Hfind). cbv zeta. fold t0.
    destruct (tex_count m >? max_num_images m); cbn [snd]; [exists img; auto |].
    cbn [images set_need_update set_tex_num_images set_images]. unfold upd.
    case_decide; [subst t | exists img; auto].
    destruct (find_free_slot_spec (images m t0) 0) as (j & Hj & Hle & Hnone).
    cbn in Hj. rewrite Hj.
    assert (Hne : s <> j).
    { intros ->. rewrite Hnone in Hs by exact Hlt. discriminate. }
    rewrite list_lookup_insert_ne by congruence.
    exists img. split; [| auto].
    destruct (j =? length (images m t0))%nat; [| exact Hs].
    rewrite lookup_app_l by exact Hlt. exact Hs.
Qed.

Lemma add_image_keeps_slots_witness :
  let E := Examples.env_of_files [] in
  let img := Examples.fresh_image "a.png" Examples.byte4_metadata IMAGE_ALPHA_AUTO in
  let m := Examples.manager_with IMAGE_DATA_TYPE_BYTE4 img in
  exists img',
    images (add_image_id E m (Examples.identity "b.png") false F32.zero false F32.zero).2
      IMAGE_DATA_TYPE_BYTE4 !! 0%nat = Some (Some img')
    /\ image_identity img' = image_identity img.
Proof.
  intros E img m.
  destruct (add_image_keeps_slots E m (Examples.identity "b.png") false F32.zero false F32.zero
              IMAGE_DATA_TYPE_BYTE4 0 img) as (img' & H1 & H2 & _); [reflexivity |].
  exists img'. split; assumption.
Defined.

Lemma set_users_id (img : Image) (u : Z) : u = users img -> set_users u img = img.
Proof. intros ->. destruct img. reflexivity. Qed.

Lemma image_at_Some (m : ImageManager) (t : ImageDataType) (slot : Z) (v : option Image) :
  image_at m t slot = Some v ->
  0 <= slot /\ images m t !! Z.to_nat slot = Some v.
Proof.
  unfold image_at. destruct (slot <? 0) eqn:Hneg; [discriminate |].
  apply Z.ltb_ge in Hneg. auto.
Qed.

(** X7. [remove_image] undoes [add_image_user]: on any handle that
    [add_image_user] accepts, the [remove_image] that follows is accepted too
    and leaves every vector, every counter and [need_update] as they were
    before the pair. *)
Theorem remove_image_undoes_add_image_user (m m1 : ImageManager) (flat_slot : Z) :
  add_image_user m flat_slot = Some m1 ->
  exists m2,
    remove_image m1 flat_slot = Some m2
    /\ (forall t, images m2 t = images m t)
    /\ tex_num_images m2 = tex_num_images m
    /\ need_update m2 = need_update m.
Proof.
  unfold add_image_user, remove_image.
  destruct (flattened_slot_to_type_index flat_slot) as [slot type].
  destruct (image_at m type slot) as [[image |] |] eqn:Hat; [| discriminate | discriminate].
  destruct (1 <=? users image) eqn:Hu; [| discriminate]. intros [= <-].
  apply Z.leb_le in Hu.
  destruct (image_at_Some _ _ _ _ Hat) as [Hnn Hl].
  assert (Hlt : (Z.to_nat slot < length (images m type))%nat)
    by (eapply lookup_lt_Some; exact Hl).
  set (image1 := set_users (users image + 1) image).
  assert (Hat1 : image_at (set_image_at m type (Z.to_nat slot) (Some image1)) type slot
                 = Some (Some image1)).
  { unfold image_at. replace (slot <? 0) with false by (symmetry; apply Z.ltb_ge; lia).
    rewrite images_set_image_at, decide_True by reflexivity.
    apply list_lookup_insert_eq. exact Hlt. }
  rewrite Hat1. change (users image1) with (users image + 1).
  replace (1 <=? users image + 1) with true by (symmetry; apply Z.leb_le; lia).
  change (users (set_users ?u image1)) with u.
  replace (users image + 1 - 1 =? 0) with false by (symmetry; apply Z.eqb_neq; lia).
  eexists. split; [reflexivity |]. split; [| split; reflexivity].
  intros t. rewrite !images_set_image_at. case_decide; [subst t | reflexivity].
  rewrite decide_True by reflexivity. rewrite list_insert_insert_eq.
  apply list_insert_id.
  rewrite Hl. do 2 f_equal. unfold image1.
  destruct image. cbn. rewrite Z.add_simpl_r. reflexivity.
Qed.

Lemma remove_image_undoes_add_image_user_witness :
  let img := Examples.fresh_image "a.png" Examples.byte4_metadata IMAGE_ALPHA_AUTO in
  let m := Examples.manager_with IMAGE_DATA_TYPE_BYTE4 img in
  exists m1 m2,
    add_image_user m 1 = Some m1 /\ remove_image m1 1 = Some m2
    /\ forall t, images m2 t = images m t.
Proof.
  intros img m.
  destruct (add_image_user m 1) as [m1 |] eqn:H1; [| discriminate].
  destruct (remove_image_undoes_add_image_user m m1 1 H1) as (m2 & H2 & H3 & _).
  exists m1, m2. split; [reflexivity |]. split; assumption.
Defined.

(* ================================================================== *)
(** * Theorems: loaders, further properties *)


Lemma file_load_failed_placeholder (img : Image) (type : ImageDataType)
    (tex_img : device_memory) :
  exists buf, file_load_failed img type tex_img = set_mem (Some buf) img
              /\ is_placeholder img type buf.
Proof. eexists. split; [reflexivity |]. repeat split. Qed.



(** X9. [file_load_extern_vdb] calls [file_load_image_generic(img, NULL)]
    and has no defined result exactly where that call goes through the null
    pointer. Where the call returns, it returns what the same function
    returns when it is given an [ImageInput] to fill. A record that
    [device_load_image] sends to this loader (OpenVDB build, name ending in
    [.vdb]) and that has one to four channels is inside the defined part.
    There [file_load_extern_vdb] leaves the record with an uploaded buffer
    that carries the record's sampling modes, and touches nothing else of
    the record; when the generic call returns [false] the buffer is the
    one-pixel placeholder. *)
Theorem file_load_extern_vdb_uploads_where_defined (E : Env) (img : Image)
    (type : ImageDataType) :
  (file_load_extern_vdb E img type = None <-> file_load_image_generic_NULL E img = None)
  /\ (file_load_image_generic_NULL E img = Some true ->
      file_load_image_generic E img = Some None)
  /\ (file_load_image_generic_NULL E img = Some false ->
      file_load_image_generic E img = None)
  /\ (with_openvdb E && string_endswith (filename img) ".vdb" = true ->
      1 <= channels (metadata img) <= 4 ->
      is_Some (file_load_extern_vdb E img type))
  /\ (forall img',
        file_load_extern_vdb E img type = Some img' ->
        exists buf,
          img' = set_mem (Some buf) img
          /\ mem_on_device buf = true
          /\ mem_interpolation buf = interpolation img
          /\ mem_extension buf = extension img
          /\ (file_load_image_generic_NULL E img = Some false ->
              is_placeholder img type buf)).
Proof.
  conjuncts.
  - unfold file_load_extern_vdb, allocate_grid_info.
    destruct (file_load_image_generic_NULL E img) as [[|] |];
      [| split; discriminate | split; reflexivity].
    destruct_matches; split; discriminate.
  - unfold file_load_image_generic_NULL, file_load_image_generic.
    destruct_matches; first [discriminate | reflexivity].
  - unfold file_load_image_generic_NULL, file_load_image_generic.
    destruct_matches; first [discriminate | reflexivity].
  - intros Hvdb Hc. apply file_load_extern_vdb_defined; [exact Hvdb |].
    apply andb_true_iff. split; apply Z.leb_le; lia.
  - intros img'. unfold file_load_extern_vdb, allocate_grid_info.
    destruct (file_load_image_generic_NULL E img) as [[|] |]; [| | discriminate].
    + destruct_matches; intros [= <-];
        eexists; (split; [reflexivity |]); repeat split; intros; discriminate.
    + intros [= <-]. eexists. split; [reflexivity |]. repeat split.
Qed.

(* ================================================================== *)
(** * Theorems: device upload coordinator, further properties *)

(** A walk over the slots of every type, for any step that works on its own
    slot only. [imgs] reads the vectors out of the state of the walk. *)
Section SlotWalk.
Context {State : Type} (imgs : State -> ImageDataType -> list (option Image)).
Context (step : ImageDataType -> State -> nat -> State).
Hypothesis step_other :
  forall t' s' st t s, (t', s') <> (t, s) -> imgs (step t' st s') t !! s = imgs st t !! s.
Hypothesis step_length :
  forall t' s' st t, length (imgs (step t' st s') t) = length (imgs st t).

Lemma walk_slots_other (slots : list nat) (st : State) (t' t : ImageDataType) (s : nat) :
  (t' <> t \/ s ∉ slots) ->
  imgs (fold_left (step t') slots st) t !! s = imgs st t !! s.
Proof.
  revert st. induction slots as [| s' slots IH]; intros st Hne; [reflexivity |].
  cbn [fold_left]. rewrite IH.
  - apply step_other. intros [= -> ->].
    destruct Hne as [Hne | Hne]; [congruence |]. apply Hne. left.
  - destruct Hne as [Hne | Hne]; [left; exact Hne | right].
    intros Hin. apply Hne. right. exact Hin.
Qed.

Lemma walk_slots_length (slots : list nat) (st : State) (t' t : ImageDataType) :
  length (imgs (fold_left (step t') slots st) t) = length (imgs st t).
Proof.
  revert st. induction slots as [| s' slots IH]; intros st; [reflexivity |].
  cbn [fold_left]. rewrite IH. apply step_length.
Qed.

Lemma walk_types_length (types : list ImageDataType) (st : State) (t : ImageDataType) :
  length (imgs (fold_left (fun st t' =>
                  fold_left (step t') (seq 0 (length (imgs st t'))) st) types st) t)
  = length (imgs st t).
Proof.
  revert st. induction types as [| t' types IH]; intros st; [reflexivity |].
  cbn [fold_left]. rewrite IH. apply walk_slots_length.
Qed.

Section At.
Variables (t : ImageDataType) (s : nat) (v0 : option Image) (P : option Image -> Prop).
(** The step of the slot itself, run on any state in which the slot still
    holds [v0], leaves something that satisfies [P]. *)
Hypothesis step_at :
  forall st, imgs st t !! s = Some v0 ->
             exists v1, imgs (step t st s) t !! s = Some v1 /\ P v1.

Lemma walk_slots_at (st : State) :
  imgs st t !! s = Some v0 ->
  exists v1, imgs (fold_left (step t) (seq 0 (length (imgs st t))) st) t !! s = Some v1
             /\ P v1.
Proof.
  intros Hs.
  assert (Hlt : (s < length (imgs st t))%nat) by (eapply lookup_lt_Some; exact Hs).
  replace (length (imgs st t)) with (s + S (length (imgs st t) - S s))%nat by lia.
  rewrite seq_app, fold_left_app. cbn [seq fold_left].
  set (st1 := fold_left _ (seq 0 s) st).
  assert (Hst1 : imgs st1 t !! s = Some v0).
  { unfold st1. rewrite walk_slots_other; [exact Hs |].
    right. rewrite list_elem_of_In, in_seq. lia. }
  destruct (step_at st1 Hst1) as (v1 & Hv1 & HP).
  exists v1. split; [| exact HP].
  rewrite walk_slots_other; [exact Hv1 |].
  right. rewrite list_elem_of_In, in_seq. lia.
Qed.

Lemma walk_types_other (types : list ImageDataType) (st : State) :
  t ∉ types ->
  imgs (fold_left (fun st t' =>
          fold_left (step t') (seq 0 (length (imgs st t'))) st) types st) t !! s
  = imgs st t !! s.
Proof.
  revert st. induction types as [| t' types IH]; intros st Hnot; [reflexivity |].
  cbn [fold_left]. rewrite IH.
  - apply walk_slots_other. left. intros ->. apply Hnot. left.
  - intros Hin. apply Hnot. right. exact Hin.
Qed.

Lemma walk_types_at (types : list ImageDataType) (st : State) :
  NoDup types -> t ∈ types ->
  imgs st t !! s = Some v0 ->
  exists v1,
    imgs (fold_left (fun st t' =>
            fold_left (step t') (seq 0 (length (imgs st t'))) st) types st) t !! s
    = Some v1
    /\ P v1.
Proof.
  intros Hnodup Hin. revert st.
  induction types as [| t' types IH]; intros st Hs; [inversion Hin |].
  apply NoDup_cons in Hnodup. destruct Hnodup as [Hnotin Hnodup].
  cbn [fold_left]. destruct (decide (t' = t)) as [-> | Hne].
  - destruct (walk_slots_at st Hs) as (v1 & Hv1 & HP).
    exists v1. split; [| exact HP]. rewrite walk_types_other; assumption.
  - apply IH; [exact Hnodup | |].
    + apply elem_of_cons in Hin. destruct Hin as [-> | Hin]; [congruence | exact Hin].
    + rewrite walk_slots_other; [exact Hs |]. left. exact Hne.
Qed.
End At.
End SlotWalk.





Lemma fold_left_invariant {A B : Type} (I : A -> Prop) (f : A -> B -> A) (l : list B)
    (a : A) :
  (forall a b, I a -> I (f a b)) -> I a -> I (fold_left f l a).
Proof.
  intros Hf. revert a. induction l as [| b l IH]; intros a Ha; [exact Ha |].
  cbn. apply IH, Hf, Ha.
Qed.

Lemma device_free_image_counters (m : ImageManager) (t : ImageDataType) (s : nat) :
  counters_ok m -> counters_ok (device_free_image m t s).
Proof.
  intros Hok t'. unfold device_free_image.
  destruct (images m t !! s) as [[img |] |] eqn:Hs; [| apply Hok | apply Hok].
  cbn [images tex_num_images set_tex_num_images]. rewrite images_set_image_at.
  change (tex_num_images (set_image_at m t s None)) with (tex_num_images m).
  unfold upd. case_decide; [subst t' | apply Hok].
  rewrite count_records_insert by (eapply lookup_lt_Some; exact Hs).
  rewrite Hs, Hok. lia.
Qed.






Lemma count_records_all_empty (l : list (option Image)) :
  (forall s, (s < length l)%nat -> l !! s = Some None) -> count_records l = 0.
Proof.
  induction l as [| x l IH]; intros H; [reflexivity |].
  pose proof (H 0%nat ltac:(cbn; lia)) as H0. cbn in H0. injection H0 as ->.
  cbn. apply IH. intros s Hs. apply (H (S s)). cbn. lia.
Qed.

(** The slot loop of [device_free] leaves the vector of its type without
    records, and the other vectors as they were. *)
Lemma free_slots_at (m : ImageManager) (t : ImageDataType) (s : nat) :
  (s < length (images m t))%nat ->
  images (fold_left (fun m slot => device_free_image m t slot)
            (seq 0 (length (images m t))) m) t !! s = Some None.
Proof.
  intros Hs. destruct (lookup_lt_is_Some_2 _ _ Hs) as [v0 Hv0].
  destruct (walk_slots_at images (fun t m s => device_free_image m t s)
              (fun t' s' st t0 s0 H => device_free_image_other st t' s' t0 s0 H)
              t s v0 (fun v1 => v1 = None)) with (st := m) as (v1 & Hv1 & ->);
    [| exact Hv0 | exact Hv1].
  intros st Hst. exists None. split; [| reflexivity].
  destruct v0 as [img |]; [eapply device_free_image_at; exact Hst |].
  unfold device_free_image. rewrite Hst. exact Hst.
Qed.

Lemma free_slots_other (t t' : ImageDataType) (slots : list nat) (m : ImageManager) :
  t' <> t ->
  images (fold_left (fun m slot => device_free_image m t slot) slots m) t' = images m t'.
Proof.
  intros Hne.
  apply (fold_left_invariant (fun m' => images m' t' = images m t')); [| reflexivity].
  intros m' s <-. unfold device_free_image.
  destruct (images m' t !! s) as [[img |] |]; [| reflexivity | reflexivity].
  cbn [images set_tex_num_images]. rewrite images_set_image_at.
  apply decide_False. exact Hne.
Qed.

(** X13. [device_free] leaves every vector empty, and with it nothing for
    the assertion of the destructor to find; when the counters were right
    before the call, every counter is zero after it. *)
Theorem device_free_empties (m : ImageManager) :
  (forall t, images (device_free m) t = [])
  /\ (counters_ok m -> forall t, tex_num_images (device_free m) t = 0).
Proof.
  unfold device_free.
  set (G := fun (m : ImageManager) (type : ImageDataType) =>
              set_images
                (upd (images (fold_left (fun m slot => device_free_image m type slot)
                                (seq 0 (length (images m type))) m)) type [])
                (fold_left (fun m slot => device_free_image m type slot)
                   (seq 0 (length (images m type))) m)).
  assert (Himg : forall types m0 t,
            images (fold_left G types m0) t
            = if decide (t ∈ types) then [] else images m0 t).
  { induction types as [| t' types IH]; intros m0 t.
    - rewrite decide_False by apply not_elem_of_nil. reflexivity.
    - cbn [fold_left]. rewrite IH.
      destruct (decide (t ∈ types)) as [Hin | Hnot].
      + rewrite decide_True by (right; exact Hin). reflexivity.
      + unfold G at 1. cbn [images set_images]. unfold upd.
        destruct (decide (t = t')) as [-> | Hne].
        * rewrite decide_True by left. reflexivity.
        * rewrite decide_False by (rewrite elem_of_cons; tauto).
          apply free_slots_other. exact Hne. }
  assert (Hcount : forall types m0, counters_ok m0 -> counters_ok (fold_left G types m0)).
  { intros types m0. apply fold_left_invariant. clear m0.
    intros m0 t Hok t'. unfold G. cbn [images tex_num_images set_images]. unfold upd.
    set (m' := fold_left _ _ m0).
    assert (Hok' : counters_ok m').
    { apply (fold_left_invariant counters_ok); [| exact Hok].
      intros a s Ha. apply device_free_image_counters, Ha. }
    case_decide; [subst t' | apply Hok'].
    rewrite Hok'. apply count_records_all_empty. intros s Hs.
    assert (Hlen : length (images m' t) = length (images m0 t)).
    { apply (walk_slots_length images (fun t m s => device_free_image m t s)).
      intros t1 s1 st t2. apply device_free_image_length. }
    rewrite Hlen in Hs. apply free_slots_at. exact Hs. }
  assert (Hall : forall t, images (fold_left G all_types m) t = []).
  { intros t. rewrite Himg. apply decide_True. apply all_types_complete. }
  split; [exact Hall |].
  intros Hok t. rewrite (Hcount all_types m Hok t), Hall. reflexivity.
Qed.

Lemma device_free_empties_witness :
  let img := Examples.fresh_image "a.png" Examples.byte4_metadata IMAGE_ALPHA_AUTO in
  let m := Examples.manager_with IMAGE_DATA_TYPE_BYTE4 img in
  tex_num_images (device_free m) IMAGE_DATA_TYPE_BYTE4 = 0.
Proof.
  intros img m. destruct (device_free_empties m) as [_ H].
  apply H. intros t. destruct t; reflexivity.
Defined.

Section DeviceLoadBuiltin.
Variables (E : Env) (params : SceneParams) (cancel : ImageDataType -> nat -> bool).





End DeviceLoadBuiltin.



Lemma device_free_builtin_step_other (t' : ImageDataType) (s' : nat) (m : ImageManager)
    (t : ImageDataType) (s : nat) :
  (t', s') <> (t, s) ->
  images (device_free_builtin_step t' m s') t !! s = images m t !! s.
Proof.
  intros Hne. unfold device_free_builtin_step.
  destruct (images m t' !! s') as [[img |] |]; [| reflexivity | reflexivity].
  destruct (bool_decide _); [| reflexivity].
  apply device_free_image_other. exact Hne.
Qed.

(** X15. [device_free_builtin] frees exactly the records with builtin
    data: slot by slot, such a record leaves an empty slot behind and every
    other slot is left as it is; the counters stay right. *)
Theorem device_free_builtin_slot_by_slot (m : ImageManager) (t : ImageDataType)
    (s : nat) :
  (forall before,
     images m t !! s = Some before ->
     exists after,
       images (device_free_builtin m) t !! s = Some after
       /\ slot_freed_builtin before after)
  /\ (counters_ok m -> counters_ok (device_free_builtin m)).
Proof.
  unfold device_free_builtin. split.
  - intros before Hs. destruct (all_types_complete t) as [Hnodup Hin].
    refine (walk_types_at images device_free_builtin_step device_free_builtin_step_other
              t s before (slot_freed_builtin before) _ all_types m Hnodup Hin Hs).
    intros st Hst. unfold device_free_builtin_step, slot_freed_builtin. rewrite Hst.
    destruct before as [img |]; [| exists None; auto].
    destruct (bool_decide _); [| exists (Some img); auto].
    exists None. split; [| reflexivity]. eapply device_free_image_at. exact Hst.
  - apply fold_left_invariant. intros a t' Ha.
    apply (fold_left_invariant counters_ok); [| exact Ha].
    intros a' s' Ha'. unfold device_free_builtin_step.
    destruct (images a' t' !! s') as [[img |] |]; [| exact Ha' | exact Ha'].
    destruct (bool_decide _); [| exact Ha']. apply device_free_image_counters, Ha'.
Qed.

Lemma device_free_builtin_slot_by_slot_witness :
  let img :=
    mkImage "render result" "" (Some 1%positive) Examples.byte4_metadata true false F32.zero
      INTERPOLATION_LINEAR EXTENSION_REPEAT 1 IMAGE_ALPHA_AUTO "__builtin_srgb" false
      F32.zero None "" in
  let m := Examples.manager_with IMAGE_DATA_TYPE_BYTE4 img in
  images (device_free_builtin m) IMAGE_DATA_TYPE_BYTE4 !! 0%nat = Some None
  /\ tex_num_images (device_free_builtin m) IMAGE_DATA_TYPE_BYTE4 = 0.
Proof.
  intros img m.
  destruct (device_free_builtin_slot_by_slot m IMAGE_DATA_TYPE_BYTE4 0) as [H Hc].
  destruct (H (Some img) eq_refl) as (after & Hafter & Hfree).
  split; [rewrite Hafter; f_equal; exact Hfree |].
  rewrite Hc; [reflexivity |]. intros t. destruct t; reflexivity.
Defined.

(* ================================================================== *)
(** * Theorems: pixel pipeline, further properties *)

Section Conversion.
Context {T : Type} (St : Storage T).

Lemma lookup_rd (b : list T) (k : nat) : (k < length b)%nat -> b !! k = Some (rd St b k).
Proof.
  intros Hk. unfold rd. destruct (lookup_lt_is_Some_2 _ _ Hk) as [v ->]. reflexivity.
Qed.

(** Iteration [p] of a conversion loop, started on a buffer that agrees
    with the input up to pixel [p], writes the expanded pixel. *)
Lemma conversion_pixel (body : nat -> list T -> list T) (expected : list T -> nat -> list T)
    (n : nat) (b : list T) (p c : nat) :
  (forall i b j, (j < 4 * i \/ 4 * i + 4 <= j)%nat -> body i b !! j = b !! j) ->
  (forall i b, length (body i b) = length b) ->
  (forall b', length b' = length b ->
              (forall k, (k < 4 * p + 4)%nat -> b' !! k = b !! k) ->
              body p b' !! (p * 4 + c)%nat = expected b p !! c) ->
  (p < n)%nat -> (c < 4)%nat ->
  loop_down n body b !! (p * 4 + c)%nat = expected b p !! c.
Proof.
  intros Hframe Hlength Hbody Hp Hc.
  destruct (loop_down_at body Hframe Hlength n b p (p * 4 + c))
    as (b' & Hl & Hagree & Hres); [exact Hp | lia |].
  rewrite Hres. apply Hbody; assumption.
Qed.

(** X16. The RGBA conversion of the loader is right for every pixel and
    every channel, although it runs in place: with one to four input
    channels, pixel [p] of the result holds the grey sample three times and
    unit alpha, or the grey sample three times and its alpha, or the RGB
    samples and unit alpha, or the four samples as they were; and for a CMYK
    JPEG each ink against black with unit alpha. *)
Theorem convert_to_rgba_pixels (cmyk : bool) (components : Z) (n : nat) (b : list T)
    (p c : nat) :
  1 <= components <= 4 ->
  (p < n)%nat -> (c < 4)%nat -> (n * 4 <= length b)%nat ->
  convert_to_rgba St cmyk components n b !! (p * 4 + c)%nat
  = expanded_pixel St cmyk components b p !! c.
Proof.
  intros Hcomp Hp Hc Hlen. unfold convert_to_rgba, expanded_pixel.
  destruct cmyk.
  - apply (conversion_pixel (cmyk_pixel St)
             (fun b p => expanded_pixel St true components b p));
      [frame_of @cmyk_pixel | length_of @cmyk_pixel | | exact Hp | exact Hc].
    intros b' Hl Hagree. unfold cmyk_pixel, expanded_pixel. cbv zeta.
    rewrite !(rd_agree St b b') by (apply Hagree; lia).
    destruct c as [| [| [| [| c]]]]; [| | | | lia];
      rewrite ?list_lookup_insert_ne by lia;
      (rewrite list_lookup_insert_eq by (rewrite ?length_insert; lia));
      rewrite ?Nat.add_0_r; reflexivity.
  - destruct (components =? 2) eqn:H2.
    { replace (components =? 1) with false by (symmetry; apply Z.eqb_neq; lia).
      apply (conversion_pixel (gray_alpha_pixel St)
               (fun b p => [rd St b (p * 2); rd St b (p * 2); rd St b (p * 2);
                            rd St b (p * 2 + 1)]));
        [frame_of @gray_alpha_pixel | length_of @gray_alpha_pixel | | exact Hp | exact Hc].
      intros b' Hl Hagree. unfold gray_alpha_pixel. cbv zeta.
      destruct c as [| [| [| [| c]]]]; [| | | | lia];
        rewrite ?list_lookup_insert_ne by lia;
        (rewrite list_lookup_insert_eq by (rewrite ?length_insert; lia));
        cbn [lookup list_lookup]; f_equal; unfold rd;
        rewrite ?list_lookup_insert_ne by lia; rewrite ?Nat.add_0_r;
        rewrite Hagree by lia; reflexivity. }
    destruct (components =? 3) eqn:H3.
    { replace (components =? 1) with false by (symmetry; apply Z.eqb_neq; lia).
      apply (conversion_pixel (rgb_pixel St)
               (fun b p => [rd St b (p * 3); rd St b (p * 3 + 1); rd St b (p * 3 + 2);
                            one St]));
        [frame_of @rgb_pixel | length_of @rgb_pixel | | exact Hp | exact Hc].
      intros b' Hl Hagree. unfold rgb_pixel. cbv zeta.
      destruct c as [| [| [| [| c]]]]; [| | | | lia];
        rewrite ?list_lookup_insert_ne by lia;
        (rewrite list_lookup_insert_eq by (rewrite ?length_insert; lia));
        cbn [lookup list_lookup]; f_equal; unfold rd;
        rewrite ?list_lookup_insert_ne by lia; rewrite ?Nat.add_0_r;
        rewrite ?Hagree by lia; reflexivity. }
    destruct (components =? 1) eqn:H1.
    { apply (conversion_pixel (gray_pixel St)
               (fun b p => [rd St b p; rd St b p; rd St b p; one St]));
        [frame_of @gray_pixel | length_of @gray_pixel | | exact Hp | exact Hc].
      intros b' Hl Hagree. unfold gray_pixel. cbv zeta.
      destruct c as [| [| [| [| c]]]]; [| | | | lia];
        rewrite ?list_lookup_insert_ne by lia;
        (rewrite list_lookup_insert_eq by (rewrite ?length_insert; lia));
        cbn [lookup list_lookup]; f_equal; unfold rd;
        rewrite ?list_lookup_insert_ne by lia;
        rewrite ?Hagree by lia; reflexivity. }
    rewrite lookup_rd by lia.
    destruct c as [| [| [| [| c]]]]; [| | | | lia]; rewrite ?Nat.add_0_r; reflexivity.
Qed.
End Conversion.

Lemma convert_to_rgba_pixels_witness :
  convert_to_rgba Storage_uchar false 3 2 [10; 20; 30; 40; 50; 60; 0; 0]
  = [10; 20; 30; 255; 40; 50; 60; 255]
  /\ convert_to_rgba Storage_uchar false 3 2 [10; 20; 30; 40; 50; 60; 0; 0] !! 6%nat
     = Some 60.
Proof.
  split; [reflexivity |].
  apply (convert_to_rgba_pixels Storage_uchar false 3 2 [10; 20; 30; 40; 50; 60; 0; 0] 1 2);
    [lia | lia | lia | cbn; lia].
Defined.

Section FiniteGuard.
Context {T : Type} (St : Storage T).

Lemma finite_guard_single_from (n : nat) (fuel k : nat) (b : list T) (i : nat) :
  (n - k <= fuel)%nat -> (n <= length b)%nat ->
  loop_step fuel 1 n k (zero_if_not_finite St) b !! i
  = if (k <=? i)%nat && (i <? n)%nat && negb (isfinite St (rd St b i))
    then Some (storage_zero St) else b !! i.
Proof.
  revert k b. induction fuel as [| fuel IH]; intros k b Hfuel Hlen.
  - cbn [loop_step].
    replace ((k <=? i)%nat && (i <? n)%nat) with false; [reflexivity |].
    symmetry. apply andb_false_iff.
    destruct (Nat.leb_spec k i); [right; apply Nat.ltb_ge; lia | left; reflexivity].
  - cbn [loop_step]. destruct (Nat.ltb_spec k n) as [Hk | Hk].
    + assert (Hlen' : (n <= length (zero_if_not_finite St k b))%nat).
      { unfold zero_if_not_finite. destruct (negb _); rewrite ?length_insert; exact Hlen. }
      rewrite IH by (try exact Hlen'; lia).
      destruct (decide (i = k)) as [-> | Hne].
      * replace (k + 1 <=? k)%nat with false by (symmetry; apply Nat.leb_gt; lia).
        rewrite Nat.leb_refl. replace (k <? n)%nat with true by (symmetry; apply Nat.ltb_lt; lia).
        cbn [andb]. unfold zero_if_not_finite.
        destruct (negb (isfinite St (rd St b k))); [| reflexivity].
        apply list_lookup_insert_eq. lia.
      * assert (Hsame : zero_if_not_finite St k b !! i = b !! i).
        { unfold zero_if_not_finite. destruct (negb _); [| reflexivity].
          apply list_lookup_insert_ne. congruence. }
        rewrite (rd_agree St _ _ _ Hsame), Hsame.
        replace (k + 1 <=? i)%nat with (k <=? i)%nat; [reflexivity |].
        destruct (Nat.leb_spec k i); symmetry; [apply Nat.leb_le | apply Nat.leb_gt]; lia.
    + replace ((k <=? i)%nat && (i <? n)%nat) with false; [reflexivity |].
      symmetry. apply andb_false_iff.
      destruct (Nat.leb_spec k i); [right; apply Nat.ltb_ge; lia | left; reflexivity].
Qed.

(** X17. The finite guard over a single-channel buffer visits every
    sample: each of the first [num_pixels] samples that is not finite comes
    out as zero, and every other sample of the buffer is left as it is. *)
Theorem finite_guard_single_zeroes (n : nat) (b : list T) (i : nat) :
  (n <= length b)%nat ->
  finite_guard_single St n b !! i
  = if (i <? n)%nat && negb (isfinite St (rd St b i))
    then Some (storage_zero St) else b !! i.
Proof.
  intros Hlen. unfold finite_guard_single.
  rewrite finite_guard_single_from by (try exact Hlen; lia). reflexivity.
Qed.

Lemma loop_step_identity (body : nat -> list T -> list T) (step n : nat) (b : list T) :
  (forall i, (i < n)%nat -> body i b = b) ->
  forall fuel k, loop_step fuel step n k body b = b.
Proof.
  intros Hbody. induction fuel as [| fuel IH]; intros k; [reflexivity |].
  cbn [loop_step]. destruct (Nat.ltb_spec k n); [| reflexivity].
  rewrite Hbody by assumption. apply IH.
Qed.

(** X18. The finite guard never alters a buffer whose samples are all
    finite, in the four-channel loop or in the single-channel one. *)
Theorem finite_guard_keeps_finite (is_rgba : bool) (n : nat) (b : list T) :
  (n * (if is_rgba then 4 else 1) <= length b)%nat ->
  Forall (fun v => isfinite St v = true) b ->
  finite_guard St is_rgba n b = b.
Proof.
  intros Hlen Hfin. unfold finite_guard.
  destruct (bool_decide _); [| reflexivity].
  assert (Hrd : forall k, (k < length b)%nat -> isfinite St (rd St b k) = true).
  { intros k Hk. rewrite Forall_lookup in Hfin.
    destruct (lookup_lt_is_Some_2 _ _ Hk) as [v Hv].
    unfold rd. rewrite Hv. apply (Hfin k v Hv). }
  destruct is_rgba.
  - unfold finite_guard_rgba. apply loop_step_identity. intros i Hi.
    unfold zero_rgba_if_not_finite. cbv zeta.
    rewrite !Hrd by lia. reflexivity.
  - unfold finite_guard_single. apply loop_step_identity. intros i Hi.
    unfold zero_if_not_finite. rewrite Hrd by lia. reflexivity.
Qed.
End FiniteGuard.

Lemma finite_guard_single_zeroes_witness :
  finite_guard_single Storage_float 2 [S754_nan; S754_infinity false] !! 1%nat
  = Some F32.zero.
Proof.
  apply (finite_guard_single_zeroes Storage_float 2 [S754_nan; S754_infinity false] 1).
  cbn. lia.
Defined.

Lemma finite_guard_keeps_finite_witness :
  finite_guard Storage_float true 2
    [F32.one; F32.zero; F32.one; F32.one; F32.zero; F32.one; F32.zero; F32.one]
  = [F32.one; F32.zero; F32.one; F32.one; F32.zero; F32.one; F32.zero; F32.one].
Proof.
  apply (finite_guard_keeps_finite Storage_float true 2).
  - cbn. lia.
  - repeat constructor.
Defined.

(* ================================================================== *)
(** * Theorems: metadata probe, further properties *)

Lemma detect_colorspace_keeps_width (E : Env) (md : ImageMetaData) (file_format : string) :
  channels (metadata_detect_colorspace E md file_format) = channels md
  /\ is_rgba_type (type (metadata_detect_colorspace E md file_format))
     = is_rgba_type (type md).
Proof.
  unfold metadata_detect_colorspace. cbn [colorspace set_md_colorspace].
  destruct (String.eqb _ _); [split; reflexivity |].
  destruct (String.eqb _ _); [split; reflexivity |].
  destruct md as [f h c w hh d b t csp s]. cbn.
  destruct t; split; reflexivity.
Qed.

(** X19. A probe that succeeds reports a four-channel pixel type exactly
    when it reports more than one channel, whatever the source of the image
    (host callback, OpenVDB grid or image file) and whatever the colour space
    does to the type; a probe that fails hands back the freshly constructed
    metadata with the colour space that was asked for. *)
Theorem probe_type_matches_channels (E : Env) (fname gname : string)
    (builtin : option positive) (cs : ustring) :
  let r := get_image_metadata_file E fname gname builtin cs in
  (r.1 = true -> is_rgba_type (type r.2) = (channels r.2 >? 1))
  /\ (r.1 = false -> r.2 = set_md_colorspace cs (default_metadata E)).
Proof.
  cbv zeta. unfold get_image_metadata_file.
  assert (Hwide : forall c t4 t1,
            is_rgba_type t4 = true -> is_rgba_type t1 = false ->
            is_rgba_type (wide_or_single c t4 t1) = (c >? 1)).
  { intros c t4 t1 H4 H1. unfold wide_or_single. destruct (c >? 1); assumption. }
  destruct builtin as [b |].
  - destruct (builtin_image_info_cb E) as [cb |]; cbn [fst snd];
      [| split; [discriminate | reflexivity]].
    split; [intros _ | discriminate].
    match goal with |- context [metadata_detect_colorspace E ?md ?f] =>
      destruct (detect_colorspace_keeps_width E md f) as [-> ->] end.
    destruct (is_float _); cbn [type channels set_md_type]; apply Hwide; reflexivity.
  - repeat match goal with
           | |- context [if ?x then _ else _] =>
               lazymatch x with
               | context [if _ then _ else _] => fail
               | _ => destruct x eqn:?
               end
           | |- context [match image_input_open ?a ?b ?c with _ => _ end] =>
               destruct (image_input_open a b c) eqn:?
           | |- context [let '(_, _) := ?x in _] => destruct x as [[? ?] ?]
           end; cbn [fst snd];
      try (split; [discriminate | reflexivity]);
      (split; [intros _ | discriminate]);
      try reflexivity;
      try (match goal with |- context [metadata_detect_colorspace E ?md ?f] =>
             destruct (detect_colorspace_keeps_width E md f) as [-> ->] end;
           cbn [type channels]; apply Hwide; reflexivity).
Qed.

Lemma probe_type_matches_channels_witness :
  let E := Examples.env_of_files [("a.png"%string, Examples.byte_file)] in
  let r := get_image_metadata_file E "a.png" "" None "__builtin_srgb" in
  type r.2 = IMAGE_DATA_TYPE_BYTE4 /\ is_rgba_type (type r.2) = (channels r.2 >? 1).
Proof.
  intros E r. split; [reflexivity |].
  destruct (probe_type_matches_channels E "a.png" "" None "__builtin_srgb") as [H _].
  apply H. reflexivity.
Defined.

(* ================================================================== *)
(** * Theorems: strings split at the last dot *)

Lemma append_cons (c : Ascii.ascii) (s t : string) :
  String.append (String c s) t = String c (String.append s t).
Proof. reflexivity. Qed.

Lemma rfind_dot_None (s : string) (pos : nat) :
  rfind_dot s pos = None <-> no_dot s = true.
Proof.
  revert pos. induction s as [| c s IH]; intros pos; [cbn; tauto |].
  cbn [rfind_dot no_dot]. specialize (IH (S pos)).
  destruct (rfind_dot s (S pos)) as [p |].
  - split; [discriminate |]. intros H. apply andb_true_iff in H. destruct H as [_ H].
    apply IH in H. discriminate.
  - destruct (Ascii.eqb c (Ascii.ascii_of_nat 46)); cbn [negb andb].
    + split; discriminate.
    + split; [intros _; apply IH; reflexivity | reflexivity].
Qed.

Lemma rfind_dot_Some (s : string) (pos p : nat) :
  rfind_dot s pos = Some p ->
  exists a b, s = dotted a b /\ p = (pos + String.length a)%nat /\ no_dot b = true.
Proof.
  revert pos. induction s as [| c s IH]; intros pos H; [discriminate |].
  cbn [rfind_dot] in H. destruct (rfind_dot s (S pos)) as [p' |] eqn:Hrest.
  - injection H as ->. destruct (IH _ Hrest) as (a & b & -> & -> & Hb).
    exists (String c a), b. split; [reflexivity |]. split; [cbn; lia | exact Hb].
  - destruct (Ascii.eqb c (Ascii.ascii_of_nat 46)) eqn:Hc; [| discriminate].
    injection H as <-. apply Ascii.eqb_eq in Hc. subst c.
    exists EmptyString, s. split; [reflexivity |]. split; [cbn; lia |].
    apply (rfind_dot_None s (S pos)). exact Hrest.
Qed.

Lemma rfind_dot_dotted (a b : string) (pos : nat) :
  no_dot b = true -> rfind_dot (dotted a b) pos = Some (pos + String.length a)%nat.
Proof.
  intros Hb. revert pos. induction a as [| c a IH]; intros pos.
  - change (dotted "" b) with (String (Ascii.ascii_of_nat 46) b). cbn [rfind_dot].
    apply (rfind_dot_None b (S pos)) in Hb. rewrite Hb, Ascii.eqb_refl.
    cbn [String.length]. f_equal. lia.
  - unfold dotted in *. rewrite append_cons. cbn [rfind_dot]. rewrite IH.
    cbn [String.length]. f_equal. lia.
Qed.

Lemma substring_prefix (a b : string) :
  String.substring 0 (String.length a) (String.append a b) = a.
Proof.
  induction a as [| c a IH]; [destruct b; reflexivity |].
  rewrite append_cons. cbn [String.length String.substring]. rewrite IH. reflexivity.
Qed.

Lemma substring_all (b : string) : String.substring 0 (String.length b) b = b.
Proof.
  induction b as [| c b IH]; [reflexivity |]. cbn. rewrite IH. reflexivity.
Qed.

Lemma substring_suffix (a b : string) :
  String.substring (String.length a) (String.length b) (String.append a b) = b.
Proof.
  induction a as [| c a IH]; [apply substring_all |].
  rewrite append_cons. cbn [String.length String.substring]. exact IH.
Qed.

Lemma length_dotted (a b : string) :
  String.length (dotted a b) = (String.length a + S (String.length b))%nat.
Proof.
  unfold dotted. rewrite length_append. reflexivity.
Qed.

Lemma split_last_dot_dotted (a b : string) :
  no_dot b = true -> Merge.split_last_dot (dotted a b) = Some (a, b).
Proof.
  intros Hb. unfold Merge.split_last_dot. rewrite rfind_dot_dotted by exact Hb.
  cbn [Nat.add]. rewrite length_dotted. f_equal. f_equal.
  - apply substring_prefix.
  - replace (String.length a + S (String.length b) - (String.length a + 1))%nat
      with (String.length b) by lia.
    replace (String.length a + 1)%nat with (String.length (String.append a ".")).
    + unfold dotted.
      replace (String.append a (String.append "." b))
        with (String.append (String.append a ".") b).
      * apply substring_suffix.
      * clear. induction a as [| c a IH]; [reflexivity |].
        rewrite !append_cons, IH. reflexivity.
    + rewrite length_append. reflexivity.
Qed.

Lemma split_last_dot_Some (s a b : string) :
  Merge.split_last_dot s = Some (a, b) <-> s = dotted a b /\ no_dot b = true.
Proof.
  split.
  - intros H. unfold Merge.split_last_dot in H.
    destruct (rfind_dot s 0) as [p |] eqn:Hp; [| discriminate].
    destruct (rfind_dot_Some _ _ _ Hp) as (a' & b' & -> & _ & Hb').
    pose proof (split_last_dot_dotted a' b' Hb') as Hsplit.
    unfold Merge.split_last_dot in Hsplit. rewrite Hp in Hsplit.
    rewrite Hsplit in H. injection H as <- <-. auto.
  - intros [-> Hb]. apply split_last_dot_dotted. exact Hb.
Qed.

Lemma split_last_dot_None (s : string) :
  Merge.split_last_dot s = None <-> no_dot s = true.
Proof.
  unfold Merge.split_last_dot. rewrite <- (rfind_dot_None s 0).
  destruct (rfind_dot s 0); split; congruence.
Qed.

(* ================================================================== *)
(** * Theorems: mip-mapped texture files *)

(** The stem and the extension test that [get_tx] and [get_mip_map_path]
    compute from the last dot of a file name. *)
Lemma tx_extension_test (fname : string) :
  match rfind_dot fname 0 with
  | Some i =>
      String.eqb (String.substring (i + 1) (String.length fname - (i + 1)) fname) "tx"
  | None => false
  end = true ->
  exists stem, fname = String.append stem ".tx".
Proof.
  pose proof (split_last_dot_Some fname) as Hsplit. unfold Merge.split_last_dot in Hsplit.
  destruct (rfind_dot fname 0) as [i |]; [| discriminate].
  intros Htx. apply String.eqb_eq in Htx.
  destruct (Hsplit (String.substring 0 i fname) "tx"%string) as [H _].
  destruct H as [H _]; [rewrite Htx; reflexivity |].
  eexists. exact H.
Qed.

(** X20. [get_mip_map_path] answers the empty string or the path of an
    existing file whose name ends in [.tx]: the file itself, or the file
    name with [.tx] in place of what follows its last dot. *)
Theorem get_mip_map_path_names_tx_file (E : Env) (fname : string) :
  get_mip_map_path E fname = ""%string
  \/ (path_exists E (get_mip_map_path E fname) = true
      /\ exists stem,
           get_mip_map_path E fname = String.append stem ".tx"
           /\ (fname = String.append stem ".tx" \/ fname = stem
               \/ exists ext, fname = dotted stem ext /\ no_dot ext = true)).
Proof.
  unfold get_mip_map_path.
  destruct (path_exists E fname) eqn:Hexists; cbn [negb]; [| left; reflexivity].
  pose proof (tx_extension_test fname) as Htx.
  pose proof (split_last_dot_Some fname) as Hsplit. unfold Merge.split_last_dot in Hsplit.
  destruct (match rfind_dot fname 0 with Some _ => _ | None => false end) eqn:Hext.
  - right. split; [exact Hexists |]. destruct (Htx eq_refl) as [stem Hstem].
    exists stem. split; [exact Hstem | left; exact Hstem].
  - match goal with |- context [path_exists E ?tx] => destruct (path_exists E tx) eqn:Htxe end;
      [| left; reflexivity].
    right. split; [exact Htxe |]. eexists. split; [reflexivity |].
    destruct (rfind_dot fname 0) as [i |]; [| right; left; reflexivity].
    right. right. eexists.
    apply (Hsplit (String.substring 0 i fname)
             (String.substring (i + 1) (String.length fname - (i + 1)) fname)).
    reflexivity.
Qed.

Lemma set_filename_id (img : Image) : set_filename (filename img) img = img.
Proof. destruct img. reflexivity. Qed.

Lemma append_tx_not_empty (stem : string) : String.eqb (String.append stem ".tx") "" = false.
Proof. destruct stem; reflexivity. Qed.

(** X21. Without automatic conversion and without a cache directory
    [get_tx] finds what [get_mip_map_path] finds: it answers [false] and
    leaves the record alone when that path is empty, and otherwise answers
    [true] with the record's file name set to that path. *)
Theorem get_tx_follows_mip_map_path (E : Env) (image : Image) :
  get_tx E image false None
  = if String.eqb (get_mip_map_path E (filename image)) ""
    then (false, image)
    else (true, set_filename (get_mip_map_path E (filename image)) image).
Proof.
  unfold get_tx, get_mip_map_path.
  destruct (path_exists E (filename image)) eqn:Hexists; cbn [negb]; [| reflexivity].
  pose proof (tx_extension_test (filename image)) as Htx.
  destruct (match rfind_dot (filename image) 0 with Some _ => _ | None => false end)
    eqn:Hext.
  - destruct (Htx eq_refl) as [stem Hstem].
    rewrite set_filename_id. rewrite Hstem at 1. rewrite append_tx_not_empty. reflexivity.
  - match goal with |- context [path_exists E ?tx] =>
      destruct (path_exists E tx) eqn:Htxe end; [| reflexivity].
    rewrite append_tx_not_empty. reflexivity.
Qed.

(* ================================================================== *)
(** * Theorems: channel names *)

(** X22. [parse_channel_name] and the dotted channel names invert each
    other. Without views a name parses to (layer, pass, channel) exactly when
    it is [layer.pass.channel] with no dot in the pass and the channel; with
    views exactly when it is [layer.pass.view.channel] with no dot in the
    pass, the view and the channel, the render layer being [layer.view]. A
    name with fewer dots does not parse. *)
Theorem parse_channel_name_inverts_dotted (nm l p c : string) :
  (Merge.parse_channel_name nm false = Some (l, p, c)
   <-> nm = dotted (dotted l p) c /\ no_dot p = true /\ no_dot c = true)
  /\ (Merge.parse_channel_name nm true = Some (l, p, c)
      <-> exists l' v,
            l = dotted l' v /\ nm = dotted (dotted (dotted l' p) v) c
            /\ no_dot p = true /\ no_dot v = true /\ no_dot c = true).
Proof.
  unfold Merge.parse_channel_name. split.
  - split.
    + destruct (Merge.split_last_dot nm) as [[nm1 c1] |] eqn:H1; [| discriminate].
      destruct (Merge.split_last_dot nm1) as [[nm2 p2] |] eqn:H2; [| discriminate].
      intros [= <- <- <-].
      apply split_last_dot_Some in H1, H2. destruct H1 as [-> Hc], H2 as [-> Hp]. auto.
    + intros (-> & Hp & Hc).
      rewrite split_last_dot_dotted by exact Hc.
      rewrite split_last_dot_dotted by exact Hp. reflexivity.
  - split.
    + destruct (Merge.split_last_dot nm) as [[nm1 c1] |] eqn:H1; [| discriminate].
      destruct (Merge.split_last_dot nm1) as [[nm2 v2] |] eqn:H2; [| discriminate].
      destruct (Merge.split_last_dot nm2) as [[nm3 p3] |] eqn:H3; [| discriminate].
      intros [= <- <- <-].
      apply split_last_dot_Some in H1, H2, H3.
      destruct H1 as [-> Hc], H2 as [-> Hv], H3 as [-> Hp].
      exists nm3, v2. auto.
    + intros (l' & v & -> & -> & Hp & Hv & Hc).
      rewrite split_last_dot_dotted by exact Hc.
      rewrite split_last_dot_dotted by exact Hv.
      rewrite split_last_dot_dotted by exact Hp. reflexivity.
Qed.

Lemma parse_channel_name_inverts_dotted_witness :
  Merge.parse_channel_name "View Layer.Combined.R" false
  = Some ("View Layer", "Combined", "R")%string
  /\ Merge.parse_channel_name "View Layer.Combined.left.R" true
     = Some ("View Layer.left", "Combined", "R")%string.
Proof.
  split.
  - apply (parse_channel_name_inverts_dotted "View Layer.Combined.R" "View Layer"
             "Combined" "R"). repeat split.
  - apply (parse_channel_name_inverts_dotted "View Layer.Combined.left.R" "View Layer.left"
             "Combined" "R"). exists "View Layer"%string, "left"%string. repeat split.
Defined.

(* ================================================================== *)
(** * Theorems: channel merge *)

Lemma map_accum_app {S A B : Type} (f : S -> A -> S * B) (s : S) (l1 l2 : list A) :
  Merge.map_accum f s (l1 ++ l2)
  = let r1 := Merge.map_accum f s l1 in
    let r2 := Merge.map_accum f r1.1 l2 in
    (r2.1, r1.2 ++ r2.2).
Proof.
  revert s. induction l1 as [| a l1 IH]; intros s.
  - cbn. destruct (Merge.map_accum f s l2). reflexivity.
  - cbn. destruct (f s a) as [s1 b]. rewrite IH. cbv zeta.
    destruct (Merge.map_accum f s1 l1) as [s2 bs]. cbn [fst snd].
    destruct (Merge.map_accum f s2 l2) as [s3 bs']. reflexivity.
Qed.

(** The nested walk of [merge_channels] over images, layers and passes is
    one walk over all passes in order. *)
Lemma merge_layer_flat (st : Merge.Channels) (layer : Merge.MergeImageLayer) :
  let r := Merge.merge_layer st layer in
  let r' := Merge.map_accum merge_counted_pass st
              (map (pair (Merge.samples layer)) (Merge.passes layer)) in
  r.1 = r'.1
  /\ map (pair (Merge.samples r.2)) (Merge.passes r.2) = r'.2
  /\ Merge.name r.2 = Merge.name layer /\ Merge.samples r.2 = Merge.samples layer
  /\ length (Merge.passes r.2) = length (Merge.passes layer).
Proof.
  cbv zeta. unfold Merge.merge_layer.
  assert (H : forall ps st0,
            let r := Merge.map_accum (Merge.merge_pass (Merge.samples layer)) st0 ps in
            let r' := Merge.map_accum merge_counted_pass st0
                        (map (pair (Merge.samples layer)) ps) in
            r.1 = r'.1 /\ map (pair (Merge.samples layer)) r.2 = r'.2
            /\ length r.2 = length ps).
  { induction ps as [| p ps IH]; intros st0; [cbn; auto |].
    cbn [map Merge.map_accum].
    destruct (Merge.merge_pass (Merge.samples layer) st0 p) as [st1 p'] eqn:Hp.
    assert (Hc : merge_counted_pass st0 (Merge.samples layer, p)
                 = (st1, (Merge.samples layer, p'))).
    { unfold merge_counted_pass. cbn [fst snd]. rewrite Hp. reflexivity. }
    rewrite Hc. specialize (IH st1). cbv zeta in IH.
    destruct (Merge.map_accum (Merge.merge_pass _) st1 ps) as [st2 ps'].
    destruct (Merge.map_accum merge_counted_pass st1 _) as [st2' ps''].
    cbn [fst snd] in *. destruct IH as (-> & <- & Hlen).
    split; [reflexivity |]. split; [reflexivity |]. cbn. lia. }
  specialize (H (Merge.passes layer) st). cbv zeta in H.
  destruct (Merge.map_accum (Merge.merge_pass _) st _) as [st1 ps'].
  cbn [fst snd Merge.samples Merge.passes Merge.name] in *.
  destruct H as (H1 & H2 & H3). auto.
Qed.

Lemma merge_image_flat (st : Merge.Channels) (image : Merge.MergeImage) :
  let r := Merge.merge_image st image in
  let r' := Merge.map_accum merge_counted_pass st (all_passes [image]) in
  r.1 = r'.1 /\ all_passes [r.2] = r'.2
  /\ Merge.in_ r.2 = Merge.in_ image /\ Merge.filepath r.2 = Merge.filepath image
  /\ Forall2 (fun l l' => Merge.name l' = Merge.name l
                          /\ Merge.samples l' = Merge.samples l
                          /\ length (Merge.passes l') = length (Merge.passes l))
       (Merge.layers image) (Merge.layers r.2).
Proof.
  cbv zeta. unfold Merge.merge_image, all_passes. cbn [flat_map]. rewrite !app_nil_r.
  assert (H : forall ls st0,
            let r := Merge.map_accum Merge.merge_layer st0 ls in
            let r' := Merge.map_accum merge_counted_pass st0
                        (flat_map (fun layer =>
                           map (pair (Merge.samples layer)) (Merge.passes layer)) ls) in
            r.1 = r'.1
            /\ flat_map (fun layer =>
                 map (pair (Merge.samples layer)) (Merge.passes layer)) r.2 = r'.2
            /\ Forall2 (fun l l' => Merge.name l' = Merge.name l
                                    /\ Merge.samples l' = Merge.samples l
                                    /\ length (Merge.passes l') = length (Merge.passes l))
                 ls r.2).
  { induction ls as [| l ls IH]; intros st0; [cbn; auto |].
    cbn [flat_map Merge.map_accum]. rewrite map_accum_app. cbv zeta.
    pose proof (merge_layer_flat st0 l) as Hl. cbv zeta in Hl.
    destruct (Merge.merge_layer st0 l) as [st1 l'].
    destruct (Merge.map_accum merge_counted_pass st0 _) as [st1' ps1].
    cbn [fst snd] in *. destruct Hl as (<- & Hps & Hn & Hs & Hlen).
    specialize (IH st1). cbv zeta in IH.
    destruct (Merge.map_accum Merge.merge_layer st1 ls) as [st2 ls'].
    destruct (Merge.map_accum merge_counted_pass st1 _) as [st2' ps2].
    cbn [fst snd flat_map] in *. destruct IH as (<- & Hps2 & Hall).
    split; [reflexivity |]. split; [rewrite Hps, Hps2; reflexivity |].
    constructor; auto. }
  specialize (H (Merge.layers image) st). cbv zeta in H.
  destruct (Merge.map_accum Merge.merge_layer st _) as [st1 ls'].
  cbn [fst snd Merge.layers Merge.in_ Merge.filepath flat_map] in *.
  destruct H as (H1 & H2 & H3). auto.
Qed.

Lemma all_passes_cons (image : Merge.MergeImage) (images : list Merge.MergeImage) :
  all_passes (image :: images) = all_passes [image] ++ all_passes images.
Proof. unfold all_passes. cbn [flat_map]. rewrite app_nil_r. reflexivity. Qed.

Lemma merge_images_flat (images : list Merge.MergeImage) (st : Merge.Channels) :
  let r := Merge.map_accum Merge.merge_image st images in
  let r' := Merge.map_accum merge_counted_pass st (all_passes images) in
  r.1 = r'.1 /\ all_passes r.2 = r'.2
  /\ Forall2 (fun i i' => Merge.in_ i' = Merge.in_ i /\ Merge.filepath i' = Merge.filepath i)
       images r.2.
Proof.
  revert st. induction images as [| image images IH]; intros st; [cbn; auto |].
  cbv zeta. rewrite all_passes_cons.
  cbn [Merge.map_accum]. rewrite map_accum_app. cbv zeta.
  pose proof (merge_image_flat st image) as Hi. cbv zeta in Hi.
  destruct (Merge.merge_image st image) as [st1 image'].
  destruct (Merge.map_accum merge_counted_pass st (all_passes [image])) as [st1' ps1].
  cbn [fst snd] in *. destruct Hi as (<- & Hps & Hin & Hpath & _).
  specialize (IH st1). cbv zeta in IH.
  destruct (Merge.map_accum Merge.merge_image st1 images) as [st2 images'].
  destruct (Merge.map_accum merge_counted_pass st1 _) as [st2' ps2].
  cbn [fst snd] in *. destruct IH as (<- & Hps2 & Hall).
  split; [reflexivity |]. split.
  - rewrite all_passes_cons, Hps, Hps2. reflexivity.
  - constructor; auto.
Qed.

Lemma find_channel_Some (nm : string) (names : list string) (k i : nat) :
  Merge.find_channel nm names k = Some i ->
  exists j, i = (k + j)%nat /\ names !! j = Some nm.
Proof.
  revert k. induction names as [| n names IH]; intros k H; [discriminate |].
  cbn in H. destruct (String.eqb nm n) eqn:Hn.
  - injection H as <-. apply String.eqb_eq in Hn. subst n. exists 0%nat. split; [lia | reflexivity].
  - destruct (IH _ H) as (j & -> & Hj). exists (S j). split; [lia | exact Hj].
Qed.

Lemma find_channel_None (nm : string) (names : list string) (k : nat) :
  Merge.find_channel nm names k = None -> nm ∉ names.
Proof.
  revert k. induction names as [| n names IH]; intros k H; [apply not_elem_of_nil |].
  cbn in H. destruct (String.eqb nm n) eqn:Hn; [discriminate |].
  apply String.eqb_neq in Hn. rewrite elem_of_cons. intros [-> | Hin]; [congruence |].
  exact (IH _ H Hin).
Qed.

(** One pass merged into the channel arrays. *)
Lemma merge_pass_step (n : Z) (st : Merge.Channels) (p : Merge.MergeImagePass) :
  channels_aligned st -> NoDup (Merge.out_names st) ->
  let st1 := (Merge.merge_pass n st p).1 in
  let p' := (Merge.merge_pass n st p).2 in
  channels_aligned st1 /\ NoDup (Merge.out_names st1)
  /\ (exists ext, Merge.out_names st1 = Merge.out_names st ++ ext)
  /\ pass_rewritten p p'
  /\ 0 <= Merge.merge_offset p'
  /\ Merge.out_names st1 !! Z.to_nat (Merge.merge_offset p') = Some (Merge.channel_name p)
  /\ (Merge.channel_name p ∈ Merge.out_names st ->
      Merge.op p' <> Merge.MERGE_CHANNEL_COPY)
  /\ forall k,
       (Merge.merge_offset p' = Z.of_nat k ->
        0 <= default 0 (Merge.channel_total_samples st !! k) + n < 2 ^ 31) ->
       default 0 (Merge.channel_total_samples st1 !! k)
       = default 0 (Merge.channel_total_samples st !! k)
         + (if decide (Merge.merge_offset p' = Z.of_nat k) then n else 0).
Proof.
  intros [Hf Ht] Hnd. cbv zeta. unfold Merge.merge_pass, channels_aligned.
  destruct (Merge.find_channel (Merge.channel_name p) (Merge.out_names st) 0) as [i |] eqn:Hfind.
  - destruct (find_channel_Some _ _ _ _ Hfind) as (j & -> & Hj). cbn [Nat.add] in *.
    assert (Hlt : (j < length (Merge.out_names st))%nat) by (eapply lookup_lt_Some; exact Hj).
    cbn [fst snd Merge.out_names Merge.out_formats Merge.channel_total_samples
           Merge.merge_offset Merge.channel_name Merge.op Merge.format Merge.offset].
    split; [split; [exact Hf | rewrite length_insert; exact Ht] |].
    split; [exact Hnd |]. split; [exists []; rewrite app_nil_r; reflexivity |].
    split.
    { unfold pass_rewritten. cbn. repeat split.
      destruct (bool_decide (Merge.op p = Merge.MERGE_CHANNEL_COPY)) eqn:Hop;
        [right; apply bool_decide_eq_true_1 in Hop; auto | left; reflexivity]. }
    split; [lia |]. split; [rewrite Nat2Z.id; exact Hj |]. split.
    { intros _. destruct (bool_decide (Merge.op p = Merge.MERGE_CHANNEL_COPY)) eqn:Hop;
        [discriminate | apply bool_decide_eq_false_1 in Hop; exact Hop]. }
    intros k Hrange. destruct (decide (Z.of_nat j = Z.of_nat k)) as [Heq | Hne].
    + specialize (Hrange Heq). apply Nat2Z.inj in Heq. subst k.
      rewrite list_lookup_insert_eq by lia. cbn [default from_option id].
      apply wrap_int32_small. exact Hrange.
    + rewrite list_lookup_insert_ne by congruence. lia.
  - cbn [fst snd Merge.out_names Merge.out_formats Merge.channel_total_samples
           Merge.merge_offset Merge.channel_name Merge.op Merge.format Merge.offset].
    apply find_channel_None in Hfind.
    split; [split; rewrite !length_app; cbn; lia |].
    split.
    { apply NoDup_app. split; [exact Hnd |]. split; [| apply NoDup_singleton].
      intros x Hx Hx'. apply list_elem_of_singleton in Hx'. subst x. contradiction. }
    split; [eexists; reflexivity |].
    split; [unfold pass_rewritten; cbn; auto |].
    split; [lia |]. split.
    { rewrite Nat2Z.id. apply list_lookup_middle. reflexivity. }
    split; [intros Hin; contradiction |].
    intros k _. destruct (decide (Z.of_nat (length (Merge.out_names st)) = Z.of_nat k))
      as [Heq | Hne].
    + apply Nat2Z.inj in Heq. subst k. rewrite <- Ht.
      rewrite list_lookup_middle by reflexivity.
      rewrite lookup_ge_None_2 by lia. cbn. lia.
    + destruct (decide (k < length (Merge.channel_total_samples st))%nat).
      * rewrite lookup_app_l by lia. lia.
      * rewrite (lookup_ge_None_2 (Merge.channel_total_samples st) k) by lia.
        rewrite lookup_ge_None_2 by (rewrite length_app; cbn; lia). cbn. lia.
Qed.

Lemma samples_merged_into_cons (k : nat) (n : Z) (p : Merge.MergeImagePass)
    (l : list (Z * Merge.MergeImagePass)) :
  samples_merged_into k ((n, p) :: l)
  = if decide (Merge.merge_offset p = Z.of_nat k)
    then n + samples_merged_into k l else samples_merged_into k l.
Proof. reflexivity. Qed.

Lemma samples_merged_into_nonneg (k : nat) (l : list (Z * Merge.MergeImagePass)) :
  Forall (fun np => 0 <= np.1) l -> 0 <= samples_merged_into k l.
Proof.
  induction 1 as [| [n p] l Hn _ IH]; [reflexivity |].
  rewrite samples_merged_into_cons. cbn [fst] in Hn. destruct (decide _); lia.
Qed.

(** The walk over all passes, from any aligned state with distinct names.
    The totals are the sums as long as these fit an [int]. *)
Lemma merge_flat_spec (l : list (Z * Merge.MergeImagePass)) (st : Merge.Channels) :
  channels_aligned st -> NoDup (Merge.out_names st) ->
  let r := Merge.map_accum merge_counted_pass st l in
  channels_aligned r.1 /\ NoDup (Merge.out_names r.1)
  /\ (exists ext, Merge.out_names r.1 = Merge.out_names st ++ ext)
  /\ Forall2 (fun np np' => np'.1 = np.1 /\ pass_rewritten np.2 np'.2) l r.2
  /\ Forall (fun np' =>
       0 <= Merge.merge_offset np'.2
       /\ Merge.out_names r.1 !! Z.to_nat (Merge.merge_offset np'.2)
          = Some (Merge.channel_name np'.2)
       /\ (Merge.channel_name np'.2 ∈ Merge.out_names st ->
           Merge.op np'.2 <> Merge.MERGE_CHANNEL_COPY)) r.2
  /\ (forall i j np nq,
        (i < j)%nat -> r.2 !! i = Some np -> r.2 !! j = Some nq ->
        Merge.merge_offset np.2 = Merge.merge_offset nq.2 ->
        Merge.op nq.2 <> Merge.MERGE_CHANNEL_COPY)
  /\ forall k,
       Forall (fun np => 0 <= np.1) l ->
       0 <= default 0 (Merge.channel_total_samples st !! k) ->
       default 0 (Merge.channel_total_samples st !! k) + samples_merged_into k r.2 < 2 ^ 31 ->
       default 0 (Merge.channel_total_samples r.1 !! k)
       = default 0 (Merge.channel_total_samples st !! k) + samples_merged_into k r.2.
Proof.
  revert st. induction l as [| [n p] l IH]; intros st Hal Hnd.
  - cbn. split; [exact Hal |]. split; [exact Hnd |].
    split; [exists []; rewrite app_nil_r; reflexivity |].
    split; [constructor |]. split; [constructor |].
    split; [intros i j np nq _ H; rewrite lookup_nil in H; discriminate |].
    intros k _ _ _. cbn. lia.
  - cbv zeta. cbn [Merge.map_accum].
    destruct (merge_pass_step n st p Hal Hnd)
      as (Hal1 & Hnd1 & [ext1 Hext1] & Hrw & Hmo & Hres & Hcopy & Htot).
    assert (Hc : merge_counted_pass st (n, p)
                 = ((Merge.merge_pass n st p).1, (n, (Merge.merge_pass n st p).2)))
      by reflexivity.
    rewrite Hc. clear Hc.
    destruct (Merge.merge_pass n st p) as [st1 p'] eqn:Hp. cbn [fst snd] in *.
    destruct (IH st1 Hal1 Hnd1) as (Hal2 & Hnd2 & [ext2 Hext2] & Hf2 & Hall & Hfirst & Htot2).
    destruct (Merge.map_accum merge_counted_pass st1 l) as [st2 out] eqn:Hrest.
    cbn [fst snd] in *.
    assert (Hname : Merge.channel_name p' = Merge.channel_name p) by apply Hrw.
    assert (Hres2 : Merge.out_names st2 !! Z.to_nat (Merge.merge_offset p')
                    = Some (Merge.channel_name p)).
    { rewrite Hext2. apply lookup_app_l_Some. exact Hres. }
    split; [exact Hal2 |]. split; [exact Hnd2 |].
    split; [exists (ext1 ++ ext2); rewrite Hext2, Hext1, app_assoc; reflexivity |].
    split; [constructor; [split; [reflexivity | exact Hrw] | exact Hf2] |].
    split.
    { constructor.
      - cbn [snd]. rewrite Hname. auto.
      - eapply Forall_impl; [exact Hall |]. intros [n' q] (H1 & H2 & H3). cbn [snd] in *.
        split; [exact H1 |]. split; [exact H2 |].
        intros Hin. apply H3. rewrite Hext1. apply elem_of_app. left. exact Hin. }
    split.
    { intros i j np nq Hij Hi Hj Hsame. destruct j as [| j]; [lia |]. cbn in Hj.
      destruct i as [| i].
      - cbn in Hi. injection Hi as <-. cbn [snd] in Hsame.
        rewrite Forall_lookup in Hall. destruct (Hall j nq Hj) as (_ & Hq & Hq3).
        apply Hq3. rewrite <- Hsame, Hres2 in Hq. injection Hq as <-.
        apply list_elem_of_lookup_2 in Hres. exact Hres.
      - cbn in Hi. apply (Hfirst i j np nq); [lia | assumption..]. }
    intros k Hnn H0 Hlt. apply Forall_cons in Hnn. destruct Hnn as [Hn Hnn].
    cbn [fst] in Hn. rewrite samples_merged_into_cons in Hlt |- *.
    assert (Hout : 0 <= samples_merged_into k out).
    { apply samples_merged_into_nonneg.
      clear - Hf2 Hnn. induction Hf2 as [| np np' l out [Heq _] _ IH']; [constructor |].
      apply Forall_cons in Hnn. destruct Hnn as [Hnp Hnn].
      constructor; [rewrite Heq; exact Hnp | apply IH'; exact Hnn]. }
    assert (Hstep : default 0 (Merge.channel_total_samples st1 !! k)
                    = default 0 (Merge.channel_total_samples st !! k)
                      + (if decide (Merge.merge_offset p' = Z.of_nat k) then n else 0)).
    { apply Htot. intros Heq. rewrite decide_True in Hlt by exact Heq. lia. }
    rewrite Htot2; [rewrite Hstep; destruct (decide _); lia | exact Hnn | |];
      rewrite Hstep; destruct (decide _); lia.
Qed.

Lemma merge_channels_flat (images : list Merge.MergeImage) :
  let r := Merge.merge_channels images [] in
  let r' := Merge.map_accum merge_counted_pass (Merge.mkChannels [] [] []) (all_passes images) in
  r.1 = r'.1 /\ all_passes r.2 = r'.2.
Proof.
  cbv zeta. unfold Merge.merge_channels.
  destruct (merge_images_flat images (Merge.mkChannels [] [] [])) as (H1 & H2 & _).
  split; assumption.
Qed.

Lemma empty_channels_aligned :
  channels_aligned (Merge.mkChannels [] [] []) /\ NoDup (Merge.out_names (Merge.mkChannels [] [] [])).
Proof. split; [split; reflexivity | apply NoDup_nil_2]. Qed.

(** X23. After [merge_channels] the channel arrays of the merged image
    line up and its channel names are distinct; every pass keeps its name,
    format, input offset and layer samples, its operation too unless a Copy
    became a Nop; and its [merge_offset] is the position of its own name in
    the merged channel list. *)
Theorem merge_channels_resolves_offsets (images : list Merge.MergeImage) :
  let r := Merge.merge_channels images [] in
  channels_aligned r.1
  /\ NoDup (Merge.out_names r.1)
  /\ Forall2 (fun np np' => np'.1 = np.1 /\ pass_rewritten np.2 np'.2)
       (all_passes images) (all_passes r.2)
  /\ Forall (fun np' =>
       0 <= Merge.merge_offset np'.2
       /\ Merge.out_names r.1 !! Z.to_nat (Merge.merge_offset np'.2)
          = Some (Merge.channel_name np'.2)) (all_passes r.2).
Proof.
  cbv zeta. destruct (merge_channels_flat images) as [-> ->].
  destruct empty_channels_aligned as [Hal Hnd].
  destruct (merge_flat_spec (all_passes images) _ Hal Hnd)
    as (H1 & H2 & _ & H4 & H5 & _).
  split; [exact H1 |]. split; [exact H2 |]. split; [exact H4 |].
  eapply Forall_impl; [exact H5 |]. intros np (Ha & Hb & _). auto.
Qed.

(** X24. "First image wins for channels that can't be averaged or
    summed": of two passes that are merged into the same output channel, the
    later one in merge order is never left as a Copy. *)
Theorem first_pass_wins_copy (images : list Merge.MergeImage) (i j : nat)
    (np nq : Z * Merge.MergeImagePass) :
  (i < j)%nat ->
  all_passes (Merge.merge_channels images []).2 !! i = Some np ->
  all_passes (Merge.merge_channels images []).2 !! j = Some nq ->
  Merge.merge_offset np.2 = Merge.merge_offset nq.2 ->
  Merge.op nq.2 <> Merge.MERGE_CHANNEL_COPY.
Proof.
  destruct (merge_channels_flat images) as [_ ->].
  destruct empty_channels_aligned as [Hal Hnd].
  destruct (merge_flat_spec (all_passes images) _ Hal Hnd) as (_ & _ & _ & _ & _ & H6 & _).
  apply H6.
Qed.

(** X25. [channel_total_samples] is a vector of [int]. For every channel
    of the merged image whose sum fits an [int], it holds the sum of the
    layer samples of all passes that were merged into that channel, the
    sample counts being none negative, as [parse_channels] leaves them. *)
Theorem channel_total_samples_sums (images : list Merge.MergeImage) (k : nat) :
  Forall (fun np => 0 <= np.1) (all_passes images) ->
  (k < length (Merge.out_names (Merge.merge_channels images []).1))%nat ->
  samples_merged_into k (all_passes (Merge.merge_channels images []).2) < 2 ^ 31 ->
  Merge.channel_total_samples (Merge.merge_channels images []).1 !! k
  = Some (samples_merged_into k (all_passes (Merge.merge_channels images []).2)).
Proof.
  destruct (merge_channels_flat images) as [-> ->].
  destruct empty_channels_aligned as [Hal Hnd].
  destruct (merge_flat_spec (all_passes images) _ Hal Hnd)
    as ([_ Hlen] & _ & _ & _ & _ & _ & H7).
  intros Hnn Hk Hlt. rewrite <- Hlen in Hk. specialize (H7 k Hnn).
  cbn [Merge.channel_total_samples] in H7. rewrite lookup_nil in H7.
  cbn [default from_option id] in H7. rewrite !Z.add_0_l in H7.
  destruct (lookup_lt_is_Some_2 _ _ Hk) as [v Hv]. rewrite Hv in *.
  cbn [default from_option id] in H7.
  rewrite H7; [reflexivity | lia | exact Hlt].
Qed.

Lemma first_pass_wins_copy_witness :
  let images := [Examples.depth_image "a.exr" 10; Examples.depth_image "b.exr" 30] in
  exists nq,
    all_passes (Merge.merge_channels images []).2 !! 1%nat = Some nq
    /\ Merge.op nq.2 <> Merge.MERGE_CHANNEL_COPY.
Proof.
  intros images. eexists. split; [reflexivity |].
  eapply (first_pass_wins_copy images 0 1); [lia | reflexivity | reflexivity | reflexivity].
Defined.

Lemma channel_total_samples_sums_witness :
  let images := [Examples.depth_image "a.exr" 10; Examples.depth_image "b.exr" 30] in
  Merge.channel_total_samples (Merge.merge_channels images []).1 !! 0%nat = Some 40.
Proof.
  intros images. rewrite (channel_total_samples_sums images 0); [reflexivity | | |].
  - repeat constructor; cbn; lia.
  - cbn. lia.
  - vm_compute. reflexivity.
Defined.

(** Two layers of 2000000000 samples each: the sum does not fit an [int]
    and the total that is stored is not the sum. *)
Lemma channel_total_samples_wraps :
  let images := [Examples.depth_image "a.exr" 2000000000;
                 Examples.depth_image "b.exr" 2000000000] in
  Merge.channel_total_samples (Merge.merge_channels images []).1 = [-294967296]
  /\ samples_merged_into 0 (all_passes (Merge.merge_channels images []).2) = 4000000000.
Proof. split; vm_compute; reflexivity. Qed.

(* ================================================================== *)
(** * Theorems: channel parsing *)

Lemma wrap_int32_range (z : Z) : - 2 ^ 31 <= wrap_int32 z < 2 ^ 31.
Proof.
  unfold wrap_int32. pose proof (Z.mod_pos_bound (z + 2 ^ 31) (2 ^ 32) ltac:(lia)). lia.
Qed.

(** What [sscanf] stores is an [int]. *)
Lemma sscanf_d_range (s : string) (v : Z) :
  (Merge.sscanf_d s).2 = Some v -> - 2 ^ 31 <= v < 2 ^ 31.
Proof.
  unfold Merge.sscanf_d. destruct_matches; cbn [snd]; try discriminate.
  all: intros [= <-]; apply wrap_int32_range.
Qed.

Lemma finish_layers_spec (sp : Merge.Spec) (fl : list (string * list Merge.MergeImagePass))
    (ls : list Merge.MergeImageLayer) :
  Merge.finish_layers sp fl = inr ls ->
  map (fun l => (Merge.name l, Merge.passes l)) ls = fl
  /\ Forall (layer_samples_read sp) ls.
Proof.
  revert ls. induction fl as [| [nm ps] fl IH]; intros ls H.
  - cbn in H. injection H as <-. split; [reflexivity | constructor].
  - cbn [Merge.finish_layers] in H.
    set (scanned := if String.eqb nm "" then _ else _) in H.
    destruct scanned as [e | n] eqn:Hscan; [discriminate |].
    destruct (n <? 1) eqn:Hn; [discriminate |]. apply Z.ltb_ge in Hn.
    destruct (Merge.finish_layers sp fl) as [e | ls'] eqn:Hrest; [discriminate |].
    injection H as <-. destruct (IH ls' eq_refl) as [Hmap Hall].
    split; [cbn; rewrite Hmap; reflexivity |].
    constructor; [| exact Hall].
    unfold layer_samples_read. cbn [Merge.samples Merge.name].
    unfold scanned in Hscan. clear scanned.
    destruct (String.eqb nm "") eqn:Hnm.
    + injection Hscan as <-. apply String.eqb_eq in Hnm.
      split; [lia |]. split; [reflexivity | intros Hne; contradiction].
    + apply String.eqb_neq in Hnm.
      assert (Hread : exists s,
                Merge.attributes sp !! Merge.layer_samples_key nm = Some s
                /\ (Merge.sscanf_d s).2 = Some n).
      { unfold Merge.get_string_attribute in Hscan.
        destruct (Merge.attributes sp !! Merge.layer_samples_key nm) as [s |] eqn:Hattr;
          cbn [from_option id] in Hscan;
          [| change (String.eqb "" "") with true in Hscan; injection Hscan as <-; lia].
        exists s. split; [reflexivity |]. revert Hscan.
        destruct (String.eqb s ""); cbv beta iota; [intros [= <-]; lia |].
        destruct (Merge.sscanf_d s) as [count v].
        destruct count; cbv beta iota; try discriminate;
          destruct v; cbv beta iota; intros [= <-]; first [reflexivity | lia]. }
      destruct Hread as (s & Hs & Hv). pose proof (sscanf_d_range s n Hv) as Hrange.
      split; [lia |]. split; [intros Heq; contradiction |]. intros _.
      exists s. split; assumption.
Qed.

Lemma layers_push_passes (nm : string) (p : Merge.MergeImagePass)
    (fl : list (string * list Merge.MergeImagePass)) :
  Permutation (concat (map snd (Merge.layers_push nm p fl))) (p :: concat (map snd fl)).
Proof.
  induction fl as [| [k ps] fl IH]; [reflexivity |].
  cbn [Merge.layers_push]. destruct (String.compare nm k); cbn [map snd concat].
  - rewrite <- app_assoc. cbn [app]. symmetry. apply Permutation_middle.
  - reflexivity.
  - rewrite IH. symmetry. apply Permutation_middle.
Qed.

Lemma layers_push_keeps (Q : string -> Merge.MergeImagePass -> Prop) (nm : string)
    (p : Merge.MergeImagePass) (fl : list (string * list Merge.MergeImagePass)) :
  Q nm p ->
  Forall (fun kp => Forall (Q kp.1) kp.2) fl ->
  Forall (fun kp => Forall (Q kp.1) kp.2) (Merge.layers_push nm p fl).
Proof.
  intros Hq. induction fl as [| [k ps] fl IH]; intros Hall.
  - cbn. repeat constructor. exact Hq.
  - apply Forall_cons in Hall. destruct Hall as [Hk Hall].
    cbn [Merge.layers_push]. destruct (String.compare nm k) eqn:Hcmp.
    + apply compare_eq_iff in Hcmp. subst k. constructor; [| exact Hall].
      cbn [fst snd] in *. apply Forall_app. split; [exact Hk |]. repeat constructor. exact Hq.
    + constructor; [repeat constructor; exact Hq |]. constructor; assumption.
    + constructor; [exact Hk | apply IH; exact Hall].
Qed.

(** X26. What [parse_channels] returns when it succeeds: every channel of
    the file is in exactly one pass, whose offsets are the position of the
    channel and whose name is the channel name; a pass sits in the layer its
    name parses to, or in the unnamed layer when it does not parse; the
    unnamed layer counts one sample and a named layer the [int] that
    [sscanf] stored for its [cycles.<layer>.samples] attribute, never less
    than one. *)
Theorem parse_channels_layers (sp : Merge.Spec) (ls : list Merge.MergeImageLayer) :
  Merge.parse_channels sp = inr ls ->
  Permutation (map Merge.offset (concat (map Merge.passes ls)))
    (map Z.of_nat (seq 0 (Z.to_nat (Merge.nchannels sp))))
  /\ Forall (fun layer => Forall (pass_of_file sp (Merge.name layer)) (Merge.passes layer)) ls
  /\ Forall (layer_samples_read sp) ls.
Proof.
  unfold Merge.parse_channels. fold (has_views sp).
  set (step := fun (file_layers : list (string * list Merge.MergeImagePass)) (i : nat) => _).
  intros H. destruct (finish_layers_spec sp _ ls H) as [Hmap Hsamples].
  assert (Hfold : forall l fl0,
            Permutation (map Merge.offset (concat (map snd (foldl step fl0 l))))
              (map Z.of_nat l ++ map Merge.offset (concat (map snd fl0)))
            /\ (Forall (fun kp => Forall (pass_of_file sp kp.1) kp.2) fl0 ->
                Forall (fun kp => Forall (pass_of_file sp kp.1) kp.2) (foldl step fl0 l))).
  { induction l as [| i l IH]; intros fl0; [split; [reflexivity | exact id] |].
    cbn [foldl]. destruct (IH (step fl0 i)) as [Hperm Hkeep].
    assert (Hstep : exists nm p,
              step fl0 i = Merge.layers_push nm p fl0
              /\ Merge.offset p = Z.of_nat i /\ pass_of_file sp nm p).
    { unfold step.
      pose proof (eq_refl : layer_of_channel sp (default ""%string (Merge.channelnames sp !! i))
                            = layer_of_channel sp (default ""%string (Merge.channelnames sp !! i)))
        as Hlayer.
      unfold layer_of_channel at 1 in Hlayer.
      destruct (Merge.parse_channel_name _ _) as [[[layername passname] channel] |];
        eexists _, _; (split; [reflexivity |]); (split; [reflexivity |]);
        unfold pass_of_file;
        cbn [Merge.merge_offset Merge.offset Merge.channel_name];
        rewrite Nat2Z.id; auto. }
    destruct Hstep as (nm & p & Hstep & Hoff & Hpass). rewrite Hstep in *. split.
    - rewrite Hperm, layers_push_passes. cbn [map app]. rewrite Hoff.
      symmetry. apply Permutation_middle.
    - intros Hall. apply Hkeep. apply layers_push_keeps; assumption. }
  destruct (Hfold (seq 0 (Z.to_nat (Merge.nchannels sp))) []) as [Hperm Hkeep].
  rewrite <- Hmap in Hperm, Hkeep. split; [| split; [| exact Hsamples]].
  - rewrite map_map in Hperm. cbn [snd] in Hperm. cbn [map concat] in Hperm.
    rewrite app_nil_r in Hperm. exact Hperm.
  - specialize (Hkeep ltac:(constructor)).
    rewrite Forall_map in Hkeep. exact Hkeep.
Qed.

Lemma parse_channels_layers_witness :
  exists ls,
    Merge.parse_channels (Merge.spec (Examples.render "10" F32.one)) = inr ls
    /\ map Merge.name ls = [""; "A"]%string
    /\ Forall (layer_samples_read (Merge.spec (Examples.render "10" F32.one))) ls.
Proof.
  eexists. split; [vm_compute; reflexivity |]. split; [reflexivity |].
  eapply (parse_channels_layers (Merge.spec (Examples.render "10" F32.one))).
  vm_compute. reflexivity.
Defined.

(** Sample counts that do not fit an [int]: 2^32 + 1 is stored as 1, and
    2^31 as -2^31, which [parse_channels] rejects; beyond the range of
    [long] the count that is stored is -1. *)
Lemma sscanf_d_stores_int :
  Merge.sscanf_d "4294967297" = (1, Some 1)
  /\ Merge.sscanf_d "2147483648" = (1, Some (-2147483648))
  /\ Merge.sscanf_d "9223372036854775809" = (1, Some (-1))
  /\ (exists ls,
        Merge.parse_channels (Merge.spec (Examples.render "4294967297" F32.one)) = inr ls
        /\ map Merge.samples ls = [1; 1])
  /\ Merge.parse_channels (Merge.spec (Examples.render "2147483648" F32.one))
     = inl "No sample number specified in the file for layer A or on the command line"%string.
Proof.
  split; [vm_compute; reflexivity |]. split; [vm_compute; reflexivity |].
  split; [vm_compute; reflexivity |].
  split; [eexists; split; [vm_compute; reflexivity | reflexivity] |].
  vm_compute. reflexivity.
Qed.

(* ================================================================== *)
(** * Theorems: opening the inputs *)

Lemma open_images_spec (open_input : string -> option Merge.Input) (paths : list string)
    (acc images : list Merge.MergeImage) :
  Merge.open_images open_input paths acc = inr images ->
  exists new,
    images = acc ++ new
    /\ Forall2 (opened_from open_input) paths new
    /\ forall base,
         head images = Some base ->
         Forall (fun image => layout (Merge.spec (Merge.in_ image))
                              = layout (Merge.spec (Merge.in_ base))) acc ->
         Forall (fun image => layout (Merge.spec (Merge.in_ image))
                              = layout (Merge.spec (Merge.in_ base))) images.
Proof.
  revert acc. induction paths as [| path paths IH]; intros acc H.
  - cbn in H. injection H as <-. exists []. rewrite app_nil_r.
    split; [reflexivity |]. split; [constructor | auto].
  - cbn [Merge.open_images] in H.
    destruct (open_input path) as [inp |] eqn:Hopen; [| discriminate].
    destruct (Merge.parse_channels (Merge.spec inp)) as [e | ls] eqn:Hparse; [discriminate |].
    destruct (length ls =? 0)%nat eqn:Hls; [discriminate |].
    destruct (Merge.deep (Merge.spec inp)) eqn:Hdeep; [discriminate |].
    match type of H with (if ?c then _ else _) = _ => destruct c eqn:Hmis end;
      [discriminate |].
    destruct (IH _ H) as (new & -> & Hnew & Hlayout).
    exists (Merge.mkMergeImage inp path ls :: new).
    split; [rewrite <- app_assoc; reflexivity |]. split.
    + constructor; [| exact Hnew]. unfold opened_from. cbn.
      split; [reflexivity |]. split; [exact Hopen |]. split; [exact Hparse |].
      split; [| exact Hdeep]. intros ->. discriminate.
    + intros base Hbase Hacc. apply Hlayout; [exact Hbase |].
      apply Forall_app. split; [exact Hacc |]. constructor; [| constructor].
      cbn [Merge.in_]. destruct acc as [| first acc].
      * cbn in Hbase. injection Hbase as <-. reflexivity.
      * cbn in Hbase. injection Hbase as <-. unfold layout.
        repeat (apply orb_false_iff in Hmis; destruct Hmis as [Hmis ?]).
        repeat match goal with
               | H : negb _ = false |- _ => apply negb_false_iff in H
               | H : (_ =? _) = true |- _ => apply Z.eqb_eq in H
               | H : bool_decide _ = true |- _ => apply bool_decide_eq_true_1 in H
               end.
        congruence.
Qed.

(** X27. When [open_images] succeeds it has opened every path, in order:
    each image carries its path, the input opened from it and the layers
    parsed from that input, at least one; none is a deep image; and all of
    them have the width, height, depth and pixel format of the first. *)
Theorem open_images_same_layout (open_input : string -> option Merge.Input)
    (paths : list string) (images : list Merge.MergeImage) :
  Merge.open_images open_input paths [] = inr images ->
  Forall2 (opened_from open_input) paths images
  /\ forall base,
       head images = Some base ->
       Forall (fun image => layout (Merge.spec (Merge.in_ image))
                            = layout (Merge.spec (Merge.in_ base))) images.
Proof.
  intros H. destruct (open_images_spec open_input paths [] images H) as (new & -> & Hnew & Hl).
  split; [exact Hnew |]. intros base Hbase. apply Hl; [exact Hbase | constructor].
Qed.

Lemma open_images_same_layout_witness :
  exists images,
    Merge.open_images Examples.open_render ["a.exr"; "b.exr"]%string [] = inr images
    /\ Forall2 (opened_from Examples.open_render) ["a.exr"; "b.exr"]%string images.
Proof.
  eexists. split; [vm_compute; reflexivity |].
  eapply (open_images_same_layout Examples.open_render ["a.exr"; "b.exr"]%string).
  vm_compute. reflexivity.
Defined.

(* ================================================================== *)
(** * Theorems: pixel merge *)

Lemma between_multiples (stride i y : nat) :
  (i mod stride = 0)%nat -> (i < y < i + stride)%nat -> (y mod stride <> 0)%nat.
Proof.
  intros Hi Hy.
  assert (Hs : (stride <> 0)%nat) by lia.
  pose proof (Nat.div_mod_eq i stride) as Hdiv. rewrite Hi in Hdiv.
  replace y with ((y - i) + (i / stride) * stride)%nat by lia.
  rewrite Nat.Div0.mod_add. rewrite Nat.mod_small by lia. lia.
Qed.

Lemma pixel_loop_from (n stride off moff : nat) (f : float32 -> float32 -> float32)
    (pixels : list float32) (fuel i : nat) (out : list float32) :
  (0 < stride)%nat -> (n - i <= fuel)%nat -> (i mod stride = 0)%nat ->
  (forall j, (i <= j < n)%nat -> (j mod stride = 0)%nat ->
             (j + moff < length out)%nat /\ (j + off < length pixels)%nat) ->
  exists out',
    loop_step fuel stride n i (fun i acc =>
      out ← acc;
      o ← out !! (i + moff)%nat;
      p ← pixels !! (i + off)%nat;
      Some (<[(i + moff)%nat := f o p]> out)) (Some out) = Some out'
    /\ length out' = length out
    /\ forall x,
         out' !! x
         = if (i + moff <=? x)%nat && visited n stride moff x
           then o ← out !! x; p ← pixels !! (x - moff + off)%nat; Some (f o p)
           else out !! x.
Proof.
  intros Hstride. revert i out. induction fuel as [| fuel IH]; intros i out Hfuel Hi Hrange.
  - exists out. split; [reflexivity |]. split; [reflexivity |]. intros x.
    replace ((i + moff <=? x)%nat && visited n stride moff x) with false; [reflexivity |].
    symmetry. unfold visited. destruct (Nat.leb_spec (i + moff) x); [| reflexivity].
    replace (x - moff <? n)%nat with false by (symmetry; apply Nat.ltb_ge; lia).
    cbn. rewrite andb_false_r. reflexivity.
  - cbn [loop_step]. destruct (Nat.ltb_spec i n) as [Hin | Hin].
    + destruct (Hrange i ltac:(lia) Hi) as [Ho Hp].
      destruct (lookup_lt_is_Some_2 _ _ Ho) as [o Hov].
      destruct (lookup_lt_is_Some_2 _ _ Hp) as [p Hpv].
      cbn [mbind option_bind]. rewrite Hov. cbn [mbind option_bind]. rewrite Hpv.
      cbn [mbind option_bind].
      destruct (IH (i + stride)%nat (<[(i + moff)%nat := f o p]> out)) as (out' & Hloop & Hlen & Hx).
      * lia.
      * rewrite <- Nat.Div0.add_mod_idemp_l, Hi. cbn. apply Nat.Div0.mod_same.
      * intros j Hj Hjm. rewrite length_insert. apply Hrange; [lia | exact Hjm].
      * exists out'. split; [exact Hloop |]. split; [rewrite Hlen; apply length_insert |].
        intros x. rewrite Hx. destruct (decide (x = i + moff)%nat) as [-> | Hne].
        -- replace (i + stride + moff <=? i + moff)%nat with false
             by (symmetry; apply Nat.leb_gt; lia).
           rewrite Nat.leb_refl. cbn [andb]. unfold visited.
           replace (moff <=? i + moff)%nat with true by (symmetry; apply Nat.leb_le; lia).
           replace (i + moff - moff)%nat with i by lia.
           replace (i <? n)%nat with true by (symmetry; apply Nat.ltb_lt; lia).
           rewrite Hi. cbn [andb Nat.eqb]. rewrite Hov, Hpv. cbn [mbind option_bind].
           apply list_lookup_insert_eq. exact Ho.
        -- rewrite list_lookup_insert_ne by congruence.
           destruct (Nat.leb_spec (i + stride + moff) x) as [Hge | Hlt].
           ++ replace (i + moff <=? x)%nat with true by (symmetry; apply Nat.leb_le; lia).
              reflexivity.
           ++ cbn [andb]. destruct (Nat.leb_spec (i + moff) x) as [Hge' | Hlt']; [| reflexivity].
              cbn [andb]. unfold visited.
              replace ((x - moff) mod stride =? 0)%nat with false;
                [rewrite andb_false_r; reflexivity |].
              symmetry. apply Nat.eqb_neq. apply (between_multiples stride i); [exact Hi | lia].
    + exists out. split; [reflexivity |]. split; [reflexivity |]. intros x.
      replace ((i + moff <=? x)%nat && visited n stride moff x) with false; [reflexivity |].
      symmetry. unfold visited. destruct (Nat.leb_spec (i + moff) x); [| reflexivity].
      replace (x - moff <? n)%nat with false by (symmetry; apply Nat.ltb_ge; lia).
      cbn. rewrite andb_false_r. reflexivity.
Qed.

(** X28. The loop of a pass in [merge_pixels], all its subscripts being
    inside the two buffers: it combines the output sample at [merge_offset]
    plus every multiple of the stride below [num_pixels] with the input
    sample at [offset] plus the same multiple, and leaves every other output
    sample as it is. *)
Theorem pixel_loop_visits (n stride off moff : nat) (f : float32 -> float32 -> float32)
    (pixels out : list float32) :
  (0 < stride)%nat ->
  (forall j, (j < n)%nat -> (j mod stride = 0)%nat ->
             (j + moff < length out)%nat /\ (j + off < length pixels)%nat) ->
  exists out',
    Merge.pixel_loop n stride off moff f pixels out = Some out'
    /\ length out' = length out
    /\ forall x,
         out' !! x
         = if visited n stride moff x
           then o ← out !! x; p ← pixels !! (x - moff + off)%nat; Some (f o p)
           else out !! x.
Proof.
  intros Hstride Hrange. unfold Merge.pixel_loop.
  replace (stride =? 0)%nat with false by (symmetry; apply Nat.eqb_neq; lia).
  cbn [andb].
  destruct (pixel_loop_from n stride off moff f pixels n 0 out Hstride)
    as (out' & Hloop & Hlen & Hx); [lia | apply Nat.Div0.mod_0_l | |].
  - intros j Hj. apply Hrange. lia.
  - exists out'. split; [exact Hloop |]. split; [exact Hlen |].
    intros x. rewrite Hx. cbn [Nat.add]. unfold visited.
    destruct (moff <=? x)%nat; reflexivity.
Qed.

Lemma pixel_loop_visits_witness :
  exists out',
    Merge.pixel_loop 4 2 1 0 (fun _ p => p) [F32.zero; F32.one; F32.zero; F32.one]
      [F32.zero; F32.zero; F32.zero; F32.zero] = Some out'
    /\ out' !! 2%nat = Some F32.one /\ out' !! 1%nat = Some F32.zero.
Proof.
  destruct (pixel_loop_visits 4 2 1 0 (fun _ p => p) [F32.zero; F32.one; F32.zero; F32.one]
              [F32.zero; F32.zero; F32.zero; F32.zero]) as (out' & Hloop & _ & Hx).
  - lia.
  - intros j Hj Hm. destruct j as [| [| [| [| j]]]]; cbn in *; lia.
  - exists out'. split; [exact Hloop |]. split; rewrite Hx; reflexivity.
Defined.

(* ================================================================== *)
(** * Theorems: devices without half textures *)

(** X29. On a device without half textures [add_image] files nothing
    under a half type: an image probed as [HALF4] or [HALF] goes to the
    [FLOAT4] or [FLOAT] vector, the reported metadata keeping the probed
    type, and the two half vectors are left as they are. *)
Theorem add_image_without_half (E : Env) (m : ImageManager) (i : ImageIdentity)
    (anim : bool) (frm : float32) (is_vol : bool) (iso : float32) :
  has_half_images m = false ->
  slot_type E m i
  = match type (probed_metadata E i) with
    | IMAGE_DATA_TYPE_HALF4 => IMAGE_DATA_TYPE_FLOAT4
    | IMAGE_DATA_TYPE_HALF => IMAGE_DATA_TYPE_FLOAT
    | t => t
    end
  /\ (add_image_id E m i anim frm is_vol iso).1.2 = probed_metadata E i
  /\ images (add_image_id E m i anim frm is_vol iso).2 IMAGE_DATA_TYPE_HALF4
     = images m IMAGE_DATA_TYPE_HALF4
  /\ images (add_image_id E m i anim frm is_vol iso).2 IMAGE_DATA_TYPE_HALF
     = images m IMAGE_DATA_TYPE_HALF
  /\ has_half_images (add_image_id E m i anim frm is_vol iso).2 = false.
Proof.
  intros Hh.
  assert (Ht : slot_type E m i
               = match type (probed_metadata E i) with
                 | IMAGE_DATA_TYPE_HALF4 => IMAGE_DATA_TYPE_FLOAT4
                 | IMAGE_DATA_TYPE_HALF => IMAGE_DATA_TYPE_FLOAT
                 | t => t
                 end).
  { unfold slot_type, storage_type_for. rewrite Hh. cbn [negb].
    destruct (type (probed_metadata E i)); reflexivity. }
  split; [exact Ht |].
  assert (Hne4 : IMAGE_DATA_TYPE_HALF4 <> slot_type E m i)
    by (rewrite Ht; destruct (type (probed_metadata E i)); discriminate).
  assert (Hne1 : IMAGE_DATA_TYPE_HALF <> slot_type E m i)
    by (rewrite Ht; destruct (type (probed_metadata E i)); discriminate).
  destruct (find_image (identity_matches i) (images m (slot_type E m i)) 0)
    as [[slot img] |] eqn:Hfind.
  - rewrite (add_image_hit E m i anim frm is_vol iso slot img Hfind). cbn [fst snd].
    rewrite !images_set_image_at, !decide_False by assumption.
    repeat split. exact Hh.
  - rewrite (add_image_miss E m i anim frm is_vol iso Hfind). cbv zeta.
    destruct (tex_count m >? max_num_images m); cbn [fst snd]; [repeat split; exact Hh |].
    cbn [images has_half_images set_need_update set_tex_num_images set_images]. unfold upd.
    rewrite !decide_False by assumption. repeat split. exact Hh.
Qed.

Lemma add_image_without_half_witness :
  let E := Examples.env_of_files [("a.exr"%string, Examples.half_file)] in
  let r := add_image_id E (ImageManager_new 100 false) (Examples.identity "a.exr")
             false F32.zero false F32.zero in
  type r.1.2 = IMAGE_DATA_TYPE_HALF4
  /\ r.1.1 = 0
  /\ images r.2 IMAGE_DATA_TYPE_HALF4 = [].
Proof.
  intros E r.
  destruct (add_image_without_half E (ImageManager_new 100 false) (Examples.identity "a.exr")
              false F32.zero false F32.zero eq_refl) as (_ & Hmd & H4 & _).
  fold r in Hmd, H4. split; [rewrite Hmd; reflexivity |]. split; [reflexivity |].
  rewrite H4. reflexivity.
Defined.

(* ================================================================== *)
(** * Theorems: statistics *)

(** X30. [collect_statistics] reads [image->mem->memory_size()] for every
    entry of every vector without a test: it is defined exactly when every
    slot holds a record with a device buffer, and then it adds one entry per
    slot. An empty slot, or a record left without a buffer, takes it through
    a [NULL] pointer. *)
Theorem collect_statistics_needs_buffers (E : Env) (memory_size : device_memory -> Z)
    (m : ImageManager) :
  (is_Some (collect_statistics E memory_size m)
   <-> forall t, Forall has_buffer (images m t))
  /\ forall stats,
       collect_statistics E memory_size m = Some stats ->
       length stats = length (concat (map (images m) all_types)).
Proof.
  unfold collect_statistics.
  set (g := fun entry : option Image => _).
  set (F := fun (acc : option (list (string * Z))) (type : ImageDataType) => _).
  assert (Hg : forall entry, is_Some (g entry) <-> has_buffer entry).
  { intros [img |]; unfold g, has_buffer; cbn [mbind option_bind].
    - destruct (mem img) as [buf |] eqn:Hmem; cbn [mbind option_bind].
      + split; [intros _; exists img, buf; auto | intros _; eauto].
      + split; [intros [? ?]; discriminate |].
        intros (img' & buf & [= <-] & ?). congruence.
    - split; [intros [? ?]; discriminate | intros (img' & buf & ? & _); discriminate]. }
  assert (Hnone : forall types, foldl F None types = None).
  { induction types as [| t types IH]; [reflexivity | exact IH]. }
  assert (Hfold : forall types acc,
            (is_Some (foldl F (Some acc) types)
             <-> forall t, t ∈ types -> Forall has_buffer (images m t))
            /\ forall stats,
                 foldl F (Some acc) types = Some stats ->
                 length stats
                 = (length acc + length (concat (map (images m) types)))%nat).
  { induction types as [| t types IH]; intros acc.
    - cbn. split; [split; [intros _ t Ht; inversion Ht | eauto] |].
      intros stats [= <-]. lia.
    - cbn [foldl].
      assert (Hstep : F (Some acc) t
                      = match mapM g (images m t) with
                        | Some entries => Some (acc ++ entries)
                        | None => None
                        end).
      { unfold F. cbn [mbind option_bind]. destruct (mapM g (images m t)); reflexivity. }
      rewrite Hstep. clear Hstep.
      destruct (mapM g (images m t)) as [entries |] eqn:Hmap.
      + destruct (IH (acc ++ entries)) as [Hsome Hlen]. split.
        * rewrite Hsome. split.
          -- intros Hall t' Ht'. apply elem_of_cons in Ht'. destruct Ht' as [-> | Ht'];
               [| apply Hall; exact Ht'].
             assert (His : is_Some (mapM g (images m t))) by (rewrite Hmap; eauto).
             apply mapM_is_Some in His. eapply Forall_impl; [exact His |].
             intros entry. apply Hg.
          -- intros Hall t' Ht'. apply Hall. right. exact Ht'.
        * intros stats Hstats. rewrite (Hlen stats Hstats).
          apply length_mapM in Hmap. cbn [map concat].
          rewrite !length_app. lia.
      + rewrite Hnone. split; [| discriminate]. split; [intros [? ?]; discriminate |].
        intros Hall. exfalso.
        assert (His : is_Some (mapM g (images m t))).
        { apply mapM_is_Some. eapply Forall_impl; [apply (Hall t); left |].
          intros entry. apply Hg. }
        rewrite Hmap in His. destruct His. discriminate. }
  destruct (Hfold all_types []) as [Hsome Hlen]. split.
  - rewrite Hsome. split; [intros H t; apply H, all_types_complete | intros H t _; apply H].
  - exact Hlen.
Qed.

Lemma collect_statistics_needs_buffers_witness :
  let E := Examples.env_of_files [("a.png"%string, Examples.byte_file)] in
  let img := Examples.fresh_image "a.png" Examples.byte_metadata IMAGE_ALPHA_AUTO in
  exists st,
    device_update E (Examples.manager_with IMAGE_DATA_TYPE_BYTE4 img) []
      Examples.no_params (fun _ _ => false) = Some st
    /\ is_Some (collect_statistics E (fun _ => 4) st.1)
    /\ ~ is_Some (collect_statistics E (fun _ => 4)
                    (Examples.manager_with IMAGE_DATA_TYPE_BYTE4 img)).
Proof.
  intros E img. eexists. split; [vm_compute; reflexivity |]. split.
  - apply collect_statistics_needs_buffers.
    intros t. destruct t; repeat constructor.
    eexists _, _. split; reflexivity.
  - intros H.
    destruct (collect_statistics_needs_buffers E (fun _ => 4)
                (Examples.manager_with IMAGE_DATA_TYPE_BYTE4 img)) as [[Hto _] _].
    specialize (Hto H IMAGE_DATA_TYPE_BYTE4). clear H. rename Hto into H. apply Forall_cons in H.
    destruct H as [(img' & buf & [= <-] & Hmem) _]. discriminate Hmem.
Defined.
